(** * video_editer: subtitle-driven frame sampling, verified over a shallow embedding

    The development embeds the pure and the effectful parts of
    [video_cut.py] and [pipeline.py]:

    - Python [str] values are lists of Unicode code points;
    - Python [float] values are IEEE-754 binary64 numbers, taken from the
      executable specification [SpecFloat] (53-bit mantissa, emax 1024);
    - the file system, the transcoder and the image hashing primitive form
      an explicit world that is threaded through a state-and-error monad,
      every interaction leaving an event in a trace. *)

From Stdlib Require Import ZArith NArith List Bool Lia String Ascii.
From Stdlib Require Import SpecFloat.
From stdpp Require Import base option list gmap sets.

Local Open Scope Z_scope.

(** ** Python strings *)

Module PyStr.

(** A [str] is a sequence of code points. *)
Definition char := N.
Definition pystr := list char.

(** String literals of the source, written with Rocq's byte strings
    (all of them are ASCII). *)
Definition lit (s : string) : pystr :=
  map N_of_ascii (list_ascii_of_string s).

(** [s[:n]] for a non-negative [n]. *)
Definition slice_to (n : nat) (s : pystr) : pystr := take n s.

(** [bool(s)] *)
Definition truthy (s : pystr) : bool :=
  match s with [] => false | _ => true end.

(** [sep.join(parts)] *)
Fixpoint join (sep : pystr) (parts : list pystr) : pystr :=
  match parts with
  | [] => []
  | [p] => p
  | p :: rest => p ++ sep ++ join sep rest
  end.

End PyStr.
Export PyStr.

(** ** Python floats: IEEE-754 binary64 *)

Module PyFloat.

Definition float := spec_float.

Definition prec : Z := 53.
Definition emax : Z := 1024.

Definition fadd : float -> float -> float := SFadd prec emax.
Definition fsub : float -> float -> float := SFsub prec emax.
Definition fmul : float -> float -> float := SFmul prec emax.
Definition fdiv : float -> float -> float := SFdiv prec emax.
Definition flt : float -> float -> bool := SFltb.
Definition fle : float -> float -> bool := SFleb.
Definition fgt (x y : float) : bool := SFltb y x.
Definition fge (x y : float) : bool := SFleb y x.

(** [float(n)] for an [int]: correctly rounded (overflow, which raises in
    Python, does not occur for the integers of this program). *)
Definition of_int (n : Z) : float := binary_normalize prec emax n 0 false.

(** The decimal literal [num/den], correctly rounded. *)
Definition dec (num den : Z) : float := fdiv (of_int num) (of_int den).

Definition f0 : float := S754_zero false.          (* 0.0 *)
Definition f0_01 : float := Eval vm_compute in dec 1 100.   (* 0.01 *)
Definition f0_2 : float := Eval vm_compute in dec 2 10.     (* 0.2 *)
Definition f0_5 : float := Eval vm_compute in dec 1 2.      (* 0.5 *)
Definition f2 : float := Eval vm_compute in of_int 2.       (* 2.0 *)
Definition f10 : float := Eval vm_compute in of_int 10.     (* 10.0 *)
Definition two_pow_52 : float := Eval vm_compute in of_int (2 ^ 52).

(** [max(a, b)] and [min(a, b)] of the builtins: the first argument is
    kept unless the second compares strictly beyond it, so a NaN in second
    position is dropped and a NaN in first position is kept. *)
Definition py_max (a b : float) : float := if fgt b a then b else a.
Definition py_min (a b : float) : float := if flt b a then b else a.

Definition is_finite (x : float) : bool :=
  match x with
  | S754_zero _ | S754_finite _ _ _ => true
  | _ => false
  end.

Definition is_nan (x : float) : bool :=
  match x with S754_nan => true | _ => false end.

(** [int(x)]: truncation toward zero; [None] stands for the [ValueError]
    (NaN) or [OverflowError] (infinity) that Python raises. *)
Definition to_int (x : float) : option Z :=
  match x with
  | S754_zero _ => Some 0
  | S754_finite s m e =>
      let a := match e with
               | Z0 => Zpos m
               | Zpos p => Z.shiftl (Zpos m) e
               | Zneg p => Z.shiftr (Zpos m) (Zpos p)
               end in
      Some (if s then - a else a)
  | _ => None
  end.

(** [round(x)] with one argument: nearest integer, ties to even. *)
Definition py_round (x : float) : option Z :=
  match x with
  | S754_zero _ => Some 0
  | S754_finite s m e =>
      let a := match e with
               | Z0 => Zpos m
               | Zpos p => Z.shiftl (Zpos m) e
               | Zneg p =>
                   let d := 2 ^ (Zpos p) in
                   let q := Zpos m / d in
                   let r := Zpos m mod d in
                   match Z.compare (2 * r) d with
                   | Lt => q
                   | Gt => q + 1
                   | Eq => if Z.even q then q else q + 1
                   end
               end in
      Some (if s then - a else a)
  | _ => None
  end.

End PyFloat.
Export PyFloat.

(** ** Subtitle entries and the normalisation of a cue *)

Record SubtitleEntry := mkEntry {
  start : float;
  end_ : float;
  text : pystr
}.

(** Lines 86-87 of [_parse_vtt] and 107-108 of [_parse_srt]: both parsers
    end a cue with the same two statements, applied to the raw times
    [start_s] and [end_s] that [_parse_time_to_seconds] returned. *)
Definition normalize_cue (start_s end_s : float) (t : pystr) : SubtitleEntry :=
  let end_s := if fle end_s start_s then fadd start_s f0_5 else end_s in
  mkEntry start_s end_s t.

(** [_parse_srt] and [_parse_vtt], from the point where a cue's time line
    has been recognised: the raw cues of a file are the triples (start
    string parsed, end string parsed, text) of the blocks that pass the
    syntactic filters of the respective format, in file order.  Each is
    appended after normalisation. *)
Definition RawCue : Type := float * float * pystr.

Definition parse_cues (cues : list RawCue) : list SubtitleEntry :=
  map (fun c => let '(s, e, t) := c in normalize_cue s e t) cues.

(** ** Decimal formatting with the format specification [0{w}d] *)

Definition digit_char (d : Z) : char := (48 + Z.to_N d)%N.

Fixpoint digits_fuel (fuel : nat) (n : Z) (acc : pystr) : pystr :=
  let acc' := digit_char (n mod 10) :: acc in
  match fuel with
  | O => acc'
  | S f => if n <? 10 then acc' else digits_fuel f (n / 10) acc'
  end.

(** Decimal digits of a non-negative integer. *)
Definition str_of_nonneg (n : Z) : pystr :=
  digits_fuel (Z.to_nat (Z.log2 n)) n [].

(** [format(n, spec)] for the specification [0{w}d]: sign first, then zeros up to a total width [w];
    the field is never truncated. *)
Definition fmt_0d (w : nat) (n : Z) : pystr :=
  let sign := if n <? 0 then lit "-" else [] in
  let ds := str_of_nonneg (Z.abs n) in
  sign ++ repeat 48%N (w - length sign - length ds) ++ ds.

(** ** Timestamps in file names *)

(** [_sec_to_fname_ts]; [None] when [int(t)] raises (NaN, infinity). *)
Definition ms_of (t : float) : option Z :=
  n ← to_int t;
  py_round (fmul (fsub t (of_int n)) (of_int 1000)).

Definition _sec_to_fname_ts (t : float) : option pystr :=
  n ← to_int t;
  ms ← py_round (fmul (fsub t (of_int n)) (of_int 1000));
  let s := n mod 60 in
  let m := (n / 60) mod 60 in
  let h := n / 3600 in
  Some (fmt_0d 2 h ++ lit "-" ++ fmt_0d 2 m ++ lit "-" ++ fmt_0d 2 s
          ++ lit "-" ++ fmt_0d 3 ms).

(** The name given to a frame in [process_one_video]: the timestamp, an
    underscore, the role and the extension [.jpg]. *)
Definition frame_fname (ts_name frame_type : pystr) : pystr :=
  ts_name ++ lit "_" ++ frame_type ++ lit ".jpg".

(** ** Sanitising names *)

(** The character class of [_ILLEGAL_WIN_CHARS]: less-than, greater-than,
    colon, double quote (code point 34), slash, backslash, bar, question
    mark and asterisk. *)
Definition _ILLEGAL_WIN_CHARS : list char :=
  lit "<>:" ++ [34%N] ++ lit "/\|?*".

Definition is_illegal (c : char) : bool :=
  bool_decide (c ∈ _ILLEGAL_WIN_CHARS).

(** Unicode white space, as matched by [\s] on [str] patterns and removed
    by [str.strip()]. *)
Definition is_space (c : char) : bool :=
  ((9 <=? c) && (c <=? 13) || (28 <=? c) && (c <=? 32)
   || (c =? 133) || (c =? 160) || (c =? 5760)
   || (8192 <=? c) && (c <=? 8202)
   || (c =? 8232) || (c =? 8233) || (c =? 8239) || (c =? 8287)
   || (c =? 12288))%N.

Definition underscore : char := 95%N.
Definition space : char := 32%N.
Definition period : char := 46%N.

(** [_ILLEGAL_WIN_CHARS.sub('_', name)] *)
Definition sub_illegal (name : pystr) : pystr :=
  map (fun c => if is_illegal c then underscore else c) name.

(** [re.sub] of the pattern [\s+] by one space: every maximal run of white space becomes one
    space; [in_run] tells that the previous character was white space. *)
Fixpoint sub_ws_runs (in_run : bool) (s : pystr) : pystr :=
  match s with
  | [] => []
  | c :: r =>
      if is_space c
      then (if in_run then sub_ws_runs true r else space :: sub_ws_runs true r)
      else c :: sub_ws_runs false r
  end.

Fixpoint lstrip_by (p : char -> bool) (s : pystr) : pystr :=
  match s with
  | [] => []
  | c :: r => if p c then lstrip_by p r else s
  end.

Definition rstrip_by (p : char -> bool) (s : pystr) : pystr :=
  rev (lstrip_by p (rev s)).

(** [s.strip()] *)
Definition strip (s : pystr) : pystr := rstrip_by is_space (lstrip_by is_space s).

(** [s.rstrip(' .')] *)
Definition is_space_or_period (c : char) : bool := ((c =? space) || (c =? period))%N.

Definition _safe_for_filename (name : pystr) (max_len : nat) : pystr :=
  let cleaned := sub_illegal name in
  let cleaned := strip (sub_ws_runs false cleaned) in
  let cleaned := rstrip_by is_space_or_period cleaned in
  slice_to max_len cleaned.

(** ** MD5 and [_hash8] *)

Module MD5.

Definition w32 (x : Z) : Z := x mod 2 ^ 32.

Definition rotl (x c : Z) : Z :=
  w32 (Z.lor (Z.shiftl x c) (Z.shiftr x (32 - c))).

Definition lnot32 (x : Z) : Z := Z.lxor x 0xffffffff.

Definition shifts : list Z :=
  [7; 12; 17; 22; 7; 12; 17; 22; 7; 12; 17; 22; 7; 12; 17; 22;
   5; 9; 14; 20; 5; 9; 14; 20; 5; 9; 14; 20; 5; 9; 14; 20;
   4; 11; 16; 23; 4; 11; 16; 23; 4; 11; 16; 23; 4; 11; 16; 23;
   6; 10; 15; 21; 6; 10; 15; 21; 6; 10; 15; 21; 6; 10; 15; 21].

Definition K : list Z :=
 [0xd76aa478; 0xe8c7b756; 0x242070db; 0xc1bdceee;
  0xf57c0faf; 0x4787c62a; 0xa8304613; 0xfd469501;
  0x698098d8; 0x8b44f7af; 0xffff5bb1; 0x895cd7be;
  0x6b901122; 0xfd987193; 0xa679438e; 0x49b40821;
  0xf61e2562; 0xc040b340; 0x265e5a51; 0xe9b6c7aa;
  0xd62f105d; 0x02441453; 0xd8a1e681; 0xe7d3fbc8;
  0x21e1cde6; 0xc33707d6; 0xf4d50d87; 0x455a14ed;
  0xa9e3e905; 0xfcefa3f8; 0x676f02d9; 0x8d2a4c8a;
  0xfffa3942; 0x8771f681; 0x6d9d6122; 0xfde5380c;
  0xa4beea44; 0x4bdecfa9; 0xf6bb4b60; 0xbebfbc70;
  0x289b7ec6; 0xeaa127fa; 0xd4ef3085; 0x04881d05;
  0xd9d4d039; 0xe6db99e5; 0x1fa27cf8; 0xc4ac5665;
  0xf4292244; 0x432aff97; 0xab9423a7; 0xfc93a039;
  0x655b59c3; 0x8f0ccc92; 0xffeff47d; 0x85845dd1;
  0x6fa87e4f; 0xfe2ce6e0; 0xa3014314; 0x4e0811a1;
  0xf7537e82; 0xbd3af235; 0x2ad7d2bb; 0xeb86d391].

(** [n] as [k] little-endian bytes. *)
Fixpoint le_bytes (k : nat) (n : Z) : list Z :=
  match k with
  | O => []
  | S k' => n mod 256 :: le_bytes k' (n / 256)
  end.

Fixpoint le_word (bs : list Z) : Z :=
  match bs with
  | [] => 0
  | b :: r => b + 256 * le_word r
  end.

(** The message, one [0x80] byte, zeros up to 56 modulo 64, and the bit
    length on eight bytes. *)
Definition pad (msg : list Z) : list Z :=
  let len := Z.of_nat (length msg) in
  msg ++ [128] ++ repeat 0 (Z.to_nat ((55 - len) mod 64))
      ++ le_bytes 8 ((8 * len) mod 2 ^ 64).

Fixpoint words (n : nat) (bs : list Z) : list Z :=
  match n with
  | O => []
  | S n' => le_word (take 4 bs) :: words n' (drop 4 bs)
  end.

Definition State : Type := Z * Z * Z * Z.

Definition step (M : list Z) (st : State) (i : nat) : State :=
  let '(A, B, C, D) := st in
  let iz := Z.of_nat i in
  let '(F, g) :=
    match (i / 16)%nat with
    | 0%nat => (Z.lor (Z.land B C) (Z.land (lnot32 B) D), iz)
    | 1%nat => (Z.lor (Z.land D B) (Z.land (lnot32 D) C), (5 * iz + 1) mod 16)
    | 2%nat => (Z.lxor B (Z.lxor C D), (3 * iz + 5) mod 16)
    | _ => (Z.lxor C (Z.lor B (lnot32 D)), (7 * iz) mod 16)
    end in
  let F' := w32 (F + A + nth i K 0 + nth (Z.to_nat g) M 0) in
  (D, w32 (B + rotl F' (nth i shifts 0)), B, C).

Definition block (st : State) (bs : list Z) : State :=
  let M := words 16 bs in
  let '(A, B, C, D) := st in
  let '(a, b, c, d) := fold_left (step M) (seq 0 64) st in
  (w32 (A + a), w32 (B + b), w32 (C + c), w32 (D + d)).

Fixpoint blocks (n : nat) (st : State) (bs : list Z) : State :=
  match n with
  | O => st
  | S n' => blocks n' (block st (take 64 bs)) (drop 64 bs)
  end.

Definition init : State := (0x67452301, 0xefcdab89, 0x98badcfe, 0x10325476).

Definition digest (msg : list Z) : list Z :=
  let p := pad msg in
  let '(a, b, c, d) := blocks (length p / 64) init p in
  le_bytes 4 a ++ le_bytes 4 b ++ le_bytes 4 c ++ le_bytes 4 d.

Definition hex_digit (d : Z) : char :=
  if d <? 10 then (48 + Z.to_N d)%N else (87 + Z.to_N d)%N.

Definition hex_byte (b : Z) : pystr := [hex_digit (b / 16); hex_digit (b mod 16)].

(** [hashlib.md5(msg).hexdigest()] *)
Definition hexdigest (msg : list Z) : pystr := flat_map hex_byte (digest msg).

End MD5.

(** [s.encode('utf-8', errors='ignore')]: lone surrogates are dropped. *)
Definition utf8_char (c : char) : list Z :=
  let z := Z.of_N c in
  if z <? 0x80 then [z]
  else if z <? 0x800 then [0xC0 + z / 64; 0x80 + z mod 64]
  else if (0xD800 <=? z) && (z <=? 0xDFFF) then []
  else if z <? 0x10000 then
    [0xE0 + z / 4096; 0x80 + (z / 64) mod 64; 0x80 + z mod 64]
  else
    [0xF0 + z / 262144; 0x80 + (z / 4096) mod 64; 0x80 + (z / 64) mod 64;
     0x80 + z mod 64].

Definition utf8_encode (s : pystr) : list Z := flat_map utf8_char s.

Definition _hash8 (s : pystr) : pystr :=
  slice_to 8 (MD5.hexdigest (utf8_encode s)).

(** ** Output directory *)

(** Paths are kept in their string form [str(p)], with the separator of
    POSIX paths.  [path_join p seg] is [str(Path(p) / seg)] for a segment
    without separator that is neither [.] nor absolute, which is what
    [_safe_for_filename] and the frame names supply: an empty segment adds
    nothing, the current directory [.] disappears in front of a segment, and
    no separator is doubled after a root. *)
Definition sep : char := 47%N.

Definition ends_with_sep (p : pystr) : bool :=
  match last p with Some c => (c =? sep)%N | None => false end.

Definition path_join (p seg : pystr) : pystr :=
  match seg with
  | [] => p
  | _ => if bool_decide (p = lit ".") then seg
         else if ends_with_sep p then p ++ seg
         else p ++ [sep] ++ seg
  end.

Definition _choose_out_dir (out_root uploader base : pystr) : pystr :=
  let uploader_s := _safe_for_filename uploader 40 in
  let base_s := _safe_for_filename base 80 in
  let d := path_join (path_join out_root uploader_s) base_s in
  if (230 <? length d)%nat then
    let h := _hash8 (out_root ++ uploader ++ base) in
    path_join (path_join out_root uploader_s) (lit "vid_" ++ h)
  else d.

(** ** Fingerprints *)

(** [sum(c1 != c2 for c1, c2 in zip(a, b))]: [zip] stops at the shorter
    string. *)
Fixpoint hamming_distance (a b : pystr) : Z :=
  match a, b with
  | c1 :: a', c2 :: b' =>
      (if bool_decide (c1 = c2) then 0 else 1) + hamming_distance a' b'
  | _, _ => 0
  end.

(** The character-wise Hamming distance in the words of its description:
    the number of positions, among those that both strings have, at which
    the two characters differ. *)
Definition differing_positions (a b : pystr) : list nat :=
  List.filter (fun i => negb (bool_decide (a !! i = b !! i)))
              (seq 0 (Nat.min (length a) (length b))).

Definition char_distance (a b : pystr) : Z :=
  Z.of_nat (length (differing_positions a b)).

(** ** The world outside the program *)

(** A file as the program can observe it: its size, and the fingerprint
    that [imagehash.phash] prints for it ([None] when the image cannot be
    opened or hashed). *)
Record File := mkFile {
  f_size : Z;
  f_phash : option pystr
}.

Inductive Msg :=
| MsgFfmpegFailed (t_seconds : float)
| MsgHashFailed (image_path : pystr)
| MsgNoEntries (subtitle_path : pystr)
| MsgDurationUnknown (video_path : pystr)
| MsgHeader (base : pystr) (total n : nat)
| MsgSkipSimilar (fname : pystr)
| MsgSaveNew (fname : pystr)
| MsgSaveHashFailed (fname : pystr)
| MsgSummary (saved skipped : Z)
| MsgNoNewRecords
| MsgNoFramesDir (frames_dir : pystr)
| MsgDone (base : pystr).

Inductive Event :=
| EvTranscode (fallback : bool) (video : pystr) (t : float) (out : pystr)
| EvExtract (video : pystr) (t_seconds : float) (out_image : pystr) (ok : bool)
| EvHash (image_path : pystr) (result : option pystr)
| EvUnlink (p : pystr)
| EvMkdir (p : pystr)
| EvPrint (m : Msg)
| EvAcquire
| EvArchive (frames_dir : pystr) (video : pystr).

Record World := mkWorld {
  files : gmap pystr File;
  dirs : gset pystr;
  manifest : option (list pystr);
  trace : list Event
}.

Inductive Exn := ValueError | OverflowError | TypeError | AttributeError.

(** ** State and exceptions *)

Definition M (A : Type) : Type := World -> World * (Exn + A).

Global Instance M_ret : MRet M := fun A (x : A) w => (w, inr x).

Global Instance M_bind : MBind M := fun A B (f : A -> M B) (c : M A) w =>
  match c w with
  | (w', inr x) => f x w'
  | (w', inl e) => (w', inl e)
  end.

Definition raise {A} (e : Exn) : M A := fun w => (w, inl e).

Definition emit (ev : Event) : M unit := fun w =>
  (mkWorld (files w) (dirs w) (manifest w) (trace w ++ [ev]), inr tt).

Definition tprint (m : Msg) : M unit := emit (EvPrint m).

Definition get_world : M World := fun w => (w, inr w).

Definition set_files (fs : gmap pystr File) : M unit := fun w =>
  (mkWorld fs (dirs w) (manifest w) (trace w), inr tt).

Definition mkdir (p : pystr) : M unit := fun w =>
  (mkWorld (files w) ({[p]} ∪ dirs w) (manifest w) (trace w ++ [EvMkdir p]), inr tt).

(** [p.unlink(missing_ok=True)] *)
Definition unlink (p : pystr) : M unit :=
  w ← get_world; set_files (delete p (files w));; emit (EvUnlink p).

Fixpoint foldM {A B} (f : B -> A -> M B) (l : list A) (b : B) : M B :=
  match l with
  | [] => mret b
  | x :: r => b' ← f b x; foldM f r b'
  end.

(** ** The collaborators: transcoder, prober, subtitle files, JSON *)

(** One run of the transcoder: whether it raised, and the file it left at
    the output path, if it wrote one. *)
Record RunResult := mkRun {
  raised : bool;
  written : option File
}.

(** A subtitle file: its lower-cased suffix, the raw cues that the
    grammar of its format recognises, and whether one of the time lines
    that [_parse_srt] reaches holds the arrow more than once.  On such a
    line the unpacking of [time_line.split] into two names raises
    [ValueError]: [_parse_srt] does it outside any [try] (line 103) and
    the exception leaves the parser; [_parse_vtt] catches it and goes on
    with the next line (lines 73-78). *)
Record SubFile := mkSubFile {
  sf_suffix : pystr;
  sf_cues : list RawCue;
  sf_two_arrows : bool
}.

(** A video path with the two components the driver reads from it. *)
Record Video := mkVideo {
  v_path : pystr;
  v_parent_name : pystr;
  v_stem : pystr
}.

#[warnings="-register-all"]
Inductive JValue :=
| JNull
| JBool (b : bool)
| JInt (n : Z)
| JFloat (x : float)
| JStr (s : pystr)
| JList (l : list JValue)
| JDict (kv : list (pystr * JValue)).

Record Env := mkEnv {
  (* ffmpeg.input(video, ss=t).output(out, vframes=1, ...).run() *)
  ffmpeg_seek : gmap pystr File -> pystr -> float -> pystr -> RunResult;
  (* the fps / trim / setpts pipeline of the inner handler *)
  ffmpeg_window : gmap pystr File -> pystr -> float -> pystr -> RunResult;
  (* get_video_duration *)
  probe_duration : pystr -> float;
  subtitle_file : pystr -> SubFile;
  video_of_path : pystr -> Video;
  (* json.loads; None when it raises *)
  json_loads : pystr -> option JValue;
  (* int(s) on a str; None when it raises *)
  int_of_str : pystr -> option Z;
  (* video_loader.main() *)
  video_loader_main : M unit;
  (* video_loader.MANIFEST_PATH is read through [manifest]; DEFAULT_OUTPUT_DIR *)
  DEFAULT_OUTPUT_DIR : pystr
}.

(** ** [video_cut.py]: extraction, fingerprints, the per-video driver *)

Definition exists_nonempty (fs : gmap pystr File) (p : pystr) : bool :=
  match fs !! p with
  | Some f => 0 <? f_size f
  | None => false
  end.

Definition apply_run (r : RunResult) (out : pystr) (fs : gmap pystr File)
  : gmap pystr File :=
  match written r with
  | Some f => <[out := f]> fs
  | None => fs
  end.

(** [_ensure_parent_dir] is left out: the driver has created the output
    directory, the parent of every frame, before the first call. *)
Definition extract_frame (env : Env) (video : pystr) (t_seconds : float)
    (out_image : pystr) : M bool :=
  let t := py_max t_seconds f0 in
  w ← get_world;
  let r1 := ffmpeg_seek env (files w) video t out_image in
  emit (EvTranscode false video t out_image);;
  set_files (apply_run r1 out_image (files w));;
  ok ← (if raised r1 then
          w1 ← get_world;
          let r2 := ffmpeg_window env (files w1) video t out_image in
          emit (EvTranscode true video t out_image);;
          set_files (apply_run r2 out_image (files w1));;
          if raised r2 then
            tprint (MsgFfmpegFailed t_seconds);; mret false
          else
            w2 ← get_world; mret (exists_nonempty (files w2) out_image)
        else
          w1 ← get_world; mret (exists_nonempty (files w1) out_image));
  emit (EvExtract video t_seconds out_image ok);;
  mret ok.

Definition calculate_image_hash (image_path : pystr) : M (option pystr) :=
  w ← get_world;
  let r := files w !! image_path ≫= f_phash in
  emit (EvHash image_path r);;
  match r with
  | Some h => mret (Some h)
  | None => tprint (MsgHashFailed image_path);; mret None
  end.

(** [bool(x)] for an [Optional[str]] *)
Definition truthy_opt (o : option pystr) : bool :=
  match o with Some s => truthy s | None => false end.

Definition is_similar_to_previous (image_path : pystr)
    (previous_hashes : gset pystr) (similarity_threshold : Z) : M bool :=
  if bool_decide (previous_hashes = ∅) then mret false
  else
    current_hash ← calculate_image_hash image_path;
    match current_hash with
    | Some (c :: cs) =>
        mret (existsb
                (fun prev_hash =>
                   hamming_distance (c :: cs) prev_hash <=? similarity_threshold)
                (elements previous_hashes))
    | _ => mret false
    end.

Definition parse_subtitles (env : Env) (path : pystr) : M (list SubtitleEntry) :=
  let f := subtitle_file env path in
  if bool_decide (sf_suffix f = lit ".vtt") then mret (parse_cues (sf_cues f))
  else if bool_decide (sf_suffix f = lit ".srt") then
    (if sf_two_arrows f then raise ValueError else mret (parse_cues (sf_cues f)))
  else raise ValueError.

(** The three accumulators of the loop in [process_one_video]. *)
Record Acc := mkAcc {
  saved_hashes : gset pystr;
  saved_count : Z;
  skipped_count : Z
}.

Definition fname_ts_or_raise (t : float) : M pystr :=
  match _sec_to_fname_ts t with
  | Some s => mret s
  | None => raise (if is_nan t then ValueError else OverflowError)
  end.

(** Lines 245-247: the extraction at [t] and its single retry. *)
Definition extract_with_retry (env : Env) (video_path : pystr) (t : float)
    (out_img : pystr) : M bool :=
  ok ← extract_frame env video_path t out_img;
  match negb ok && fgt t f0 with
  | true => extract_frame env video_path (py_max f0 (fsub t f0_2)) out_img
  | false => mret ok
  end.

(** Lines 250-262: what becomes of a frame that was extracted. *)
Definition classify_frame (out_img fname : pystr) (similarity_threshold : Z)
    (acc : Acc) : M Acc :=
  similar ← is_similar_to_previous out_img (saved_hashes acc) similarity_threshold;
  match similar with
  | true =>
      unlink out_img;;
      tprint (MsgSkipSimilar fname);;
      mret (mkAcc (saved_hashes acc) (saved_count acc) (skipped_count acc + 1))
  | false =>
      current_hash ← calculate_image_hash out_img;
      match current_hash with
      | Some (c :: cs) =>
          tprint (MsgSaveNew fname);;
          mret (mkAcc ({[c :: cs]} ∪ saved_hashes acc) (saved_count acc + 1)
                      (skipped_count acc))
      | _ =>
          tprint (MsgSaveHashFailed fname);;
          mret (mkAcc (saved_hashes acc) (saved_count acc + 1)
                      (skipped_count acc))
      end
  end.

(** The body of the inner loop, for one time point. *)
Definition process_time_point (env : Env) (video_path out_dir : pystr)
    (similarity_threshold : Z) (acc : Acc) (tp : float * pystr) : M Acc :=
  let '(t, frame_type) := tp in
  ts_name ← fname_ts_or_raise t;
  let fname := frame_fname ts_name frame_type in
  let out_img := path_join out_dir fname in
  ok ← extract_with_retry env video_path t out_img;
  match ok with
  | true => classify_frame out_img fname similarity_threshold acc
  | false => mret acc
  end.

Definition safe_end_of (duration : float) (e : SubtitleEntry) : float :=
  if fgt duration f0 then py_max (fsub duration f0_01) f0
  else py_max (end_ e) (start e).

Definition start_time_of (duration : float) (e : SubtitleEntry) : float :=
  py_max f0 (py_min (start e) (safe_end_of duration e)).

Definition end_time_of (duration : float) (e : SubtitleEntry) : float :=
  py_max f0 (py_min (end_ e) (safe_end_of duration e)).

Definition mid_time_of (duration : float) (e : SubtitleEntry) : float :=
  py_max f0 (py_min (fdiv (fadd (start_time_of duration e) (end_time_of duration e)) f2)
                    (safe_end_of duration e)).

(** The body of the outer loop, for one subtitle entry. *)
Definition process_entry (env : Env) (video_path out_dir : pystr)
    (duration : float) (similarity_threshold : Z) (acc : Acc)
    (e : SubtitleEntry) : M Acc :=
  let start_time := start_time_of duration e in
  let end_time := end_time_of duration e in
  let mid_time := mid_time_of duration e in
  if flt start_time f10 then mret acc
  else
    let time_points :=
      [(start_time, lit "start"); (mid_time, lit "mid"); (end_time, lit "end")] in
    foldM (process_time_point env video_path out_dir similarity_threshold)
          time_points acc.

(** The function returns nothing; the embedding returns the accumulators
    that the summary line prints. *)
Definition process_one_video (env : Env) (video : Video)
    (subtitle_path out_root : pystr) (max_subs similarity_threshold : Z) : M Acc :=
  entries ← parse_subtitles env subtitle_path;
  match entries with
  | [] => tprint (MsgNoEntries subtitle_path);; mret (mkAcc ∅ 0 0)
  | _ =>
      let duration := probe_duration env (v_path video) in
      (if fle duration f0 then tprint (MsgDurationUnknown (v_path video))
       else mret tt);;
      let out_dir := _choose_out_dir out_root (v_parent_name video) (v_stem video) in
      mkdir out_dir;;
      let total := if max_subs <=? 0 then length entries
                   else Nat.min (length entries) (Z.to_nat max_subs) in
      tprint (MsgHeader (v_stem video) total (length entries));;
      acc ← foldM (process_entry env (v_path video) out_dir duration
                                 similarity_threshold)
                  (take total entries) (mkAcc ∅ 0 0);
      tprint (MsgSummary (saved_count acc) (skipped_count acc));;
      mret acc
  end.

(** ** [pipeline.py]: the incremental orchestrator *)

Definition lift {A} (r : Exn + A) : M A := fun w => (w, r).

(** [d.get(key)] on the key-value pairs of a parsed JSON object. *)
Fixpoint assoc_get (key : pystr) (kv : list (pystr * JValue)) : option JValue :=
  match kv with
  | [] => None
  | (k, v) :: r => if bool_decide (k = key) then Some v else assoc_get key r
  end.

(** [rec.get(key, default)]: only a [dict] has the method. *)
Definition rec_get (rec : JValue) (key : pystr) (default : JValue) : Exn + JValue :=
  match rec with
  | JDict kv => inr (from_option id default (assoc_get key kv))
  | _ => inl AttributeError
  end.

(** [int(v)] on a JSON value. *)
Definition py_int (env : Env) (v : JValue) : Exn + Z :=
  match v with
  | JInt n => inr n
  | JBool b => inr (if b then 1 else 0)
  | JFloat x =>
      match to_int x with
      | Some n => inr n
      | None => inl (if is_nan x then ValueError else OverflowError)
      end
  | JStr s =>
      match int_of_str env s with
      | Some n => inr n
      | None => inl ValueError
      end
  | _ => inl TypeError
  end.

(** [bool(v)] on a JSON value. *)
Definition truthy_json (v : JValue) : bool :=
  match v with
  | JNull => false
  | JBool b => b
  | JInt n => negb (n =? 0)
  | JFloat x => match x with S754_zero _ => false | _ => true end
  | JStr s => truthy s
  | JList l => match l with [] => false | _ => true end
  | JDict kv => match kv with [] => false | _ => true end
  end.

(** The loop of [_read_new_records] over the lines of the manifest;
    [records] is the list built so far. *)
Fixpoint read_lines (env : Env) (since_ts : Z) (lines : list pystr)
    (records : list JValue) : Exn + list JValue :=
  match lines with
  | [] => inr records
  | line :: rest =>
      let line := strip line in
      if negb (truthy line) then read_lines env since_ts rest records
      else
        match json_loads env line with
        | None => read_lines env since_ts rest records
        | Some rec =>
            match rec_get rec (lit "created_at") (JInt 0) with
            | inl e => inl e
            | inr v =>
                match py_int env v with
                | inl e => inl e
                | inr n =>
                    if since_ts <=? n
                    then read_lines env since_ts rest (records ++ [rec])
                    else read_lines env since_ts rest records
                end
            end
        end
  end.

(** The manifest is [None] when the file does not exist. *)
Definition _read_new_records (env : Env) (manifest : option (list pystr))
    (since_ts : Z) : Exn + list JValue :=
  match manifest with
  | None => inr []
  | Some lines => read_lines env since_ts lines []
  end.

Definition path_exists (w : World) (p : pystr) : bool :=
  bool_decide (is_Some (files w !! p)) || bool_decide (p ∈ dirs w).

(** [Path(v)]: a [TypeError] unless [v] is a string. *)
Definition as_path (v : JValue) : Exn + pystr :=
  match v with
  | JStr s => inr s
  | _ => inl TypeError
  end.

(** The body of the loop of [main] over the new records; the packaging
    steps (folder, archive, pruning) are one event. *)
Definition main_body (env : Env) (out_root : pystr) (rec : JValue) : M unit :=
  v ← lift (rec_get rec (lit "video_path") JNull);
  s ← lift (rec_get rec (lit "subtitle_path") JNull);
  match negb (truthy_json v) || negb (truthy_json s) with
  | true => mret tt
  | false =>
      vpath ← lift (as_path v);
      spath ← lift (as_path s);
      w ← get_world;
      match negb (path_exists w vpath) || negb (path_exists w spath) with
      | true => mret tt
      | false =>
          let video := video_of_path env vpath in
          process_one_video env video spath out_root 0 5;;
          let frames_dir :=
            _choose_out_dir out_root (v_parent_name video) (v_stem video) in
          w' ← get_world;
          match path_exists w' frames_dir with
          | false => tprint (MsgNoFramesDir frames_dir)
          | true =>
              emit (EvArchive frames_dir vpath);;
              tprint (MsgDone (v_stem video))
          end
      end
  end.

(** [main()], with [start_ts] the value of [int(time.time())]. *)
Definition main (env : Env) (start_ts : Z) : M unit :=
  emit EvAcquire;;
  video_loader_main env;;
  w ← get_world;
  new_records ← lift (_read_new_records env (manifest w) start_ts);
  match new_records with
  | [] => tprint MsgNoNewRecords
  | _ =>
      let out_root := DEFAULT_OUTPUT_DIR env in
      mkdir out_root;;
      foldM (fun (_ : unit) rec => main_body env out_root rec) new_records tt
  end.

(** [run c w] is the world and the outcome of [c] started in [w]. *)
Definition run {A} (c : M A) (w : World) : World * (Exn + A) := c w.


(** ** Observing a run *)

(** The events added between two worlds. *)
Definition new_events (w w' : World) : list Event :=
  drop (length (trace w)) (trace w').

Definition is_unlink (ev : Event) : bool :=
  match ev with EvUnlink _ => true | _ => false end.

Definition is_extract (ev : Event) : bool :=
  match ev with EvExtract _ _ _ _ => true | _ => false end.

Definition is_hash (ev : Event) : bool :=
  match ev with EvHash _ _ => true | _ => false end.

(** The fingerprint that [calculate_image_hash] obtains in a world. *)
Definition phash_at (w : World) (image_path : pystr) : option pystr :=
  files w !! image_path ≫= f_phash.

(** What [calculate_image_hash] leaves in the world. *)
Definition after_hash (w : World) (image_path : pystr) : World :=
  let r := phash_at w image_path in
  let tr := trace w ++ [EvHash image_path r] in
  mkWorld (files w) (dirs w) (manifest w)
          (match r with
           | Some _ => tr
           | None => tr ++ [EvPrint (MsgHashFailed image_path)]
           end).

(** The events of one fingerprint computation. *)
Definition hash_events (w : World) (p : pystr) : list Event :=
  EvHash p (phash_at w p)
  :: match phash_at w p with
     | Some _ => []
     | None => [EvPrint (MsgHashFailed p)]
     end.

(** The world in which the second fingerprint computation of
    [classify_frame] takes place. *)
Definition after_similarity_test (w : World) (out_img : pystr)
    (prev : gset pystr) : World :=
  if bool_decide (prev = ∅) then w else after_hash w out_img.

(** ** Sample collaborators, for concrete runs *)

Definition empty_world : World := mkWorld ∅ ∅ None [].

(** A transcoder whose seek writes a 100-byte frame with the given
    fingerprint, never raising. *)
Definition seek_ok (h : option pystr) : gmap pystr File -> pystr -> float -> pystr -> RunResult :=
  fun _ _ _ _ => mkRun false (Some (mkFile 100 h)).

(** A transcoder run that raises and writes nothing. *)
Definition run_raises : gmap pystr File -> pystr -> float -> pystr -> RunResult :=
  fun _ _ _ _ => mkRun true None.

Definition sample_env (seek window : gmap pystr File -> pystr -> float -> pystr -> RunResult)
    (loads : pystr -> option JValue) : Env :=
  mkEnv seek window (fun _ => f0) (fun _ => mkSubFile (lit ".srt") [] false)
        (fun p => mkVideo p (lit "uploader") (lit "clip"))
        loads (fun _ => None) (mret tt) (lit "frames_output").

(** A world holding one extracted frame with fingerprint [00ff]. *)
Definition world_with_frame : World :=
  mkWorld {[ lit "f.jpg" := mkFile 100 (Some (lit "00ff")) ]} ∅ None [].

(** Events that are neither an [extract_frame] call, nor a fingerprint
    computation, nor a deletion. *)
Definition is_quiet (ev : Event) : bool :=
  negb (is_extract ev) && negb (is_hash ev) && negb (is_unlink ev).

(** Whether one of the two transcoder strategies of [extract_frame] ran to
    completion from the files [fs]. *)
Definition transcoder_completed (env : Env) (fs : gmap pystr File)
    (video : pystr) (t_seconds : float) (out : pystr) : bool :=
  let t := py_max t_seconds f0 in
  let r1 := ffmpeg_seek env fs video t out in
  negb (raised r1)
  || negb (raised (ffmpeg_window env (apply_run r1 out fs) video t out)).

(** A run in which the transcoder delivers a frame that cannot be hashed. *)
Definition env_unhashable : Env := sample_env (seek_ok None) run_raises (fun _ => None).

Definition t12 : float := Eval vm_compute in of_int 12.

Definition out_img_12_start : pystr :=
  path_join (lit "out") (frame_fname (lit "00-00-12-000") (lit "start")).

Definition world_unhashable : World :=
  fst (run (extract_with_retry env_unhashable (lit "v.mp4") t12 out_img_12_start)
           empty_world).

(** The invariant of the accumulators: fingerprints are recorded only once a
    frame has been counted as saved. *)
Definition acc_inv (acc : Acc) : Prop :=
  0 ≤ saved_count acc ∧ (saved_count acc = 0 → saved_hashes acc = ∅).

(** A run in which the transcoder delivers a frame with fingerprint [00ff]. *)
Definition env_hashable : Env :=
  sample_env (seek_ok (Some (lit "00ff"))) run_raises (fun _ => None).

Definition world_hashable : World :=
  fst (run (extract_with_retry env_hashable (lit "v.mp4") t12 out_img_12_start)
           empty_world).

(** A subtitle entry spanning 3.0 s to 5.0 s, inside the warm-up window. *)
Definition early_entry : SubtitleEntry :=
  mkEntry (of_int 3) (of_int 5) (lit "hello").

(** ** The sanitiser, in the words of its description *)

(** The nine characters that the sanitiser is described to replace, by code
    point: less-than (60), greater-than (62), colon (58), double quote (34),
    slash (47), backslash (92), bar (124), question mark (63) and
    asterisk (42). *)
Definition described_illegal : list char := [60; 62; 58; 34; 47; 92; 124; 63; 42]%N.

(** [collapsed s s']: [s'] is [s] with every maximal run of white space
    replaced by one space (code point 32), everything else unchanged. *)
Inductive collapsed : pystr -> pystr -> Prop :=
| collapsed_nil : collapsed [] []
| collapsed_char (c : char) (s s' : pystr) :
    is_space c = false → collapsed s s' → collapsed (c :: s) (c :: s')
| collapsed_run (ws s s' : pystr) :
    ws ≠ [] →
    Forall (λ c, is_space c = true) ws →
    (∀ c, head s = Some c → is_space c = false) →
    collapsed s s' →
    collapsed (ws ++ s) (32%N :: s').

(** An output root of 231 characters. *)
Definition long_root : pystr := repeat 97%N 231.

(** ** The record selection, in the words of its description *)

(** The records of a manifest: what the non-blank lines parse to, in file
    order; lines that do not parse are left out. *)
Definition manifest_records (env : Env) (lines : list pystr) : list JValue :=
  omap (λ line, let line := strip line in
                if truthy line then json_loads env line else None) lines.

(** The time stamp of a well-formed record: the record is an object, and
    its [created_at], which counts as 0 when the object has none, reads as
    an integer. *)
Definition created_at (env : Env) (rec : JValue) : option Z :=
  match rec with
  | JDict kv =>
      match py_int env (from_option id (JInt 0) (assoc_get (lit "created_at") kv)) with
      | inr n => Some n
      | inl _ => None
      end
  | _ => None
  end.

Definition is_new (env : Env) (since_ts : Z) (rec : JValue) : bool :=
  match created_at env rec with
  | Some n => since_ts <=? n
  | None => false
  end.

Definition select_new (env : Env) (lines : list pystr) (since_ts : Z) : list JValue :=
  List.filter (is_new env since_ts) (manifest_records env lines).

(** A JSON reader that knows three lines. *)
Definition record_at (n : Z) : JValue :=
  JDict [(lit "video_path", JStr (lit "v.mp4")); (lit "created_at", JInt n)].

Definition sample_loads (line : pystr) : option JValue :=
  if bool_decide (line = lit "old") then Some (record_at 50)
  else if bool_decide (line = lit "new") then Some (record_at 100)
  else if bool_decide (line = lit "[]") then Some (JList [])
  else None.

Definition env_manifest : Env := sample_env run_raises run_raises sample_loads.

Definition sample_manifest : list pystr :=
  [lit "old"; lit "  "; lit "{broken"; lit " new "].

Definition world_stale_manifest : World :=
  mkWorld ∅ ∅ (Some [lit "old"; lit "{broken"]) [].

(** ** Reading a decimal field back *)

Definition is_digit (c : char) : bool := ((48 <=? c) && (c <=? 57))%N.

Definition digits_value (s : pystr) : Z :=
  fold_left (λ a c, 10 * a + (Z.of_N c - 48)) s 0.

(** [s] is a field of exactly [k] decimal digits that reads [v]. *)
Definition decimal_field (k : nat) (v : Z) (s : pystr) : Prop :=
  length s = k ∧ forallb is_digit s = true ∧ digits_value s = v.

(** [s] is a field of at least [k] decimal digits that reads [v]. *)
Definition padded_field (k : nat) (v : Z) (s : pystr) : Prop :=
  (k ≤ length s)%nat ∧ forallb is_digit s = true ∧ digits_value s = v.

(** A transcoder whose seek succeeds only before 12 s; its fallback always
    raises. *)
Definition seek_before_12 : gmap pystr File -> pystr -> float -> pystr -> RunResult :=
  fun _ _ t _ =>
    if flt t t12 then mkRun false (Some (mkFile 100 (Some (lit "00ff"))))
    else mkRun true None.

Definition env_retry : Env := sample_env seek_before_12 run_raises (fun _ => None).

(** A world holding a frame whose fingerprint is the empty string. *)
Definition world_with_empty_hash : World :=
  mkWorld {[ lit "f.jpg" := mkFile 100 (Some []) ]} ∅ None [].

(** ** Observing the driver *)

Definition is_extract_ok (ev : Event) : bool :=
  match ev with EvExtract _ _ _ ok => ok | _ => false end.

(** Events that neither call [extract_frame] nor delete a file. *)
Definition is_passive (ev : Event) : bool :=
  negb (is_extract ev) && negb (is_unlink ev).

Definition count_events (p : Event -> bool) (evs : list Event) : Z :=
  Z.of_nat (length (List.filter p evs)).

(** Fingerprints that are pairwise farther apart than the threshold. *)
Definition well_separated (thr : Z) (hs : gset pystr) : Prop :=
  ∀ a b, a ∈ hs → b ∈ hs → a ≠ b → thr < char_distance a b.

(** Every deletion in [evs] removes a file that a successful call of
    [extract_frame] in [evs] had written. *)
Definition unlinks_own_frames (evs : list Event) : Prop :=
  ∀ p, EvUnlink p ∈ evs → ∃ v t, EvExtract v t p true ∈ evs.

(** The state of the frame loop of [process_one_video], seen from the
    world [w0] and the accumulators [acc0] in which it started: [evs] are
    the events added since. *)
Definition loop_state (out_dir : pystr) (thr : Z) (w0 : World) (acc0 : Acc)
    (bound : Z) (w : World) (acc : Acc) : Prop :=
  ∃ evs,
    trace w = trace w0 ++ evs
    ∧ dirs w = dirs w0
    ∧ manifest w = manifest w0
    ∧ (∀ p, (∀ fname, p ≠ path_join out_dir fname) → files w !! p = files w0 !! p)
    ∧ skipped_count acc = skipped_count acc0 + count_events is_unlink evs
    ∧ saved_count acc + skipped_count acc
      = saved_count acc0 + skipped_count acc0 + count_events is_extract_ok evs
    ∧ count_events is_extract evs ≤ bound
    ∧ unlinks_own_frames evs
    ∧ (well_separated thr (saved_hashes acc0) → well_separated thr (saved_hashes acc)).

(** A video of 100 s with two cues, at 12-14 s and at 30-32 s; the
    transcoder delivers a dark frame before 20 s and a bright one after. *)
Definition fp_dark : pystr := lit "0000000000000000".
Definition fp_bright : pystr := lit "ffffffffffffffff".

Definition seek_two_scenes : gmap pystr File -> pystr -> float -> pystr -> RunResult :=
  fun _ _ t _ =>
    mkRun false (Some (mkFile 100 (Some (if flt t (of_int 20) then fp_dark else fp_bright)))).

Definition env_two_scenes : Env :=
  mkEnv seek_two_scenes run_raises (fun _ => of_int 100)
        (fun _ => mkSubFile (lit ".srt")
                    [(of_int 12, of_int 14, lit "a"); (of_int 30, of_int 32, lit "b")]
                    false)
        (fun p => mkVideo p (lit "uploader") (lit "clip"))
        (fun _ => None) (fun _ => None) (mret tt) (lit "frames_output").

Definition demo_video : Video := mkVideo (lit "v.mp4") (lit "uploader") (lit "clip").

Definition demo_world : World :=
  fst (run (process_one_video env_two_scenes demo_video (lit "v.srt") (lit "out") 0 5)
           empty_world).

Definition demo_acc : Acc := mkAcc {[fp_dark; fp_bright]} 2 4.

(** A manifest record naming a video and its subtitle file, and a world in
    which both exist. *)
Definition demo_fields : list (pystr * JValue) :=
  [(lit "video_path", JStr (lit "v.mp4")); (lit "subtitle_path", JStr (lit "v.srt"))].

Definition world_with_video : World :=
  mkWorld {[ lit "v.mp4" := mkFile 1000 None; lit "v.srt" := mkFile 10 None ]} ∅ None [].

(** The same world after an earlier run has left a frames directory. *)
Definition world_with_old_frames : World :=
  mkWorld {[ lit "v.mp4" := mkFile 1000 None; lit "v.srt" := mkFile 10 None ]}
          {[ lit "frames_output/uploader/clip" ]} None [].

(** Collaborators for which every subtitle file has the suffix [.ass]. *)
Definition env_ass : Env :=
  mkEnv run_raises run_raises (fun _ => f0) (fun _ => mkSubFile (lit ".ass") [] false)
        (fun p => mkVideo p (lit "uploader") (lit "clip"))
        (fun _ => None) (fun _ => None) (mret tt) (lit "frames_output").

(** The world after the frames of the demonstration video have been
    extracted under [frames_output]. *)
Definition demo_world_archived : World :=
  fst (run (process_one_video env_two_scenes (video_of_path env_two_scenes (lit "v.mp4"))
              (lit "v.srt") (lit "frames_output") 0 5) world_with_video).


(** ** Plain path segments *)

(** A segment that adds exactly one level below a directory: it holds none
    of the nine characters (so no separator) and is neither the current nor
    the parent directory. *)
Definition plain_segment (s : pystr) : Prop :=
  Forall (λ c, c ∉ described_illegal) s ∧ s ≠ lit "." ∧ s ≠ lit "..".

(** The digits of [hexdigest]: 0-9 and a-f. *)
Definition is_hex_lower (c : char) : bool :=
  ((48 <=? c) && (c <=? 57) || (97 <=? c) && (c <=? 102))%N.

(** The first three statements of [_safe_for_filename]: the name before it
    is cut to [max_len]. *)
Definition cleaned_name (name : pystr) : pystr :=
  rstrip_by is_space_or_period (strip (sub_ws_runs false (sub_illegal name))).

(** White space in normal form: single spaces only; [prev_ws] tells that the
    previous character was a space. *)
Fixpoint ws_normal (prev_ws : bool) (s : pystr) : bool :=
  match s with
  | [] => true
  | c :: r =>
      if is_space c then (c =? space)%N && negb prev_ws && ws_normal true r
      else ws_normal false r
  end.


(** ** [video_cut.py]: the manifest and the task list of [main] *)

(** The loop of [load_manifest] over the lines of the manifest; [records]
    is the list built so far. *)
Fixpoint load_lines (env : Env) (lines : list pystr) (records : list JValue)
    : list JValue :=
  match lines with
  | [] => records
  | line :: rest =>
      let line := strip line in
      if negb (truthy line) then load_lines env rest records
      else
        match json_loads env line with
        | Some rec => load_lines env rest (records ++ [rec])
        | None => load_lines env rest records
        end
  end.

(** [load_manifest]: whether the warning about a missing manifest is
    printed, and the records. *)
Definition load_manifest (env : Env) (manifest : option (list pystr))
    : bool * list JValue :=
  match manifest with
  | None => (true, [])
  | Some lines => (false, load_lines env lines [])
  end.

(** [s.split(d)] for a separator of one character. *)
Fixpoint split_on (d : char) (s : pystr) : list pystr :=
  match s with
  | [] => [[]]
  | c :: r =>
      if (c =? d)%N then [] :: split_on d r
      else match split_on d r with
           | [] => [[c]]
           | p :: ps => (c :: p) :: ps
           end
  end.

(** [PurePosixPath(p).name]: the last component, empty components and
    the current directory [.] being dropped when the path is parsed. *)
Definition path_parts (p : pystr) : list pystr :=
  List.filter (fun seg => negb (bool_decide (seg = []) || bool_decide (seg = lit ".")))
              (split_on sep p).

Definition path_name (p : pystr) : pystr := from_option id [] (last (path_parts p)).

Fixpoint is_prefix (a b : pystr) : bool :=
  match a, b with
  | [], _ => true
  | x :: a', y :: b' => (x =? y)%N && is_prefix a' b'
  | _ :: _, [] => false
  end.

(** [a in b] on strings. *)
Fixpoint is_infix (a b : pystr) : bool :=
  is_prefix a b || match b with [] => false | _ :: b' => is_infix a b' end.

(** Lines 307-316 of [main]: the loop that builds the task list; [tasks] is
    the list built so far. *)
Fixpoint build_tasks (w : World) (only_video : pystr) (records : list JValue)
    (tasks : list (pystr * pystr)) : Exn + list (pystr * pystr) :=
  match records with
  | [] => inr tasks
  | rec :: rest =>
      match rec_get rec (lit "video_path") JNull with
      | inl e => inl e
      | inr v =>
          match rec_get rec (lit "subtitle_path") JNull with
          | inl e => inl e
          | inr s =>
              if negb (truthy_json v) || negb (truthy_json s)
              then build_tasks w only_video rest tasks
              else
                match as_path v with
                | inl e => inl e
                | inr vpath =>
                    match as_path s with
                    | inl e => inl e
                    | inr spath =>
                        if truthy only_video && negb (is_infix only_video (path_name vpath))
                        then build_tasks w only_video rest tasks
                        else if negb (path_exists w vpath) || negb (path_exists w spath)
                        then build_tasks w only_video rest tasks
                        else build_tasks w only_video rest (tasks ++ [(vpath, spath)])
                    end
                end
          end
      end
  end.

(** [_default_workers], with [cpu] the value of [multiprocessing.cpu_count()]. *)
Definition _default_workers (cpu : Z) : Z := Z.max 2 (Z.min 4 cpu).

(** The size of the pool of [main]: [max(1, args.workers)]. *)
Definition pool_size (workers : Z) : Z := Z.max 1 workers.

(** The record of a task, in the words of the help text of [main]: an object
    with two non-empty string paths that exist, the video name containing the
    [--only-video] fragment when one is given. *)
Definition task_of (w : World) (only_video : pystr) (rec : JValue)
    : option (pystr * pystr) :=
  match rec with
  | JDict kv =>
      match assoc_get (lit "video_path") kv, assoc_get (lit "subtitle_path") kv with
      | Some (JStr v), Some (JStr s) =>
          if truthy v && truthy s
             && (negb (truthy only_video) || is_infix only_video (path_name v))
             && path_exists w v && path_exists w s
          then Some (v, s) else None
      | _, _ => None
      end
  | _ => None
  end.

(** A record that the loop of [main] can handle: an object whose two paths,
    when present and truthy, are strings. *)
Definition task_record_ok (rec : JValue) : bool :=
  match rec with
  | JDict kv =>
      let v := from_option id JNull (assoc_get (lit "video_path") kv) in
      let s := from_option id JNull (assoc_get (lit "subtitle_path") kv) in
      negb (truthy_json v) || negb (truthy_json s)
      || match v, s with JStr _, JStr _ => true | _, _ => false end
  | _ => false
  end.

(** ** [video_cut.py]: the duration of a video *)

(** [float(v)] on a JSON value; [float_of_str] is [float] on a [str],
    [None] when it raises.  An integer too large for a double raises. *)
Definition py_float (float_of_str : pystr -> option float) (v : JValue) : Exn + float :=
  match v with
  | JFloat x => inr x
  | JInt n => if is_finite (of_int n) then inr (of_int n) else inl OverflowError
  | JBool b => inr (if b then of_int 1 else f0)
  | JStr s =>
      match float_of_str s with
      | Some x => inr x
      | None => inl ValueError
      end
  | _ => inl TypeError
  end.

(** The values that a [for] loop over a JSON value visits: the items of a
    list, the keys of an object, the characters of a string; other values
    are not iterable. *)
Definition py_iter (v : JValue) : Exn + list JValue :=
  match v with
  | JList l => inr l
  | JDict kv => inr (map (fun p => JStr (fst p)) kv)
  | JStr s => inr (map (fun c => JStr [c]) s)
  | _ => inl TypeError
  end.

(** [v == s] for a string [s]. *)
Definition py_eq_str (v : JValue) (s : pystr) : bool :=
  match v with JStr s' => bool_decide (s' = s) | _ => false end.

(** Lines 123-125 and 128: the loop over the streams, and the value returned
    when it ends. *)
Fixpoint scan_streams (float_of_str : pystr -> option float) (streams : list JValue)
    : Exn + float :=
  match streams with
  | [] => inr f0
  | st :: rest =>
      match rec_get st (lit "codec_type") JNull with
      | inl e => inl e
      | inr ct =>
          if py_eq_str ct (lit "video") then
            match rec_get st (lit "duration") JNull with
            | inl e => inl e
            | inr d =>
                if truthy_json d then py_float float_of_str d
                else scan_streams float_of_str rest
            end
          else scan_streams float_of_str rest
      end
  end.

(** The body of the [try] block; [probe] is the result of [ffmpeg.probe]. *)
Definition duration_of_probe (float_of_str : pystr -> option float) (probe : JValue)
    : Exn + float :=
  match rec_get probe (lit "format") (JDict []) with
  | inl e => inl e
  | inr fmt =>
      match rec_get fmt (lit "duration") JNull with
      | inl e => inl e
      | inr dur =>
          if truthy_json dur then py_float float_of_str dur
          else
            match rec_get probe (lit "streams") (JList []) with
            | inl e => inl e
            | inr streams =>
                match py_iter streams with
                | inl e => inl e
                | inr l => scan_streams float_of_str l
                end
            end
      end
  end.

(** [get_video_duration]; [probe] is [None] when [ffmpeg.probe] raises. *)
Definition get_video_duration (float_of_str : pystr -> option float)
    (probe : option JValue) : float :=
  match probe with
  | None => f0
  | Some p =>
      match duration_of_probe float_of_str p with
      | inr x => x
      | inl _ => f0
      end
  end.

(** A stream that decides the duration: a video stream with a truthy
    [duration]. *)
Definition is_timed_video (st : JValue) : bool :=
  match st with
  | JDict kv =>
      py_eq_str (from_option id JNull (assoc_get (lit "codec_type") kv)) (lit "video")
      && truthy_json (from_option id JNull (assoc_get (lit "duration") kv))
  | _ => false
  end.

Definition stream_duration (st : JValue) : JValue :=
  match st with
  | JDict kv => from_option id JNull (assoc_get (lit "duration") kv)
  | _ => JNull
  end.

(** [float(v)], or 0.0 when it raises. *)
Definition float_or_zero (float_of_str : pystr -> option float) (v : JValue) : float :=
  match py_float float_of_str v with
  | inr x => x
  | inl _ => f0
  end.

(** A reader of decimal strings that knows two of them. *)
Definition sample_float_of_str (s : pystr) : option float :=
  if bool_decide (s = lit "12.5") then Some (dec 25 2)
  else if bool_decide (s = lit "100") then Some (of_int 100)
  else None.

(** A probe whose format has an unreadable duration although its video
    stream has a good one. *)
Definition probe_bad_format : JValue :=
  JDict [(lit "format", JDict [(lit "duration", JStr (lit "N/A"))]);
         (lit "streams",
          JList [JDict [(lit "codec_type", JStr (lit "audio"));
                        (lit "duration", JStr (lit "100"))];
                 JDict [(lit "codec_type", JStr (lit "video"));
                        (lit "duration", JStr (lit "12.5"))]])].

(** The same probe without a duration in its format. *)
Definition probe_streams_only : JValue :=
  JDict [(lit "format", JDict []);
         (lit "streams",
          JList [JDict [(lit "codec_type", JStr (lit "audio"));
                        (lit "duration", JStr (lit "100"))];
                 JDict [(lit "codec_type", JStr (lit "video"));
                        (lit "duration", JStr (lit "12.5"))]])].


(** * Properties *)

(** ** Running monadic code *)

Lemma run_bind {A B} (c : M A) (f : A -> M B) (w : World) :
  run (c ≫= f) w =
  match run c w with
  | (w', inr x) => run (f x) w'
  | (w', inl e) => (w', inl e)
  end.
Proof. reflexivity. Qed.

Lemma run_ret {A} (x : A) (w : World) : run (mret x) w = (w, inr x).
Proof. reflexivity. Qed.

Lemma run_foldM_cons {A B} (f : B -> A -> M B) (x : A) (r : list A) (b : B)
    (w : World) :
  run (foldM f (x :: r) b) w =
  match run (f b x) w with
  | (w', inr b') => run (foldM f r b') w'
  | (w', inl e) => (w', inl e)
  end.
Proof. reflexivity. Qed.

(** * Facts about binary64 arithmetic *)

(** ** Binary digits and shifts *)

Lemma digits2_pos_bounds (m : positive) :
  2 ^ (Zpos (digits2_pos m) - 1) ≤ Zpos m < 2 ^ Zpos (digits2_pos m).
Proof.
  induction m as [m IH|m IH|]; simpl digits2_pos; [| |simpl; lia].
  - rewrite Pos2Z.inj_succ.
    replace (Z.succ (Zpos (digits2_pos m)) - 1) with (Z.succ (Zpos (digits2_pos m) - 1)) by lia.
    rewrite !Z.pow_succ_r by lia. lia.
  - rewrite Pos2Z.inj_succ.
    replace (Z.succ (Zpos (digits2_pos m)) - 1) with (Z.succ (Zpos (digits2_pos m) - 1)) by lia.
    rewrite !Z.pow_succ_r by lia. lia.
Qed.

Lemma digits_bounds (M : Z) :
  0 < M → 1 ≤ Zdigits2 M ∧ 2 ^ (Zdigits2 M - 1) ≤ M < 2 ^ Zdigits2 M.
Proof.
  destruct M as [|m|m]; try lia. intros _. simpl.
  split; [lia|apply digits2_pos_bounds].
Qed.

Lemma digits_unique (M d : Z) :
  2 ^ (d - 1) ≤ M < 2 ^ d → 1 ≤ d → Zdigits2 M = d.
Proof.
  intros [Hlo Hhi] Hd.
  assert (HM : 0 < M) by (pose proof (Z.pow_pos_nonneg 2 (d - 1)); lia).
  destruct (digits_bounds M HM) as (H1 & Hlo' & Hhi').
  destruct (Z.lt_trichotomy (Zdigits2 M) d) as [Hlt|[Heq|Hgt]]; [|done|].
  - assert (2 ^ Zdigits2 M ≤ 2 ^ (d - 1)) by (apply Z.pow_le_mono_r; lia). lia.
  - assert (2 ^ d ≤ 2 ^ (Zdigits2 M - 1)) by (apply Z.pow_le_mono_r; lia). lia.
Qed.

Lemma digits_le (M N : Z) : 0 < M → M ≤ N → Zdigits2 M ≤ Zdigits2 N.
Proof.
  intros HM HN.
  destruct (digits_bounds M HM) as (H1 & Hlo & Hhi).
  destruct (digits_bounds N ltac:(lia)) as (H1' & Hlo' & Hhi').
  destruct (Z.le_gt_cases (Zdigits2 M) (Zdigits2 N)) as [|Hgt]; [done|].
  assert (2 ^ Zdigits2 N ≤ 2 ^ (Zdigits2 M - 1)) by (apply Z.pow_le_mono_r; lia). lia.
Qed.

Lemma digits_mul_pow2 (M k : Z) :
  0 < M → 0 ≤ k → Zdigits2 (M * 2 ^ k) = Zdigits2 M + k.
Proof.
  intros HM Hk. destruct (digits_bounds M HM) as (H1 & Hlo & Hhi).
  apply digits_unique; [|lia].
  replace (Zdigits2 M + k - 1) with ((Zdigits2 M - 1) + k) by lia.
  rewrite !Z.pow_add_r by lia.
  pose proof (Z.pow_pos_nonneg 2 k). nia.
Qed.

Lemma digits_div_pow2 (M k : Z) :
  0 < M → 0 ≤ k → k < Zdigits2 M → Zdigits2 (M / 2 ^ k) = Zdigits2 M - k.
Proof.
  intros HM Hk Hlt. destruct (digits_bounds M HM) as (H1 & Hlo & Hhi).
  pose proof (Z.pow_pos_nonneg 2 k ltac:(lia) Hk) as Hp.
  apply digits_unique; [|lia]. split.
  - apply Z.div_le_lower_bound; [lia|].
    rewrite <- Z.pow_add_r by lia. replace (k + (Zdigits2 M - k - 1)) with (Zdigits2 M - 1) by lia.
    done.
  - apply Z.div_lt_upper_bound; [lia|].
    rewrite <- Z.pow_add_r by lia. replace (k + (Zdigits2 M - k)) with (Zdigits2 M) by lia.
    done.
Qed.

(** ** Right shifts with round and sticky bits *)

Lemma shr_1_m (mrs : shr_record) :
  0 ≤ shr_m mrs → shr_m (shr_1 mrs) = shr_m mrs / 2.
Proof.
  destruct mrs as [m r s]. simpl. intros Hm.
  destruct m as [|[p|p|]|p]; cbn [shr_1 shr_m]; try lia.
  - reflexivity.
  - apply Z.div_unique with 1; lia.
  - apply Z.div_unique with 0; lia.
  - reflexivity.
Qed.

Lemma iter_pos_shr_1_m (n : positive) (mrs : shr_record) :
  0 ≤ shr_m mrs → shr_m (SpecFloat.iter_pos shr_1 n mrs) = shr_m mrs / 2 ^ Zpos n.
Proof.
  revert mrs. induction n as [n IH|n IH|]; intros mrs Hm; simpl SpecFloat.iter_pos.
  - assert (H1 : 0 ≤ shr_m (shr_1 mrs)) by (rewrite shr_1_m by done; apply Z.div_pos; lia).
    assert (H2 : 0 ≤ shr_m (SpecFloat.iter_pos shr_1 n (shr_1 mrs)))
      by (rewrite IH by done; apply Z.div_pos; [done|apply Z.pow_pos_nonneg; lia]).
    rewrite IH, IH, shr_1_m by done.
    rewrite !Z.div_div by (try apply Z.pow_pos_nonneg; lia).
    f_equal. change 2 with (2 ^ 1) at 1. rewrite <- !Z.pow_add_r by lia.
    f_equal. lia.
  - assert (H2 : 0 ≤ shr_m (SpecFloat.iter_pos shr_1 n mrs))
      by (rewrite IH by done; apply Z.div_pos; [done|apply Z.pow_pos_nonneg; lia]).
    rewrite IH, IH by done.
    rewrite !Z.div_div by (try apply Z.pow_pos_nonneg; lia).
    f_equal. rewrite <- !Z.pow_add_r by lia. f_equal. lia.
  - rewrite shr_1_m by done. reflexivity.
Qed.

Lemma fexp_eq (e : Z) : fexp prec emax e = Z.max (e - 53) (-1074).
Proof. reflexivity. Qed.

Lemma shr_spec (mrs : shr_record) (e n : Z) :
  0 ≤ shr_m mrs →
  shr_m (fst (shr mrs e n)) = (if 0 <? n then shr_m mrs / 2 ^ n else shr_m mrs)
  ∧ snd (shr mrs e n) = (if 0 <? n then e + n else e).
Proof.
  intros Hm. destruct n as [|p|p]; simpl; try done.
  split; [|done]. by apply iter_pos_shr_1_m.
Qed.

Lemma shr_m_of_loc (m : Z) (l : location) : shr_m (shr_record_of_loc m l) = m.
Proof. by destruct l as [|[| |]]. Qed.

Lemma round_nearest_even_bounds (m : Z) (l : location) :
  m ≤ round_nearest_even m l ≤ m + 1.
Proof. destruct l as [|[| |]]; simpl; try lia. destruct (Z.even m); lia. Qed.

(** The shape of a rounded result: the exponent is the canonical one of the
    input or the next, the mantissa is the shifted input or its successor. *)
Lemma binary_round_aux_shape (sx : bool) (M ex : Z) (lx : location) :
  0 < M →
  let E := fexp prec emax (Zdigits2 M + ex) in
  let m1 := if 0 <? E - ex then M / 2 ^ (E - ex) else M in
  let e1 := Z.max ex E in
  0 ≤ m1 < 2 ^ 53
  ∧ ∃ mx', m1 ≤ mx' ≤ m1 + 1
    ∧ ((binary_round_aux prec emax sx M ex lx = S754_zero sx ∧ mx' = 0)
       ∨ (binary_round_aux prec emax sx M ex lx = S754_infinity sx ∧ 971 ≤ e1)
       ∨ ∃ m'' e'',
           binary_round_aux prec emax sx M ex lx = S754_finite sx m'' e''
           ∧ e'' ≤ 971
           ∧ ((e'' = e1 ∧ Zpos m'' = mx')
              ∨ (e'' = e1 + 1 ∧ Zpos m'' = mx' / 2 ∧ mx' = 2 ^ 53))).
Proof.
  intros HM E m1 e1.
  destruct (digits_bounds M HM) as (Hd1 & Hlo & Hhi).
  assert (HE : E = Z.max (Zdigits2 M + ex - 53) (-1074)) by reflexivity.
  (* the first shift *)
  assert (Hm1 : 0 ≤ m1 < 2 ^ 53).
  { subst m1. destruct (0 <? E - ex) eqn:Hn.
    - apply Z.ltb_lt in Hn.
      pose proof (Z.pow_pos_nonneg 2 (E - ex) ltac:(lia) ltac:(lia)) as Hp.
      split; [apply Z.div_pos; lia|].
      apply Z.div_lt_upper_bound; [lia|]. rewrite <- Z.pow_add_r by lia.
      eapply Z.lt_le_trans; [exact Hhi|]. apply Z.pow_le_mono_r; lia.
    - apply Z.ltb_ge in Hn. split; [lia|].
      eapply Z.lt_le_trans; [exact Hhi|]. apply Z.pow_le_mono_r; lia. }
  split; [exact Hm1|].
  unfold binary_round_aux.
  destruct (shr_fexp prec emax M ex lx) as [mrs' e'] eqn:Hshr1.
  assert (H1 : shr_m mrs' = m1 ∧ e' = e1).
  { unfold shr_fexp in Hshr1. fold E in Hshr1.
    pose proof (shr_spec (shr_record_of_loc M lx) ex (E - ex)) as Hs.
    rewrite shr_m_of_loc in Hs. destruct (Hs ltac:(lia)) as [Hs1 Hs2].
    rewrite Hshr1 in Hs1, Hs2. simpl in Hs1, Hs2. subst m1 e1.
    split; [exact Hs1|]. rewrite Hs2. destruct (0 <? E - ex) eqn:Hn.
    - apply Z.ltb_lt in Hn. lia.
    - apply Z.ltb_ge in Hn. lia. }
  destruct H1 as [Hmrs' ->].
  pose proof (round_nearest_even_bounds (shr_m mrs') (loc_of_shr_record mrs')) as Hr.
  remember (round_nearest_even (shr_m mrs') (loc_of_shr_record mrs')) as mx' eqn:Hmx'.
  rewrite Hmrs' in Hr. clear Hmx'.
  exists mx'. split; [exact Hr|].
  assert (He1 : -1074 ≤ e1) by (subst e1; lia).
  destruct (shr_fexp prec emax mx' e1 loc_Exact) as [mrs'' e''] eqn:Hshr2.
  unfold shr_fexp in Hshr2.
  remember (fexp prec emax (Zdigits2 mx' + e1)) as E2 eqn:HE2.
  rewrite fexp_eq in HE2.
  pose proof (shr_spec (shr_record_of_loc mx' loc_Exact) e1 (E2 - e1)) as Hs.
  rewrite shr_m_of_loc in Hs. destruct (Hs ltac:(lia)) as [Hs1 Hs2].
  rewrite Hshr2 in Hs1, Hs2. simpl in Hs1, Hs2.
  destruct (Z.eq_dec mx' 0) as [Hz|Hnz].
  { left. split; [|exact Hz]. rewrite Hs1, Hz.
    destruct (0 <? E2 - e1); reflexivity. }
  assert (Hmx'pos : 0 < mx') by lia.
  assert (Hmx'dig : Zdigits2 mx' ≤ 54 ∧ (Zdigits2 mx' = 54 → mx' = 2 ^ 53)).
  { destruct (digits_bounds mx' Hmx'pos) as (_ & Hlo' & _).
    split.
    - destruct (Z.le_gt_cases (Zdigits2 mx') 54) as [|Hgt]; [done|].
      assert (2 ^ 54 ≤ 2 ^ (Zdigits2 mx' - 1)) by (apply Z.pow_le_mono_r; lia). lia.
    - intros H54. rewrite H54 in Hlo'. change (54 - 1) with 53 in Hlo'. lia. }
  destruct Hmx'dig as [Hmx'dig Hmx'54].
  right.
  destruct (0 <? E2 - e1) eqn:Hn2.
  - apply Z.ltb_lt in Hn2.
    assert (Hd54 : Zdigits2 mx' = 54) by lia.
    assert (Hn21 : E2 - e1 = 1) by lia.
    specialize (Hmx'54 Hd54). rewrite Hn21 in Hs1. change (2 ^ 1) with 2 in Hs1.
    assert (Hhalf : mx' / 2 = Zpos 4503599627370496) by (rewrite Hmx'54; reflexivity).
    rewrite Hs1, Hhalf.
    destruct (e'' <=? emax - prec) eqn:Hle.
    + right. eexists _, _. split; [reflexivity|].
      apply Z.leb_le in Hle. split; [exact Hle|]. right.
      split; [lia|]. split; [reflexivity|done].
    + left. split; [reflexivity|]. apply Z.leb_gt in Hle.
      change (emax - prec) with 971 in Hle. lia.
  - apply Z.ltb_ge in Hn2. rewrite Hs1.
    destruct mx' as [|p|p] eqn:Hp; [lia| |lia].
    destruct (e'' <=? emax - prec) eqn:Hle.
    + right. eexists _, _. split; [reflexivity|].
      apply Z.leb_le in Hle. split; [exact Hle|]. left. split; [lia|reflexivity].
    + left. split; [reflexivity|]. apply Z.leb_gt in Hle.
      change (emax - prec) with 971 in Hle. lia.
Qed.

(** With an exponent that is not below the least one, nothing is lost to
    underflow: the shifted mantissa is positive. *)
Lemma binary_round_aux_positive (M ex : Z) :
  0 < M → -1074 ≤ ex →
  0 < (if 0 <? fexp prec emax (Zdigits2 M + ex) - ex
       then M / 2 ^ (fexp prec emax (Zdigits2 M + ex) - ex) else M).
Proof.
  intros HM Hex. destruct (digits_bounds M HM) as (Hd1 & Hlo & Hhi).
  rewrite fexp_eq. destruct (0 <? _) eqn:Hn; [|done].
  apply Z.ltb_lt in Hn.
  apply Z.div_str_pos. split; [apply Z.pow_pos_nonneg; lia|].
  eapply Z.le_trans; [|exact Hlo]. apply Z.pow_le_mono_r; lia.
Qed.

Lemma pos_iter_xO (d m : positive) : Zpos (Pos.iter xO m d) = Zpos m * 2 ^ Zpos d.
Proof.
  induction d as [|d IH] using Pos.peano_ind.
  - simpl. lia.
  - rewrite Pos.iter_succ, Pos2Z.inj_xO, IH, Pos2Z.inj_succ, Z.pow_succ_r by lia. lia.
Qed.

Lemma shl_align_spec (mx : positive) (ex ex' : Z) :
  shl_align mx ex ex' =
  if ex' <? ex then (Z.to_pos (Zpos mx * 2 ^ (ex - ex')), ex') else (mx, ex).
Proof.
  unfold shl_align. destruct (ex' <? ex) eqn:E.
  - apply Z.ltb_lt in E. destruct (ex' - ex) as [|p|p] eqn:Hd; try lia.
    f_equal. replace (ex - ex') with (Zpos p) by lia.
    by rewrite <- pos_iter_xO.
  - apply Z.ltb_ge in E. destruct (ex' - ex) as [|p|p] eqn:Hd; try lia; reflexivity.
Qed.

Lemma shl_align_fst (mx : positive) (ex ex' : Z) :
  ex' ≤ ex → Zpos (fst (shl_align mx ex ex')) = Zpos mx * 2 ^ (ex - ex').
Proof.
  intros H. rewrite shl_align_spec. destruct (ex' <? ex) eqn:E; simpl.
  - apply Z.ltb_lt in E. rewrite Z2Pos.id; [done|].
    pose proof (Z.pow_pos_nonneg 2 (ex - ex')). lia.
  - apply Z.ltb_ge in E. replace (ex - ex') with 0 by lia. lia.
Qed.

(** A canonical mantissa and exponent. *)
Lemma bounded_inv (m : positive) (e : Z) :
  bounded prec emax m e = true →
  e = Z.max (Zpos (digits2_pos m) + e - 53) (-1074) ∧ e ≤ 971.
Proof.
  unfold bounded, canonical_mantissa. intros [H1 H2]%andb_true_iff.
  apply Z.eqb_eq in H1. apply Z.leb_le in H2. rewrite fexp_eq in H1.
  split; [lia|exact H2].
Qed.

(** Rounding a positive integer that is at least the successor of a
    canonical float gives a greater float. *)
Lemma binary_round_above (M ez : Z) (m : positive) (e : Z) :
  bounded prec emax m e = true →
  -1074 ≤ ez → ez ≤ e →
  (Zpos m + 1) * 2 ^ (e - ez) ≤ M →
  SFltb (S754_finite false m e) (binary_normalize prec emax M ez false) = true.
Proof.
  intros Hb Hez Hle HM.
  destruct (bounded_inv m e Hb) as [Hcan He].
  pose proof (Z.pow_pos_nonneg 2 (e - ez) ltac:(lia) ltac:(lia)) as Hp.
  assert (HMpos : 0 < M) by nia.
  destruct M as [|Mp|Mp]; try lia.
  unfold binary_normalize, binary_round.
  (* the magnitude of M *)
  assert (Hdig : Zpos (digits2_pos m) + (e - ez) ≤ Zdigits2 (Zpos Mp)).
  { change (Zpos (digits2_pos m)) with (Zdigits2 (Zpos m)).
    rewrite <- (digits_mul_pow2 (Zpos m) (e - ez)) by lia.
    apply digits_le; [nia|nia]. }
  change (Zpos (digits2_pos Mp)) with (Zdigits2 (Zpos Mp)).
  assert (HE : e ≤ fexp prec emax (Zdigits2 (Zpos Mp) + ez)).
  { rewrite fexp_eq. lia. }
  rewrite shl_align_spec.
  replace (fexp prec emax (Zdigits2 (Zpos Mp) + ez) <? ez) with false
    by (symmetry; apply Z.ltb_ge; lia).
  destruct (binary_round_aux_shape false (Zpos Mp) ez loc_Exact HMpos)
    as (Hm1 & mx' & Hmx' & Hres).
  pose proof (binary_round_aux_positive (Zpos Mp) ez HMpos Hez) as Hm1pos.
  set (E := fexp prec emax (Zdigits2 (Zpos Mp) + ez)) in *.
  cbv zeta in Hm1, Hmx', Hres.
  destruct Hres as [[_ Hz]|[[-> _]|(m'' & e'' & -> & _ & Hcase)]];
    [lia|reflexivity|].
  assert (Hm1ge : E = e → Zpos m + 1 ≤ (if 0 <? E - ez then Zpos Mp / 2 ^ (E - ez) else Zpos Mp)).
  { intros ->. destruct (0 <? e - ez) eqn:Hn.
    - apply Z.div_le_lower_bound; lia.
    - apply Z.ltb_ge in Hn. replace (e - ez) with 0 in * by lia. lia. }
  unfold SFltb, SFcompare.
  destruct Hcase as [[-> Hm'']|(-> & _ & _)].
  - replace (Z.max ez E) with E by lia.
    destruct (Z.compare_spec e E) as [Heq|Hlt|Hgt]; [|done|lia].
    assert (Hlt : (m < m'')%positive) by (specialize (Hm1ge (eq_sym Heq)); lia).
    apply Pos.compare_lt_iff in Hlt. unfold Pos.compare in Hlt. by rewrite Hlt.
  - replace (Z.max ez E) with E by lia.
    destruct (Z.compare_spec e (E + 1)) as [Heq|Hlt|Hgt]; [lia|done|lia].
Qed.

(** Adding 0.5 to a non-negative double below [2 ^ 52] gives a greater
    double. *)

Lemma fadd_half_gt (x : float) :
  valid_binary prec emax x = true →
  fle f0 x = true → flt x two_pow_52 = true →
  fgt (fadd x f0_5) x = true.
Proof.
  intros Hv Hpos Hlt. destruct x as [s|s| |s m e].
  - by destruct s.
  - destruct s; discriminate.
  - discriminate.
  - destruct s; [discriminate|]. simpl in Hv.
    destruct (bounded_inv m e Hv) as [Hcan He].
    assert (Hneg : e ≤ -1).
    { unfold flt, two_pow_52, SFltb, SFcompare in Hlt.
      destruct (Z.compare_spec e 0) as [Heq|Hl|Hg]; [|lia|discriminate].
      subst e. exfalso.
      assert (Hd : Zpos (digits2_pos m) = 53) by lia.
      pose proof (digits2_pos_bounds m) as [Hlo _]. rewrite Hd in Hlo.
      change (2 ^ (53 - 1)) with 4503599627370496 in Hlo.
      destruct (Pos.compare_cont Eq m 4503599627370496) eqn:Hc; try discriminate.

      assert (Hc' : Zpos m < 4503599627370496) by exact Hc.
      clear -Hlo Hc'. lia. }

    unfold fgt, fadd, f0_5, SFadd, cond_Zopp.
    apply binary_round_above; [exact Hv|lia|lia|].
    rewrite !shl_align_fst by lia.
    assert (Hmono : 2 ^ (e - Z.min e (-53))
                    ≤ 4503599627370496 * 2 ^ (-53 - Z.min e (-53))).
    { change 4503599627370496 with (2 ^ 52). rewrite <- Z.pow_add_r by lia.
      apply Z.pow_le_mono_r; lia. }
    clear -Hmono. lia.
Qed.

(** ** Exact roundings *)

Lemma shr_1_even (q : Z) :
  0 ≤ q → shr_1 (Build_shr_record (q * 2) false false) = Build_shr_record q false false.
Proof.
  intros Hq. destruct q as [|p|p]; [reflexivity| |lia].
  replace (Zpos p * 2) with (Zpos p~0) by lia. reflexivity.
Qed.

Lemma iter_pos_shr_1_exact (n : positive) (q : Z) :
  0 ≤ q →
  SpecFloat.iter_pos shr_1 n (Build_shr_record (q * 2 ^ Zpos n) false false)
  = Build_shr_record q false false.
Proof.
  revert q. induction n as [n IH|n IH|]; intros q Hq; cbn [SpecFloat.iter_pos].
  - pose proof (Z.pow_pos_nonneg 2 (Zpos n) ltac:(lia) ltac:(lia)) as Hp.
    replace (q * 2 ^ Zpos n~1) with ((q * 2 ^ Zpos n * 2 ^ Zpos n) * 2).
    + rewrite shr_1_even by nia. rewrite IH by nia. by rewrite IH.
    + assert (H2 : 2 ^ Zpos n~1 = 2 ^ Zpos n * 2 ^ Zpos n * 2).
      { replace (Zpos n~1) with (Zpos n + Zpos n + 1) by lia.
        rewrite !Z.pow_add_r by lia. reflexivity. }
      rewrite H2. lia.
  - pose proof (Z.pow_pos_nonneg 2 (Zpos n) ltac:(lia) ltac:(lia)) as Hp.
    replace (q * 2 ^ Zpos n~0) with (q * 2 ^ Zpos n * 2 ^ Zpos n).
    + rewrite IH by nia. by rewrite IH.
    + assert (H2 : 2 ^ Zpos n~0 = 2 ^ Zpos n * 2 ^ Zpos n).
      { replace (Zpos n~0) with (Zpos n + Zpos n) by lia.
        rewrite !Z.pow_add_r by lia. reflexivity. }
      rewrite H2. lia.
  - change (2 ^ 1) with 2. by apply shr_1_even.
Qed.

(** A mantissa that is already canonical is returned as it is. *)
Lemma binary_round_aux_canonical (sx : bool) (M : positive) (E : Z) :
  fexp prec emax (Zdigits2 (Zpos M) + E) = E → E ≤ 971 →
  binary_round_aux prec emax sx (Zpos M) E loc_Exact = S754_finite sx M E.
Proof.
  intros Hcan HE. unfold binary_round_aux, shr_fexp.
  rewrite Hcan, Z.sub_diag. simpl shr. cbn [shr_m shr_record_of_loc loc_of_shr_record
    shr_r shr_s round_nearest_even].
  rewrite Hcan, Z.sub_diag. simpl shr. cbn [shr_m shr_record_of_loc].
  replace (E <=? emax - prec) with true; [reflexivity|].
  symmetry. apply Z.leb_le. exact HE.
Qed.

(** Rounding a number that fits at its canonical exponent, reached by a left
    shift. *)
Lemma binary_round_exact_up (sx : bool) (M : positive) (ex : Z) :
  let E := fexp prec emax (Zdigits2 (Zpos M) + ex) in
  E ≤ ex → E ≤ 971 →
  binary_round prec emax sx M ex
  = S754_finite sx (Z.to_pos (Zpos M * 2 ^ (ex - E))) E.
Proof.
  intros E HE H971. unfold binary_round.
  change (Zpos (digits2_pos M)) with (Zdigits2 (Zpos M)). fold E.
  pose proof (Z.pow_pos_nonneg 2 (ex - E) ltac:(lia) ltac:(lia)) as Hp.
  assert (Hpos : Zpos (Z.to_pos (Zpos M * 2 ^ (ex - E))) = Zpos M * 2 ^ (ex - E))
    by (apply Z2Pos.id; lia).
  assert (Hcan : fexp prec emax (Zdigits2 (Zpos (Z.to_pos (Zpos M * 2 ^ (ex - E)))) + E) = E).
  { rewrite Hpos, digits_mul_pow2 by lia.
    replace (Zdigits2 (Zpos M) + (ex - E) + E) with (Zdigits2 (Zpos M) + ex) by lia.
    reflexivity. }
  rewrite shl_align_spec. destruct (E <? ex) eqn:Hlt.
  - by apply binary_round_aux_canonical.
  - apply Z.ltb_ge in Hlt. assert (E = ex) as Heq by lia.
    assert (Hc : fexp prec emax (Zdigits2 (Zpos M) + ex) = ex) by (fold E; lia).
    rewrite (binary_round_aux_canonical sx M ex Hc) by lia.
    f_equal; [|lia]. apply Pos2Z.inj. rewrite Hpos.
    replace (ex - E) with 0 by lia. lia.
Qed.

(** Rounding a number that fits at its canonical exponent, reached by a
    right shift that drops zeros only. *)
Lemma binary_round_exact_down (sx : bool) (M q : positive) (ex : Z) :
  let E := fexp prec emax (Zdigits2 (Zpos M) + ex) in
  ex < E → E ≤ 971 → Zpos M = Zpos q * 2 ^ (E - ex) →
  binary_round prec emax sx M ex = S754_finite sx q E.
Proof.
  intros E HE H971 Hdiv. unfold binary_round.
  change (Zpos (digits2_pos M)) with (Zdigits2 (Zpos M)). fold E.
  rewrite shl_align_spec. replace (E <? ex) with false by (symmetry; apply Z.ltb_ge; lia).
  assert (Hdq : Zdigits2 (Zpos q) + E = Zdigits2 (Zpos M) + ex).
  { rewrite Hdiv, digits_mul_pow2 by lia. lia. }
  unfold binary_round_aux, shr_fexp. fold E.
  destruct (E - ex) as [|n|n] eqn:Hn; try lia.
  simpl shr. cbn [shr_record_of_loc]. rewrite Hdiv, iter_pos_shr_1_exact by lia.
  cbn [shr_m loc_of_shr_record shr_r shr_s round_nearest_even].
  replace (ex + Zpos n) with E by lia.
  rewrite Hdq. fold E. rewrite Z.sub_diag. simpl shr. cbn [shr_m shr_record_of_loc].
  replace (E <=? emax - prec) with true; [reflexivity|].
  symmetry. apply Z.leb_le. exact H971.
Qed.

(** ** Integers as doubles *)

Lemma of_int_small (n : positive) :
  Zdigits2 (Zpos n) ≤ 53 →
  of_int (Zpos n)
  = S754_finite false (Z.to_pos (Zpos n * 2 ^ (53 - Zdigits2 (Zpos n))))
                (Zdigits2 (Zpos n) - 53).
Proof.
  intros Hd. destruct (digits_bounds (Zpos n) ltac:(lia)) as (Hd1 & _).
  unfold of_int, binary_normalize.
  assert (HE : fexp prec emax (Zdigits2 (Zpos n) + 0) = Zdigits2 (Zpos n) - 53).
  { rewrite fexp_eq. lia. }
  rewrite binary_round_exact_up; rewrite HE; [|lia|lia].
  f_equal. f_equal. f_equal. f_equal. lia.
Qed.

Lemma of_int_canonical (m : positive) (e : Z) :
  bounded prec emax m e = true → 0 ≤ e →
  of_int (Zpos m * 2 ^ e) = S754_finite false m e.
Proof.
  intros Hb He. destruct (bounded_inv m e Hb) as [Hcan H971].
  pose proof (Z.pow_pos_nonneg 2 e ltac:(lia) He) as Hp.
  destruct (Zpos m * 2 ^ e) as [|M|M] eqn:HM; try lia.
  unfold of_int, binary_normalize.
  assert (HE : fexp prec emax (Zdigits2 (Zpos M) + 0) = e).
  { rewrite <- HM, digits_mul_pow2, fexp_eq by lia.
    change (Zdigits2 (Zpos m)) with (Zpos (digits2_pos m)). lia. }
  destruct (Z.eq_dec e 0) as [->|Hne].
  - rewrite binary_round_exact_up; rewrite HE; [|lia|lia].
    f_equal. apply Pos2Z.inj. rewrite Z2Pos.id by lia.
    change (2 ^ (0 - 0)) with 1. change (2 ^ 0) with 1 in HM. lia.
  - pose proof (binary_round_exact_down false M m 0) as H. cbv zeta in H.
    rewrite HE in H. apply H; [lia|lia|].
    rewrite <- HM. f_equal. f_equal. lia.
Qed.

(** ** The fractional part of a non-negative double *)

Lemma fsub_self (m : positive) (e : Z) :
  fsub (S754_finite false m e) (S754_finite false m e) = S754_zero false.
Proof.
  unfold fsub, SFsub, cond_Zopp. rewrite Z.sub_diag. reflexivity.
Qed.

(** [t - int(t)] is a zero or a positive double below one. *)
Lemma fraction_shape (t : float) (n : Z) :
  valid_binary prec emax t = true → fle f0 t = true → to_int t = Some n →
  (∃ s, fsub t (of_int n) = S754_zero s)
  ∨ ∃ mf ef, fsub t (of_int n) = S754_finite false mf ef
             ∧ ef < 0 ∧ Zpos mf < 2 ^ (- ef).
Proof.
  intros Hv Hpos Hn. destruct t as [s|s| |s m e]; try discriminate.
  - injection Hn as <-. left. destruct s; eexists; reflexivity.
  - destruct s; [discriminate|]. simpl in Hn.
    change (bounded prec emax m e = true) in Hv.
    destruct (bounded_inv m e Hv) as [Hcan H971].
    destruct e as [|p|p].
    + (* an integer, exponent 0 *)
      injection Hn as <-. left. exists false.
      pose proof (of_int_canonical m 0 Hv ltac:(lia)) as Ho.
      change (2 ^ 0) with 1 in Ho. rewrite Z.mul_1_r in Ho.
      rewrite Ho. apply fsub_self.
    + (* an integer, positive exponent *)
      injection Hn as <-. left. exists false.
      rewrite Z.shiftl_mul_pow2 by lia.
      rewrite (of_int_canonical m (Zpos p) Hv) by lia. apply fsub_self.
    + (* a fraction *)
      injection Hn as <-. rewrite Z.shiftr_div_pow2 by lia.
      pose proof (Z.pow_pos_nonneg 2 (Zpos p) ltac:(lia) ltac:(lia)) as Hp.
      destruct (Zpos m / 2 ^ Zpos p) as [|np|np] eqn:Hq.
      * (* below one *)
        right. exists m, (Zneg p). split; [reflexivity|]. split; [lia|].
        apply Z.div_small_iff in Hq as [Hq|Hq]; [|lia|lia].
        change (- Zneg p) with (Zpos p). lia.
      * (* one or more: the mantissa has 53 bits *)
        assert (Hge : 2 ^ Zpos p ≤ Zpos m).
        { destruct (Z.le_gt_cases (2 ^ Zpos p) (Zpos m)) as [|Hlt]; [done|].
          rewrite Z.div_small in Hq by lia. discriminate. }
        pose proof (digits2_pos_bounds m) as [Hlo Hhi].
        assert (Hpd : Zpos p < Zpos (digits2_pos m)).
        { destruct (Z.lt_ge_cases (Zpos p) (Zpos (digits2_pos m))) as [|Hle]; [done|].
          assert (2 ^ Zpos (digits2_pos m) ≤ 2 ^ Zpos p) by (apply Z.pow_le_mono_r; lia).
          lia. }
        assert (Hd53 : Zpos (digits2_pos m) = 53) by lia.
        assert (Hdn : Zdigits2 (Zpos np) = 53 - Zpos p).
        { rewrite <- Hq. rewrite digits_div_pow2; [|lia|lia|].
          - change (Zdigits2 (Zpos m)) with (Zpos (digits2_pos m)). lia.
          - change (Zdigits2 (Zpos m)) with (Zpos (digits2_pos m)). lia. }
        rewrite of_int_small by lia. rewrite Hdn.
        replace (53 - (53 - Zpos p)) with (Zpos p) by lia.
        replace (53 - Zpos p - 53) with (Zneg p) by lia.
        assert (Hmn : Zpos (Z.to_pos (Zpos np * 2 ^ Zpos p)) = Zpos np * 2 ^ Zpos p)
          by (apply Z2Pos.id; lia).
        unfold fsub, SFsub, cond_Zopp. rewrite Z.min_id.
        rewrite !shl_align_fst by lia. rewrite Z.sub_diag.
        change (2 ^ 0) with 1. rewrite !Z.mul_1_r, Hmn.
        assert (Hr : Zpos m - Zpos np * 2 ^ Zpos p = Zpos m mod 2 ^ Zpos p).
        { rewrite <- Hq. pose proof (Z.div_mod (Zpos m) (2 ^ Zpos p)). lia. }
        rewrite Hr.
        pose proof (Z.mod_pos_bound (Zpos m) (2 ^ Zpos p) Hp) as [Hr0 Hr1].
        destruct (Zpos m mod 2 ^ Zpos p) as [|r|r] eqn:Hrm; [|clear Hr0|lia].
        { left. exists false. reflexivity. }
        right. unfold binary_normalize.
        destruct (digits_bounds (Zpos r) ltac:(lia)) as (Hdr1 & Hdrlo & _).
        assert (Hdr : Zdigits2 (Zpos r) ≤ Zpos p).
        { destruct (Z.le_gt_cases (Zdigits2 (Zpos r)) (Zpos p)) as [|Hgt]; [done|].
          assert (2 ^ Zpos p ≤ 2 ^ (Zdigits2 (Zpos r) - 1))
            by (apply Z.pow_le_mono_r; lia). lia. }
        assert (HE : fexp prec emax (Zdigits2 (Zpos r) + Zneg p)
                     = Zdigits2 (Zpos r) + Zneg p - 53).
        { rewrite fexp_eq. lia. }
        rewrite binary_round_exact_up; rewrite HE; [|lia|lia].
        eexists _, _. split; [reflexivity|]. split; [lia|].
        pose proof (Z.pow_pos_nonneg 2 (Zneg p - (Zdigits2 (Zpos r) + Zneg p - 53))
                      ltac:(lia) ltac:(lia)) as Hp2.
        rewrite Z2Pos.id by lia.
        replace (- (Zdigits2 (Zpos r) + Zneg p - 53))
          with (Zpos p + (Zneg p - (Zdigits2 (Zpos r) + Zneg p - 53))) by lia.
        rewrite Z.pow_add_r by lia. nia.
      * pose proof (Z.div_pos (Zpos m) (2 ^ Zpos p) ltac:(lia) Hp). lia.
Qed.

(** ** Milliseconds *)

Lemma of_int_1000 : of_int 1000 = S754_finite false 8796093022208000 (-43).
Proof. vm_compute. reflexivity. Qed.

Lemma digits_lt_pow2 (M k : Z) : 0 < M → 0 ≤ k → M < 2 ^ k → Zdigits2 M ≤ k.
Proof.
  intros HM Hk Hlt. destruct (digits_bounds M HM) as (Hd1 & Hlo & _).
  destruct (Z.le_gt_cases (Zdigits2 M) k) as [|Hgt]; [done|].
  assert (2 ^ k ≤ 2 ^ (Zdigits2 M - 1)) by (apply Z.pow_le_mono_r; lia). lia.
Qed.

(** A positive double below one, times 1000.0. *)
Lemma fmul_1000_shape (mf : positive) (ef : Z) :
  ef < 0 → Zpos mf < 2 ^ (- ef) →
  (∃ s, fmul (S754_finite false mf ef) (of_int 1000) = S754_zero s)
  ∨ ∃ m e, fmul (S754_finite false mf ef) (of_int 1000) = S754_finite false m e
           ∧ e < 0 ∧ Zpos m ≤ 1000 * 2 ^ (- e).
Proof.
  intros Hef Hmf. rewrite of_int_1000. unfold fmul, SFmul. cbn [xorb].
  set (M := Zpos (mf * 8796093022208000)).
  set (ex := ef + -43).
  assert (HM : M = Zpos mf * (1000 * 2 ^ 43)) by (subst M; rewrite Pos2Z.inj_mul; reflexivity).
  pose proof (Z.pow_pos_nonneg 2 (- ef) ltac:(lia) ltac:(lia)) as Hpf.
  assert (HMpos : 0 < M) by (subst M; lia).
  assert (HMlt : M < 1000 * 2 ^ (- ex)).
  { subst ex. replace (- (ef + -43)) with (43 + - ef) by lia.
    rewrite Z.pow_add_r by lia. rewrite HM.
    pose proof (Z.pow_pos_nonneg 2 43 ltac:(lia) ltac:(lia)). nia. }
  assert (HdM : Zdigits2 M ≤ 10 - ex).
  { apply digits_lt_pow2; [done|lia|].
    eapply Z.lt_le_trans; [exact HMlt|].
    replace (10 - ex) with (10 + - ex) by lia. rewrite Z.pow_add_r by lia.
    pose proof (Z.pow_pos_nonneg 2 (- ex) ltac:(lia) ltac:(lia)).
    change (2 ^ 10) with 1024. nia. }
  destruct (binary_round_aux_shape false M ex loc_Exact HMpos)
    as (Hm1 & mx' & Hmx' & Hres).
  remember (fexp prec emax (Zdigits2 M + ex)) as E eqn:HE. rewrite fexp_eq in HE.
  cbv zeta in Hm1, Hmx', Hres.
  remember (Z.max ex E) as e1 eqn:He1.
  assert (He1le : e1 ≤ -43) by lia.
  assert (Hm1lt : (if 0 <? E - ex then M / 2 ^ (E - ex) else M) < 1000 * 2 ^ (- e1)).
  { destruct (0 <? E - ex) eqn:Hn.
    - apply Z.ltb_lt in Hn. assert (e1 = E) by lia.
      apply Z.div_lt_upper_bound; [apply Z.pow_pos_nonneg; lia|].
      replace (2 ^ (E - ex) * (1000 * 2 ^ (- e1))) with (1000 * 2 ^ (- ex)); [done|].
      replace (- ex) with ((E - ex) + - e1) by lia.
      rewrite Z.pow_add_r by lia. lia.
    - apply Z.ltb_ge in Hn. replace e1 with ex by lia. exact HMlt. }
  destruct Hres as [[-> _]|[[_ Hinf]|(m'' & e'' & -> & _ & Hcase)]].
  - left. by exists false.
  - lia.
  - right. exists m'', e''. split; [reflexivity|].
    destruct Hcase as [[-> ->]|(-> & Hhalf & H53)].
    + split; lia.
    + split; [lia|]. rewrite Hhalf.
      apply Z.div_le_upper_bound; [lia|].
      replace (- e1) with (1 + - (e1 + 1)) in Hm1lt by lia.
      rewrite Z.pow_add_r in Hm1lt by lia. change (2 ^ 1) with 2 in Hm1lt. lia.
Qed.

(** Rounding a non-negative double that is at most 1000. *)
Lemma py_round_le_1000 (m : positive) (e : Z) :
  e < 0 → Zpos m ≤ 1000 * 2 ^ (- e) →
  ∃ a, py_round (S754_finite false m e) = Some a ∧ 0 ≤ a ≤ 1000.
Proof.
  intros He Hm. destruct e as [|p|p]; try lia.
  change (- Zneg p) with (Zpos p) in Hm. unfold py_round.
  pose proof (Z.pow_pos_nonneg 2 (Zpos p) ltac:(lia) ltac:(lia)) as Hp.
  pose proof (Z.div_mod (Zpos m) (2 ^ Zpos p) ltac:(lia)) as Hdm.
  pose proof (Z.mod_pos_bound (Zpos m) (2 ^ Zpos p) Hp) as [Hr0 Hr1].
  assert (Hq0 : 0 ≤ Zpos m / 2 ^ Zpos p) by (apply Z.div_pos; lia).
  assert (Hq : Zpos m / 2 ^ Zpos p ≤ 1000).
  { apply Z.div_le_upper_bound; lia. }
  eexists. split; [reflexivity|].
  destruct (Z.compare_spec (2 * (Zpos m mod 2 ^ Zpos p)) (2 ^ Zpos p)) as [Heq|Hlt|Hgt].
  - destruct (Z.even _); nia.
  - lia.
  - nia.
Qed.

(** The milliseconds of [_sec_to_fname_ts] exist for every finite
    non-negative double, and lie between 0 and 1000. *)
Lemma ms_of_bounds (t : float) :
  valid_binary prec emax t = true → is_finite t = true → fle f0 t = true →
  ∃ n ms, to_int t = Some n
          ∧ py_round (fmul (fsub t (of_int n)) (of_int 1000)) = Some ms
          ∧ 0 ≤ ms ≤ 1000.
Proof.
  intros Hv Hfin Hpos.
  assert (Hn : ∃ n, to_int t = Some n).
  { destruct t; try discriminate; eexists; reflexivity. }
  destruct Hn as [n Hn]. exists n.
  destruct (fraction_shape t n Hv Hpos Hn) as [[s ->]|(mf & ef & -> & Hef & Hmf)].
  - exists 0. rewrite of_int_1000. split; [done|]. split; [reflexivity|lia].
  - destruct (fmul_1000_shape mf ef Hef Hmf) as [[s ->]|(m & e & -> & He & Hm)].
    + exists 0. split; [done|]. split; [reflexivity|lia].
    + destruct (py_round_le_1000 m e He Hm) as (a & Ha & Hb). by exists a.
Qed.

(** ** Test vectors *)

Example md5_empty : MD5.hexdigest [] = lit "d41d8cd98f00b204e9800998ecf8427e".
Proof. vm_compute. reflexivity. Qed.

Example md5_abc :
  MD5.hexdigest (utf8_encode (lit "abc")) = lit "900150983cd24fb0d6963f7d28e17f72".
Proof. vm_compute. reflexivity. Qed.

Example md5_two_blocks :
  MD5.hexdigest (repeat 97 64) = lit "014842d480b571495a4a0363793f7367".
Proof. vm_compute. reflexivity. Qed.

Example md5_120 :
  MD5.hexdigest (repeat 97 120) = lit "5f61c0ccad4cac44c75ff505e1f1e537".
Proof. vm_compute. reflexivity. Qed.

Example rounding_half_even :
  py_round (dec 5 10) = Some 0 ∧ py_round (dec 15 10) = Some 2
  ∧ py_round (dec 25 10) = Some 2 ∧ py_round (fsub f0 (dec 15 10)) = Some (-2)
  ∧ py_round (dec 9995 10) = Some 1000 ∧ to_int (fsub f0 (dec 17 10)) = Some (-1)
  ∧ to_int (S754_infinity false) = None ∧ py_round S754_nan = None.
Proof. repeat split; vm_compute; reflexivity. Qed.

Example builtin_max_min_with_nan :
  py_max f0 S754_nan = f0 ∧ py_min S754_nan f10 = S754_nan
  ∧ py_min f10 S754_nan = f10.
Proof. repeat split; reflexivity. Qed.

Example format_examples :
  fmt_0d 2 0 = lit "00" ∧ fmt_0d 3 7 = lit "007" ∧ fmt_0d 2 (-7) = lit "-7"
  ∧ fmt_0d 3 (-7) = lit "-07" ∧ fmt_0d 3 1000 = lit "1000".
Proof. repeat split; vm_compute; reflexivity. Qed.

Example fname_ts_83_456 :
  _sec_to_fname_ts (dec 83456 1000) = Some (lit "00-01-23-456").
Proof. vm_compute. reflexivity. Qed.

Example safe_example :
  _safe_for_filename (lit "  a<b>:  c  d. . ") 40 = lit "a_b__ c d".
Proof. vm_compute. reflexivity. Qed.

(** ** Fingerprints and similarity *)

Ltac munfold :=
  unfold run, mbind, M_bind, mret, M_ret, raise, tprint, emit, get_world,
    set_files, lift in *.

Lemma run_is_similar_empty (image_path : pystr) (thr : Z) (w : World) :
  run (is_similar_to_previous image_path ∅ thr) w = (w, inr false).
Proof. reflexivity. Qed.

Lemma run_calculate_image_hash (image_path : pystr) (w : World) :
  run (calculate_image_hash image_path) w
  = (after_hash w image_path, inr (phash_at w image_path)).
Proof.
  unfold calculate_image_hash, after_hash, phash_at.
  destruct (files w !! image_path ≫= f_phash) eqn:E; munfold; simpl;
    rewrite E; reflexivity.
Qed.

Lemma existsb_elements_iff (prev : gset pystr) (f : pystr -> bool) :
  existsb f (elements prev) = true ↔ ∃ p, p ∈ prev ∧ f p = true.
Proof.
  rewrite existsb_exists. split.
  - intros (p & Hin & Hf). exists p. split; [|done].
    apply elem_of_elements. by apply list_elem_of_In.
  - intros (p & Hin & Hf). exists p. split; [|done].
    apply list_elem_of_In. by apply elem_of_elements.
Qed.

(** The value of [is_similar_to_previous] when the fingerprint [h] of the
    candidate is available and not the empty string. *)
Lemma run_is_similar_hashed (image_path : pystr) (prev : gset pystr) (thr : Z)
    (w : World) (h : pystr) :
  phash_at w image_path = Some h → truthy h = true →
  run (is_similar_to_previous image_path prev thr) w
  = (if bool_decide (prev = ∅) then w else after_hash w image_path,
     inr (existsb (fun p => hamming_distance h p <=? thr) (elements prev))).
Proof.
  intros Hh Ht. unfold is_similar_to_previous.
  case_bool_decide as Hp.
  - subst prev. rewrite elements_empty. reflexivity.
  - rewrite run_bind, run_calculate_image_hash, Hh.
    destruct h as [|c cs]; [discriminate|]. reflexivity.
Qed.

Lemma length_filter_map {A B} (f : B -> bool) (g : A -> B) (l : list A) :
  length (List.filter f (map g l)) = length (List.filter (fun x => f (g x)) l).
Proof.
  induction l as [|x l IH]; simpl; [done|]. destruct (f (g x)); simpl; by rewrite IH.
Qed.

(** The sum over the zipped strings counts the positions that differ. *)
Lemma hamming_char_distance (a b : pystr) : hamming_distance a b = char_distance a b.
Proof.
  unfold char_distance, differing_positions.
  revert b. induction a as [|c a IH]; intros [|d b]; try reflexivity.
  cbn [hamming_distance length Nat.min]. rewrite IH.
  cbn [seq]. rewrite <- seq_shift. cbn [List.filter lookup list_lookup].
  assert (Hhd : bool_decide (Some c = Some d) = bool_decide (c = d)).
  { apply bool_decide_ext. split; [by intros [= ->]|by intros ->]. }
  rewrite Hhd.
  destruct (bool_decide (c = d)); cbn [negb length]; rewrite length_filter_map.
  - match goal with |- _ + Z.of_nat ?x = Z.of_nat ?y => change y with x end. lia.
  - match goal with |- _ + Z.of_nat ?x = Z.of_nat (S ?y) => change y with x end. lia.
Qed.

(** C1: when the candidate's fingerprint is computed, [is_similar_to_previous]
    returns true exactly when some prior fingerprint is within the threshold
    in character-wise Hamming distance, the number of positions at which the
    two strings differ; against a single prior fingerprint, distance
    [threshold] is similar and distance [threshold + 1] is not. *)
Theorem similar_iff_within_threshold (image_path : pystr) (prev : gset pystr)
    (thr : Z) (w : World) (h : pystr) :
  phash_at w image_path = Some h → truthy h = true →
  ∃ w' b,
    run (is_similar_to_previous image_path prev thr) w = (w', inr b)
    ∧ (b = true ↔ ∃ p, p ∈ prev ∧ char_distance h p ≤ thr)
    ∧ (∀ p, prev = {[p]} → char_distance h p = thr → b = true)
    ∧ (∀ p, prev = {[p]} → char_distance h p = thr + 1 → b = false).
Proof.
  intros Hh Ht. eexists _, _. split; [by apply run_is_similar_hashed|].
  assert (Hiff : existsb (λ p, hamming_distance h p <=? thr) (elements prev) = true
                 ↔ ∃ p, p ∈ prev ∧ char_distance h p ≤ thr).
  { rewrite existsb_elements_iff. split; intros (p & Hin & Hd); exists p;
      (split; [done|]); rewrite hamming_char_distance in *; lia. }
  split; [exact Hiff|]. split.
  - intros p -> Hd. apply Hiff. exists p. split; [set_solver|lia].
  - intros p -> Hd. apply not_true_is_false. intros Hb.
    apply Hiff in Hb as (q & Hq & Hdq).
    apply elem_of_singleton in Hq. subst q. lia.
Qed.

Lemma similar_iff_within_threshold_witness :
  phash_at world_with_frame (lit "f.jpg") = Some (lit "00ff")
  ∧ truthy (lit "00ff") = true
  ∧ ∃ w' b,
      run (is_similar_to_previous (lit "f.jpg") {[lit "00fe"]} 1) world_with_frame
      = (w', inr b)
      ∧ (b = true ↔ ∃ p, p ∈ ({[lit "00fe"]} : gset pystr)
                          ∧ char_distance (lit "00ff") p ≤ 1)
      ∧ (∀ p, ({[lit "00fe"]} : gset pystr) = {[p]} →
              char_distance (lit "00ff") p = 1 → b = true)
      ∧ (∀ p, ({[lit "00fe"]} : gset pystr) = {[p]} →
              char_distance (lit "00ff") p = 1 + 1 → b = false).
Proof.
  split; [vm_compute; reflexivity|].
  split; [reflexivity|].
  apply (similar_iff_within_threshold (lit "f.jpg") {[lit "00fe"]} 1
           world_with_frame (lit "00ff")); vm_compute; reflexivity.
Defined.

(** The distance counts differing characters, not differing bits: the
    fingerprints [00ff] and [00f0] differ in one character and in four bits;
    a longer string is compared on the length of the shorter one. *)
Example char_distance_examples :
  char_distance (lit "00ff") (lit "00f0") = 1
  ∧ char_distance (lit "00ff") (lit "ff00") = 4
  ∧ char_distance (lit "00ff") (lit "00") = 0
  ∧ differing_positions (lit "a0b1") (lit "a1b0") = [1%nat; 3%nat].
Proof. repeat split; vm_compute; reflexivity. Qed.

(** An empty fingerprint string is falsy: the function answers false as it does
    when the computation fails, whatever the prior set. *)
Example empty_fingerprint_counts_as_failure :
  snd (run (is_similar_to_previous (lit "f.jpg") {[lit "00ff"]} 5)
           world_with_empty_hash) = inr false.
Proof. vm_compute. reflexivity. Qed.

(** ** Frame extraction *)


(** [extract_frame] never raises; it leaves directories and manifest alone,
    adds quiet events and then exactly one [EvExtract] carrying its result. *)
Lemma extract_frame_spec (env : Env) (video : pystr) (t : float) (out : pystr)
    (w : World) :
  ∃ fs' ok evs,
    run (extract_frame env video t out) w
    = (mkWorld fs' (dirs w) (manifest w)
               (trace w ++ evs ++ [EvExtract video t out ok]), inr ok)
    ∧ forallb is_quiet evs = true
    ∧ (ok = true → exists_nonempty fs' out = true)
    ∧ (if transcoder_completed env (files w) video t out
       then ok = exists_nonempty fs' out else ok = false).
Proof.
  unfold extract_frame, transcoder_completed. munfold. simpl.
  destruct (raised (ffmpeg_seek env (files w) video (py_max t f0) out)) eqn:R1; simpl.
  - destruct (raised (ffmpeg_window env _ video (py_max t f0) out)) eqn:R2; simpl.
    + eexists _, false, [_; _; _]. rewrite <- !app_assoc. simpl.
      split; [reflexivity|]. split; [reflexivity|]. split; [discriminate|reflexivity].
    + eexists _, _, [_; _]. rewrite <- !app_assoc. simpl.
      split; [reflexivity|]. split; [reflexivity|]. split; [done|reflexivity].
  - eexists _, _, [_]. rewrite <- !app_assoc. simpl.
    split; [reflexivity|]. split; [reflexivity|]. split; [done|reflexivity].
Qed.


Lemma run_fname_ts_or_raise (t : float) (ts_name : pystr) (w : World) :
  _sec_to_fname_ts t = Some ts_name →
  run (fname_ts_or_raise t) w = (w, inr ts_name).
Proof. intros H. unfold fname_ts_or_raise. by rewrite H. Qed.



(** A first attempt at 12 s in which both strategies raise, then the retry at
    11.8 s, which succeeds. *)
Example retry_example :
  trace (fst (run (extract_with_retry env_retry (lit "v.mp4") t12 out_img_12_start)
                  empty_world))
  = [EvTranscode false (lit "v.mp4") t12 out_img_12_start;
     EvTranscode true (lit "v.mp4") t12 out_img_12_start;
     EvPrint (MsgFfmpegFailed t12);
     EvExtract (lit "v.mp4") t12 out_img_12_start false;
     EvTranscode false (lit "v.mp4") (fsub t12 f0_2) out_img_12_start;
     EvExtract (lit "v.mp4") (fsub t12 f0_2) out_img_12_start true]
  ∧ snd (run (extract_with_retry env_retry (lit "v.mp4") t12 out_img_12_start)
             empty_world) = inr true.
Proof. split; vm_compute; reflexivity. Qed.

(** ** Classification of an extracted frame *)

Arguments after_hash : simpl never.
Arguments after_similarity_test : simpl never.

Lemma phash_at_after_hash (w : World) (p q : pystr) :
  phash_at (after_hash w p) q = phash_at w q.
Proof. reflexivity. Qed.

Lemma files_after_hash (w : World) (p : pystr) : files (after_hash w p) = files w.
Proof. reflexivity. Qed.

Lemma trace_after_hash (w : World) (p : pystr) :
  trace (after_hash w p) = trace w ++ hash_events w p.
Proof.
  unfold after_hash, hash_events. simpl.
  destruct (phash_at w p); simpl; [done|]. by rewrite <- app_assoc.
Qed.

Lemma run_is_similar_unhashed (image_path : pystr) (prev : gset pystr) (thr : Z)
    (w : World) :
  truthy_opt (phash_at w image_path) = false →
  run (is_similar_to_previous image_path prev thr) w
  = (if bool_decide (prev = ∅) then w else after_hash w image_path, inr false).
Proof.
  intros Hh. unfold is_similar_to_previous. case_bool_decide; [done|].
  rewrite run_bind, run_calculate_image_hash.
  destruct (phash_at w image_path) as [[|c cs]|]; done.
Qed.

Lemma phash_after_similarity_test (w : World) (out_img : pystr) (prev : gset pystr) :
  phash_at (after_similarity_test w out_img prev) out_img = phash_at w out_img
  ∧ files (after_similarity_test w out_img prev) = files w.
Proof. unfold after_similarity_test. by case_bool_decide. Qed.

(** [classify_frame] when the frame is not found similar. *)
Lemma run_classify_not_similar (out_img fname : pystr) (thr : Z) (acc : Acc)
    (w : World) :
  let w1 := after_similarity_test w out_img (saved_hashes acc) in
  let w2 := after_hash w1 out_img in
  run (is_similar_to_previous out_img (saved_hashes acc) thr) w = (w1, inr false) →
  run (classify_frame out_img fname thr acc) w
  = match phash_at w out_img with
    | Some (c :: cs) =>
        (mkWorld (files w2) (dirs w2) (manifest w2)
                 (trace w2 ++ [EvPrint (MsgSaveNew fname)]),
         inr (mkAcc ({[c :: cs]} ∪ saved_hashes acc) (saved_count acc + 1)
                    (skipped_count acc)))
    | _ =>
        (mkWorld (files w2) (dirs w2) (manifest w2)
                 (trace w2 ++ [EvPrint (MsgSaveHashFailed fname)]),
         inr (mkAcc (saved_hashes acc) (saved_count acc + 1) (skipped_count acc)))
    end.
Proof.
  intros w1 w2 Hsim. unfold classify_frame.
  rewrite run_bind, Hsim. cbv beta iota.
  rewrite run_bind, run_calculate_image_hash.
  destruct (phash_after_similarity_test w out_img (saved_hashes acc)) as [Hp _].
  fold w1 in Hp. rewrite Hp.
  destruct (phash_at w out_img) as [[|c cs]|]; reflexivity.
Qed.

Lemma extract_with_retry_spec (env : Env) (video_path : pystr) (t : float)
    (out_img : pystr) (w : World) :
  ∃ w2 ok,
    run (extract_with_retry env video_path t out_img) w = (w2, inr ok)
    ∧ (ok = true → exists_nonempty (files w2) out_img = true).
Proof.
  destruct (extract_frame_spec env video_path t out_img w)
    as (fs1 & ok1 & evs1 & Hrun1 & _ & Hok1 & _).
  unfold extract_with_retry. rewrite run_bind, Hrun1.
  destruct (negb ok1 && fgt t f0).
  - destruct (extract_frame_spec env video_path (py_max f0 (fsub t f0_2)) out_img
                (mkWorld fs1 (dirs w) (manifest w)
                         (trace w ++ evs1 ++ [EvExtract video_path t out_img ok1])))
      as (fs2 & ok2 & evs2 & Hrun2 & _ & Hok2 & _).
    eexists _, ok2. split; [exact Hrun2|exact Hok2].
  - eexists _, ok1. split; [reflexivity|exact Hok1].
Qed.

Lemma filter_unlink_hash_events (w : World) (p : pystr) :
  List.filter is_unlink (hash_events w p) = [].
Proof. unfold hash_events. by destruct (phash_at w p). Qed.

(** The events that [classify_frame] adds when the fingerprint is not
    available. *)
Lemma new_events_alt (w w' : World) (evs : list Event) :
  trace w' = trace w ++ evs → new_events w w' = evs.
Proof. intros H. unfold new_events. by rewrite H, drop_app_length. Qed.

(** C3: a frame that was extracted but whose fingerprint cannot be computed
    (the computation raises, or yields nothing usable) is kept on disk, is not
    classified as similar, and is counted as saved. *)
Theorem hash_failure_keeps_frame (env : Env) (video_path out_dir : pystr)
    (thr : Z) (acc : Acc) (t : float) (frame_type ts_name : pystr) (w w1 : World) :
  _sec_to_fname_ts t = Some ts_name →
  run (extract_with_retry env video_path t
         (path_join out_dir (frame_fname ts_name frame_type))) w = (w1, inr true) →
  truthy_opt (phash_at w1 (path_join out_dir (frame_fname ts_name frame_type))) = false →
  ∃ w2,
    run (process_time_point env video_path out_dir thr acc (t, frame_type)) w
    = (w2, inr (mkAcc (saved_hashes acc) (saved_count acc + 1) (skipped_count acc)))
    ∧ files w2 = files w1
    ∧ exists_nonempty (files w2) (path_join out_dir (frame_fname ts_name frame_type)) = true
    ∧ List.filter is_unlink (new_events w1 w2) = []
    ∧ EvPrint (MsgSaveHashFailed (frame_fname ts_name frame_type)) ∈ new_events w1 w2
    ∧ EvPrint (MsgSkipSimilar (frame_fname ts_name frame_type)) ∉ new_events w1 w2.
Proof.
  intros Hts Hext Hh.
  set (fname := frame_fname ts_name frame_type) in *.
  set (out_img := path_join out_dir fname) in *.
  assert (Hne : exists_nonempty (files w1) out_img = true).
  { destruct (extract_with_retry_spec env video_path t out_img w)
      as (w2 & ok & Hr & Hok). rewrite Hext in Hr. injection Hr as <- <-. by apply Hok. }
  pose proof (run_is_similar_unhashed out_img (saved_hashes acc) thr w1 Hh) as Hsim.
  pose proof (run_classify_not_similar out_img fname thr acc w1 Hsim) as Hcl.
  cbv zeta in Hcl.
  set (wa := after_similarity_test w1 out_img (saved_hashes acc)) in *.
  assert (Htr : ∃ evs, trace (after_hash wa out_img) = trace w1 ++ evs
                       ∧ List.filter is_unlink evs = []
                       ∧ Forall (λ ev, ∀ m, ev = EvPrint m → m = MsgHashFailed out_img) evs).
  { rewrite trace_after_hash. subst wa. unfold after_similarity_test.
    assert (Hq : ∀ w, Forall (λ ev, ∀ m, ev = EvPrint m → m = MsgHashFailed out_img)
                             (hash_events w out_img)).
    { intros w0. unfold hash_events. destruct (phash_at w0 out_img);
        repeat constructor; intros m [=]; done. }
    case_bool_decide.
    - eexists. split; [reflexivity|]. split; [apply filter_unlink_hash_events|apply Hq].
    - rewrite trace_after_hash, <- app_assoc. eexists. split; [reflexivity|].
      rewrite List.filter_app, !filter_unlink_hash_events. split; [done|].
      apply Forall_app; split; apply Hq. }
  destruct Htr as (evs & Htr & Hun & Hpr).
  eexists. split.
  { unfold process_time_point. rewrite run_bind, (run_fname_ts_or_raise _ _ _ Hts).
    cbv beta iota. fold fname out_img. rewrite run_bind, Hext. cbv beta iota.
    rewrite Hcl. destruct (phash_at w1 out_img) as [[|c cs]|]; [reflexivity|discriminate|reflexivity]. }
  cbn [files]. rewrite files_after_hash.
  destruct (phash_after_similarity_test w1 out_img (saved_hashes acc)) as [_ Hf].
  fold wa in Hf. rewrite Hf. split; [done|]. split; [done|].
  rewrite (new_events_alt w1 _ (evs ++ [EvPrint (MsgSaveHashFailed fname)]))
    by (cbn [trace]; by rewrite Htr, <- app_assoc).
  split; [|split].
  - rewrite List.filter_app, Hun. reflexivity.
  - apply elem_of_app. right. apply list_elem_of_singleton. reflexivity.
  - intros [Hin|Hin]%elem_of_app.
    + rewrite Forall_forall in Hpr. specialize (Hpr _ Hin _ eq_refl). discriminate.
    + apply list_elem_of_singleton in Hin. discriminate.
Qed.

Lemma hash_failure_keeps_frame_witness :
  _sec_to_fname_ts t12 = Some (lit "00-00-12-000")
  ∧ run (extract_with_retry env_unhashable (lit "v.mp4") t12
           (path_join (lit "out") (frame_fname (lit "00-00-12-000") (lit "start"))))
        empty_world = (world_unhashable, inr true)
  ∧ truthy_opt (phash_at world_unhashable
                  (path_join (lit "out") (frame_fname (lit "00-00-12-000") (lit "start"))))
    = false
  ∧ ∃ w2,
      run (process_time_point env_unhashable (lit "v.mp4") (lit "out") 5 (mkAcc ∅ 0 0)
             (t12, lit "start")) empty_world
      = (w2, inr (mkAcc ∅ (0 + 1) 0))
      ∧ files w2 = files world_unhashable
      ∧ exists_nonempty (files w2)
          (path_join (lit "out") (frame_fname (lit "00-00-12-000") (lit "start"))) = true
      ∧ List.filter is_unlink (new_events world_unhashable w2) = []
      ∧ EvPrint (MsgSaveHashFailed (frame_fname (lit "00-00-12-000") (lit "start")))
        ∈ new_events world_unhashable w2
      ∧ EvPrint (MsgSkipSimilar (frame_fname (lit "00-00-12-000") (lit "start")))
        ∉ new_events world_unhashable w2.
Proof.
  split; [vm_compute; reflexivity|].
  split; [vm_compute; reflexivity|].
  split; [vm_compute; reflexivity|].
  apply (hash_failure_keeps_frame env_unhashable (lit "v.mp4") (lit "out") 5
           (mkAcc ∅ 0 0) t12 (lit "start") (lit "00-00-12-000")
           empty_world world_unhashable); vm_compute; reflexivity.
Defined.

(** ** The first frame of a video *)

(** [classify_frame] on an empty set of fingerprints. *)
Lemma run_classify_first (out_img fname : pystr) (thr : Z) (acc : Acc) (w : World) :
  saved_hashes acc = ∅ →
  ∃ w2 acc',
    run (classify_frame out_img fname thr acc) w = (w2, inr acc')
    ∧ saved_count acc' = saved_count acc + 1
    ∧ skipped_count acc' = skipped_count acc
    ∧ files w2 = files w
    ∧ List.filter is_unlink (new_events w w2) = []
    ∧ List.filter is_hash (new_events w w2) = [EvHash out_img (phash_at w out_img)].
Proof.
  intros He.
  assert (Hsim : run (is_similar_to_previous out_img (saved_hashes acc) thr) w
                 = (after_similarity_test w out_img (saved_hashes acc), inr false)).
  { rewrite He. reflexivity. }
  pose proof (run_classify_not_similar out_img fname thr acc w Hsim) as Hcl.
  cbv zeta in Hcl.
  assert (Hw : after_similarity_test w out_img (saved_hashes acc) = w).
  { rewrite He. reflexivity. }
  rewrite Hw in Hcl.
  assert (Hev : ∀ m, new_events w (mkWorld (files (after_hash w out_img))
                       (dirs (after_hash w out_img)) (manifest (after_hash w out_img))
                       (trace (after_hash w out_img) ++ [EvPrint m]))
                     = hash_events w out_img ++ [EvPrint m]).
  { intros m. apply new_events_alt. cbn [trace].
    by rewrite trace_after_hash, <- app_assoc. }
  assert (Hh : List.filter is_hash (hash_events w out_img)
               = [EvHash out_img (phash_at w out_img)]).
  { unfold hash_events. by destruct (phash_at w out_img). }
  destruct (phash_at w out_img) as [[|c cs]|] eqn:E; rewrite Hcl;
    eexists _, _; (split; [reflexivity|]); cbn [saved_count skipped_count files];
    rewrite files_after_hash, Hev, !List.filter_app, filter_unlink_hash_events, Hh;
    rewrite ?E; done.
Qed.

(** The loop body keeps the invariant of the accumulators. *)
Lemma process_time_point_acc_inv (env : Env) (video_path out_dir : pystr) (thr : Z)
    (acc : Acc) (tp : float * pystr) (w w2 : World) (acc' : Acc) :
  acc_inv acc →
  run (process_time_point env video_path out_dir thr acc tp) w = (w2, inr acc') →
  acc_inv acc'.
Proof.
  destruct tp as [t frame_type]. intros [Hnn Hinv] Hrun.
    unfold process_time_point in Hrun. rewrite run_bind in Hrun.
    unfold fname_ts_or_raise in Hrun.
    destruct (_sec_to_fname_ts t) as [ts_name|]; [|discriminate].
    rewrite run_ret, run_bind in Hrun.
    destruct (extract_with_retry_spec env video_path t
                (path_join out_dir (frame_fname ts_name frame_type)) w)
      as (w1 & ok & Hr & _).
    rewrite Hr in Hrun. destruct ok.
    + unfold classify_frame in Hrun. rewrite run_bind in Hrun.
      destruct (run (is_similar_to_previous _ (saved_hashes acc) thr) w1)
        as [w3 [e|[|]]] eqn:Hsim; [discriminate| |].
      * (* similar: only possible with a recorded fingerprint *)
        unfold unlink, tprint in Hrun. munfold. simpl in Hrun.
        injection Hrun as <- <-. split; simpl; [done|].
        intros H0. specialize (Hinv H0).
        rewrite Hinv in Hsim. compute in Hsim. discriminate.
      * rewrite run_bind, run_calculate_image_hash in Hrun.
        destruct (phash_at w3 _) as [[|c cs]|]; munfold; simpl in Hrun;
          injection Hrun as <- <-; split; simpl; lia.
    + rewrite run_ret in Hrun. by injection Hrun as <- <-.
Qed.

Lemma foldM_acc_inv {A} (f : Acc -> A -> M Acc) (l : list A) :
  (∀ acc x w w' acc', acc_inv acc → run (f acc x) w = (w', inr acc') → acc_inv acc') →
  ∀ acc w w' acc',
    acc_inv acc → run (foldM f l acc) w = (w', inr acc') → acc_inv acc'.
Proof.
  intros Hf. induction l as [|x l IH]; intros acc w w' acc' Hinv Hrun.
  - cbn [foldM] in Hrun. rewrite run_ret in Hrun. by injection Hrun as <- <-.
  - rewrite run_foldM_cons in Hrun.
    destruct (run (f acc x) w) as [w1 [e|acc1]] eqn:Hstep; [discriminate|].
    eapply IH; [|exact Hrun]. eapply Hf; [exact Hinv|exact Hstep].
Qed.

(** All along the loops of [process_one_video], fingerprints are recorded only
    once a frame has been counted as saved. *)
Lemma process_entry_acc_inv (env : Env) (video_path out_dir : pystr)
    (duration : float) (thr : Z) (acc : Acc) (e : SubtitleEntry) (w w' : World)
    (acc' : Acc) :
  acc_inv acc →
  run (process_entry env video_path out_dir duration thr acc e) w = (w', inr acc') →
  acc_inv acc'.
Proof.
  intros Hinv Hrun. unfold process_entry in Hrun.
  destruct (flt (start_time_of duration e) f10).
  - rewrite run_ret in Hrun. by injection Hrun as <- <-.
  - eapply (foldM_acc_inv (process_time_point env video_path out_dir thr));
      [|exact Hinv|exact Hrun].
    intros. by eapply process_time_point_acc_inv.
Qed.

(** C10: on an empty set of prior fingerprints [is_similar_to_previous]
    answers false and leaves the world as it was (no fingerprint is
    computed); hence a frame extracted while no fingerprint is recorded is
    counted as saved and not deleted, and fingerprints are recorded only once a
    frame has been saved, so that the first extracted frame of a video always
    meets the empty set. *)
Theorem first_frame_accepted :
  (∀ image_path thr w,
     run (is_similar_to_previous image_path ∅ thr) w = (w, inr false))
  ∧ (∀ env video_path out_dir thr acc t frame_type ts_name w w1,
       saved_hashes acc = ∅ →
       _sec_to_fname_ts t = Some ts_name →
       run (extract_with_retry env video_path t
              (path_join out_dir (frame_fname ts_name frame_type))) w = (w1, inr true) →
       ∃ w2 acc',
         run (process_time_point env video_path out_dir thr acc (t, frame_type)) w
         = (w2, inr acc')
         ∧ saved_count acc' = saved_count acc + 1
         ∧ skipped_count acc' = skipped_count acc
         ∧ files w2 = files w1
         ∧ exists_nonempty (files w2)
             (path_join out_dir (frame_fname ts_name frame_type)) = true
         ∧ List.filter is_unlink (new_events w1 w2) = [])
  ∧ acc_inv (mkAcc ∅ 0 0)
  ∧ (∀ env video_path out_dir thr acc tp w w2 acc',
       acc_inv acc →
       run (process_time_point env video_path out_dir thr acc tp) w = (w2, inr acc') →
       acc_inv acc').
Proof.
  split; [reflexivity|]. split; [|split].
  - intros env video_path out_dir thr acc t frame_type ts_name w w1 He Hts Hext.
    set (fname := frame_fname ts_name frame_type) in *.
    set (out_img := path_join out_dir fname) in *.
    destruct (run_classify_first out_img fname thr acc w1 He)
      as (w2 & acc' & Hrun & Hs & Hk & Hf & Hu & _).
    exists w2, acc'. split.
    { unfold process_time_point. rewrite run_bind, (run_fname_ts_or_raise _ _ _ Hts).
      cbv beta iota. fold fname out_img. rewrite run_bind, Hext. exact Hrun. }
    repeat split; try done. rewrite Hf.
    destruct (extract_with_retry_spec env video_path t out_img w)
      as (w' & ok & Hr & Hok). rewrite Hext in Hr. injection Hr as <- <-. by apply Hok.
  - split; [done|done].
  - intros env video_path out_dir thr acc tp w w2 acc'.
    apply process_time_point_acc_inv.
Qed.

Lemma first_frame_accepted_witness :
  saved_hashes (mkAcc ∅ 0 0) = ∅
  ∧ _sec_to_fname_ts t12 = Some (lit "00-00-12-000")
  ∧ run (extract_with_retry env_hashable (lit "v.mp4") t12
           (path_join (lit "out") (frame_fname (lit "00-00-12-000") (lit "start"))))
        empty_world = (world_hashable, inr true)
  ∧ ∃ w2 acc',
      run (process_time_point env_hashable (lit "v.mp4") (lit "out") 5 (mkAcc ∅ 0 0)
             (t12, lit "start")) empty_world = (w2, inr acc')
      ∧ saved_count acc' = saved_count (mkAcc ∅ 0 0) + 1
      ∧ skipped_count acc' = skipped_count (mkAcc ∅ 0 0)
      ∧ files w2 = files world_hashable
      ∧ exists_nonempty (files w2)
          (path_join (lit "out") (frame_fname (lit "00-00-12-000") (lit "start"))) = true
      ∧ List.filter is_unlink (new_events world_hashable w2) = [].
Proof.
  split; [reflexivity|].
  split; [vm_compute; reflexivity|].
  split; [vm_compute; reflexivity|].
  apply (proj1 (proj2 first_frame_accepted) env_hashable (lit "v.mp4") (lit "out") 5
           (mkAcc ∅ 0 0) t12 (lit "start") (lit "00-00-12-000")
           empty_world world_hashable); vm_compute; reflexivity.
Defined.

(** ** The warm-up window *)

Lemma run_foldM_app {A B} (f : B -> A -> M B) (l1 l2 : list A) (b : B) (w : World) :
  run (foldM f (l1 ++ l2) b) w =
  match run (foldM f l1 b) w with
  | (w', inr b') => run (foldM f l2 b') w'
  | (w', inl e) => (w', inl e)
  end.
Proof.
  revert b w. induction l1 as [|x l1 IH]; intros b w; [reflexivity|].
  rewrite <- app_comm_cons, !run_foldM_cons.
  destruct (run (f b x) w) as [w' [e|b']]; [reflexivity|]. apply IH.
Qed.

(** C2: an entry whose clamped start time is below 10.0 leaves the run
    untouched: no event is added (so no frame is extracted for it), the files
    and the accumulators stay as they were, and the run over a list of entries
    is the run over the list without that entry. *)
Theorem warmup_entry_extracts_nothing (env : Env) (video_path out_dir : pystr)
    (duration : float) (thr : Z) (acc : Acc) (e : SubtitleEntry) (w : World) :
  flt (start_time_of duration e) f10 = true →
  run (process_entry env video_path out_dir duration thr acc e) w = (w, inr acc)
  ∧ List.filter is_extract
      (new_events w (fst (run (process_entry env video_path out_dir duration thr acc e) w)))
    = []
  ∧ ∀ before after acc0 w0,
      run (foldM (process_entry env video_path out_dir duration thr)
                 (before ++ e :: after) acc0) w0
      = run (foldM (process_entry env video_path out_dir duration thr)
                   (before ++ after) acc0) w0.
Proof.
  intros Hwarm.
  assert (Hskip : ∀ acc1 w1,
            run (process_entry env video_path out_dir duration thr acc1 e) w1
            = (w1, inr acc1)).
  { intros acc1 w1. unfold process_entry. rewrite Hwarm. reflexivity. }
  split; [apply Hskip|]. split.
  - rewrite Hskip. unfold new_events. simpl. by rewrite drop_all.
  - intros before after acc0 w0. rewrite !run_foldM_app.
    destruct (run (foldM _ before acc0) w0) as [w1 [ex|acc1]]; [reflexivity|].
    rewrite run_foldM_cons, Hskip. reflexivity.
Qed.

Lemma warmup_entry_extracts_nothing_witness :
  flt (start_time_of f0 early_entry) f10 = true
  ∧ run (process_entry env_hashable (lit "v.mp4") (lit "out") f0 5 (mkAcc ∅ 0 0)
           early_entry) empty_world = (empty_world, inr (mkAcc ∅ 0 0))
  ∧ List.filter is_extract
      (new_events empty_world
         (fst (run (process_entry env_hashable (lit "v.mp4") (lit "out") f0 5
                      (mkAcc ∅ 0 0) early_entry) empty_world))) = []
  ∧ ∀ before after acc0 w0,
      run (foldM (process_entry env_hashable (lit "v.mp4") (lit "out") f0 5)
                 (before ++ early_entry :: after) acc0) w0
      = run (foldM (process_entry env_hashable (lit "v.mp4") (lit "out") f0 5)
                   (before ++ after) acc0) w0.
Proof.
  split; [vm_compute; reflexivity|].
  apply (warmup_entry_extracts_nothing env_hashable (lit "v.mp4") (lit "out") f0 5
           (mkAcc ∅ 0 0) early_entry empty_world).
  vm_compute; reflexivity.
Defined.

(** ** Sanitising names *)

Lemma sub_illegal_length (name : pystr) : length (sub_illegal name) = length name.
Proof. unfold sub_illegal. apply length_map. Qed.

Lemma sub_illegal_lookup (name : pystr) (i : nat) (c : char) :
  name !! i = Some c →
  sub_illegal name !! i = Some (if is_illegal c then underscore else c).
Proof.
  revert i. induction name as [|a name IH]; intros [|i] H; try done.
  - injection H as ->. reflexivity.
  - simpl. by apply IH.
Qed.

Lemma sub_illegal_legal (name : pystr) :
  Forall (λ c, is_illegal c = false) (sub_illegal name).
Proof.
  induction name as [|a name IH]; simpl; constructor; [|exact IH].
  destruct (is_illegal a) eqn:E; [reflexivity|exact E].
Qed.

Lemma lstrip_by_spec (p : char -> bool) (s : pystr) :
  ∃ pre, s = pre ++ lstrip_by p s
         ∧ Forall (λ c, p c = true) pre
         ∧ ∀ c, head (lstrip_by p s) = Some c → p c = false.
Proof.
  induction s as [|a s (pre & Heq & Hpre & Hhd)]; simpl.
  - exists []. repeat split; [constructor|done].
  - destruct (p a) eqn:E.
    + exists (a :: pre). split; [simpl; by f_equal|]. split; [by constructor|exact Hhd].
    + exists []. split; [done|]. split; [constructor|]. simpl. by intros c [= <-].
Qed.

Lemma last_rev_head {A} (l : list A) : last (rev l) = head l.
Proof. destruct l as [|a l]; [done|]. simpl. apply last_snoc. Qed.

Lemma rstrip_by_spec (p : char -> bool) (s : pystr) :
  ∃ suf, s = rstrip_by p s ++ suf
         ∧ Forall (λ c, p c = true) suf
         ∧ ∀ c, last (rstrip_by p s) = Some c → p c = false.
Proof.
  unfold rstrip_by.
  destruct (lstrip_by_spec p (rev s)) as (pre & Heq & Hpre & Hhd).
  exists (rev pre). split; [|split].
  - rewrite <- rev_app_distr, <- Heq. by rewrite rev_involutive.
  - by apply List.Forall_rev.
  - intros c Hc. apply Hhd. by rewrite <- last_rev_head.
Qed.

Lemma sub_ws_runs_true (s : pystr) :
  sub_ws_runs true s = sub_ws_runs false (lstrip_by is_space s).
Proof.
  induction s as [|a s IH]; simpl; [done|].
  destruct (is_space a) eqn:E; [exact IH|]. simpl. by rewrite E.
Qed.

Lemma lstrip_by_length (p : char -> bool) (s : pystr) :
  (length (lstrip_by p s) ≤ length s)%nat.
Proof.
  induction s as [|a s IH]; simpl; [done|]. destruct (p a); simpl; lia.
Qed.

Lemma sub_ws_runs_collapsed (s : pystr) : collapsed s (sub_ws_runs false s).
Proof.
  remember (length s) as n eqn:Hn. revert s Hn.
  induction n as [n IH] using lt_wf_ind. intros [|a s] Hn; [constructor|].
  simpl in *. destruct (is_space a) eqn:E.
  - rewrite sub_ws_runs_true.
    destruct (lstrip_by_spec is_space s) as (pre & Heq & Hpre & Hhd).
    rewrite Heq at 1. change (a :: pre ++ lstrip_by is_space s)
      with ((a :: pre) ++ lstrip_by is_space s).
    apply collapsed_run; [done|by constructor|exact Hhd|].
    apply (IH (length (lstrip_by is_space s))); [|done].
    pose proof (lstrip_by_length is_space s). lia.
  - apply collapsed_char; [exact E|]. apply (IH (length s)); [lia|done].
Qed.

Lemma sub_ws_runs_legal (b : bool) (s : pystr) :
  Forall (λ c, is_illegal c = false) s →
  Forall (λ c, is_illegal c = false) (sub_ws_runs b s).
Proof.
  intros H. revert b. induction H as [|a s Ha Hs IH]; intros b; simpl; [constructor|].
  destruct (is_space a), b; try constructor; auto.
Qed.

Lemma Forall_app_l {A} (P : A -> Prop) (l1 l2 : list A) :
  Forall P (l1 ++ l2) → Forall P l1.
Proof. intros H. by apply Forall_app in H as [? _]. Qed.

Lemma Forall_app_r {A} (P : A -> Prop) (l1 l2 : list A) :
  Forall P (l1 ++ l2) → Forall P l2.
Proof. intros H. by apply Forall_app in H as [_ ?]. Qed.

Lemma lstrip_by_Forall (P : char -> Prop) (p : char -> bool) (s : pystr) :
  Forall P s → Forall P (lstrip_by p s).
Proof.
  intros H. destruct (lstrip_by_spec p s) as (pre & Heq & _).
  rewrite Heq in H. by apply Forall_app_r in H.
Qed.

Lemma rstrip_by_Forall (P : char -> Prop) (p : char -> bool) (s : pystr) :
  Forall P s → Forall P (rstrip_by p s).
Proof.
  intros H. destruct (rstrip_by_spec p s) as (suf & Heq & _).
  rewrite Heq in H. by apply Forall_app_l in H.
Qed.

Lemma safe_for_filename_legal (name : pystr) (max_len : nat) :
  Forall (λ c, is_illegal c = false) (_safe_for_filename name max_len).
Proof.
  unfold _safe_for_filename, slice_to, strip. apply Forall_take.
  do 2 apply rstrip_by_Forall. apply lstrip_by_Forall.
  apply sub_ws_runs_legal, sub_illegal_legal.
Qed.

Lemma safe_for_filename_length (name : pystr) (max_len : nat) :
  (length (_safe_for_filename name max_len) ≤ max_len)%nat.
Proof. unfold _safe_for_filename, slice_to. rewrite length_take. lia. Qed.

Lemma strip_spec (s : pystr) :
  ∃ pre suf, s = pre ++ strip s ++ suf
             ∧ Forall (λ c, is_space c = true) pre
             ∧ Forall (λ c, is_space c = true) suf
             ∧ (∀ c, head (strip s) = Some c → is_space c = false)
             ∧ (∀ c, last (strip s) = Some c → is_space c = false).
Proof.
  unfold strip.
  destruct (lstrip_by_spec is_space s) as (pre & Heq & Hpre & Hhd).
  destruct (rstrip_by_spec is_space (lstrip_by is_space s)) as (suf & Heq' & Hsuf & Hla).
  exists pre, suf. split; [by rewrite <- Heq'|]. repeat split; try done.
  intros c Hc. apply Hhd. rewrite Heq'.
  destruct (rstrip_by is_space (lstrip_by is_space s)); [done|exact Hc].
Qed.

Lemma illegal_class_described : _ILLEGAL_WIN_CHARS = described_illegal.
Proof. reflexivity. Qed.

Lemma is_space_ascii (c : char) :
  (c < 128)%N → is_space c = true ↔ (9 ≤ c ≤ 13)%N ∨ (28 ≤ c ≤ 32)%N.
Proof.
  intros Hc. unfold is_space.
  rewrite !orb_true_iff, !andb_true_iff, !N.leb_le, !N.eqb_eq. lia.
Qed.

(** C8: [_safe_for_filename] replaces each of the nine characters
    less-than, greater-than, colon, double quote, slash, backslash, bar,
    question mark and asterisk by an underscore (code point 95) and leaves
    the others, turns every run of white space (among the ASCII characters:
    9 to 13 and 28 to 32) into one space (32), removes the white space at
    both ends and then the trailing spaces and periods (46), and finally
    keeps the first [max_len] characters; its result holds none of the nine
    characters; [_choose_out_dir] sanitises the uploader with bound 40 and
    the base name with bound 80. *)
Theorem sanitizer_steps (name : pystr) (max_len : nat) :
  let c1 := sub_illegal name in
  let c2 := sub_ws_runs false c1 in
  let c3 := strip c2 in
  let c4 := rstrip_by is_space_or_period c3 in
  (length c1 = length name
   ∧ ∀ i c, name !! i = Some c →
            c1 !! i = Some (if bool_decide (c ∈ described_illegal) then 95%N else c))
  ∧ collapsed c1 c2
  ∧ (∀ c, (c < 128)%N → is_space c = true ↔ (9 ≤ c ≤ 13)%N ∨ (28 ≤ c ≤ 32)%N)
  ∧ (∃ pre suf, c2 = pre ++ c3 ++ suf
                ∧ Forall (λ c, is_space c = true) pre
                ∧ Forall (λ c, is_space c = true) suf
                ∧ (∀ c, head c3 = Some c → is_space c = false)
                ∧ (∀ c, last c3 = Some c → is_space c = false))
  ∧ (∃ suf, c3 = c4 ++ suf
            ∧ Forall (λ c, c = 32%N ∨ c = 46%N) suf
            ∧ ∀ c, last c4 = Some c → c ≠ 32%N ∧ c ≠ 46%N)
  ∧ _safe_for_filename name max_len = take max_len c4
  ∧ (length (_safe_for_filename name max_len) ≤ max_len)%nat
  ∧ Forall (λ c, c ∉ described_illegal) (_safe_for_filename name max_len)
  ∧ ∀ root uploader base,
      ∃ seg, _choose_out_dir root uploader base
             = path_join (path_join root (_safe_for_filename uploader 40)) seg
             ∧ (seg = _safe_for_filename base 80
                ∨ seg = lit "vid_" ++ _hash8 (root ++ uploader ++ base))
             ∧ (length (_safe_for_filename uploader 40) ≤ 40)%nat
             ∧ (length (_safe_for_filename base 80) ≤ 80)%nat.
Proof.
  intros c1 c2 c3 c4.
  split.
  { split; [apply sub_illegal_length|].
    intros i c Hc. rewrite <- illegal_class_described.
    apply (sub_illegal_lookup name i c Hc). }
  split; [apply sub_ws_runs_collapsed|].
  split; [apply is_space_ascii|].
  split; [apply strip_spec|].
  split.
  { destruct (rstrip_by_spec is_space_or_period c3) as (suf & Heq & Hsuf & Hla).
    exists suf. split; [exact Heq|]. split.
    - eapply Forall_impl; [exact Hsuf|]. intros c Hc. unfold is_space_or_period in Hc.
      apply orb_true_iff in Hc as [Hc|Hc]; apply N.eqb_eq in Hc; auto.
    - intros c Hc. specialize (Hla c Hc). unfold is_space_or_period in Hla.
      apply orb_false_iff in Hla as [H1 H2].
      apply N.eqb_neq in H1, H2. done. }
  split; [reflexivity|].
  split; [apply safe_for_filename_length|].
  split.
  { eapply Forall_impl; [apply safe_for_filename_legal|].
    intros c Hc. unfold is_illegal in Hc. rewrite <- illegal_class_described.
    by apply bool_decide_eq_false in Hc. }
  intros root uploader base. unfold _choose_out_dir.
  destruct (230 <? length _)%nat; eexists; (split; [reflexivity|]);
    (split; [auto|]); split; apply safe_for_filename_length.
Qed.

(** The three characters that the description singles out. *)
Example sanitizer_described_characters :
  _safe_for_filename [34; 97; 58; 98; 42]%N 120 = lit "_a_b_"
  ∧ _safe_for_filename (lit "a<b>c/d\e|f?g") 120 = lit "a_b_c_d_e_f_g".
Proof. split; vm_compute; reflexivity. Qed.

Example safe_truncation_may_end_in_space :
  _safe_for_filename (lit "ab cd") 3 = lit "ab ".
Proof. vm_compute. reflexivity. Qed.

(** ** The output directory *)

Lemma le_bytes_length (k : nat) (n : Z) : length (MD5.le_bytes k n) = k.
Proof. revert n. induction k as [|k IH]; intros n; simpl; [done|]. by rewrite IH. Qed.

Lemma digest_length (msg : list Z) : length (MD5.digest msg) = 16%nat.
Proof.
  unfold MD5.digest.
  destruct (MD5.blocks _ MD5.init (MD5.pad msg)) as [[[a b] c] d].
  rewrite !length_app, !le_bytes_length. reflexivity.
Qed.

Lemma hexdigest_length (msg : list Z) : length (MD5.hexdigest msg) = 32%nat.
Proof.
  unfold MD5.hexdigest. pose proof (digest_length msg) as H.
  revert H. generalize (MD5.digest msg). intros l.
  assert (G : ∀ l : list Z, length (flat_map MD5.hex_byte l) = (2 * length l)%nat).
  { clear. induction l as [|b l IH]; simpl; [done|]. rewrite IH. lia. }
  intros H. rewrite G, H. reflexivity.
Qed.

Lemma hash8_length (s : pystr) : length (_hash8 s) = 8%nat.
Proof.
  unfold _hash8, slice_to. rewrite length_take, hexdigest_length. reflexivity.
Qed.

Lemma choose_out_dir_short (out_root uploader base : pystr) :
  (length (path_join (path_join out_root (_safe_for_filename uploader 40))
                     (_safe_for_filename base 80)) ≤ 230)%nat →
  _choose_out_dir out_root uploader base
  = path_join (path_join out_root (_safe_for_filename uploader 40))
              (_safe_for_filename base 80).
Proof.
  intros H. unfold _choose_out_dir.
  destruct (230 <? _)%nat eqn:E; [|reflexivity].
  apply Nat.ltb_lt in E. lia.
Qed.

(** C4: when the composed path [root/sanitised uploader/sanitised base] is longer
    than 230 characters, the resolver replaces the base-name segment by [vid_]
    followed by the first eight hexadecimal characters of the MD5 digest of
    the UTF-8 encoding of root, raw uploader and raw base name concatenated (a
    segment of twelve characters); equal inputs give equal paths. *)
Theorem long_path_fallback (out_root uploader base : pystr) :
  (230 < length (path_join (path_join out_root (_safe_for_filename uploader 40))
                           (_safe_for_filename base 80)))%nat →
  _choose_out_dir out_root uploader base
  = path_join (path_join out_root (_safe_for_filename uploader 40))
              (lit "vid_"
               ++ take 8 (MD5.hexdigest (utf8_encode (out_root ++ uploader ++ base))))
  ∧ length (lit "vid_"
            ++ take 8 (MD5.hexdigest (utf8_encode (out_root ++ uploader ++ base))))
    = 12%nat
  ∧ ∀ out_root' uploader' base',
      out_root' = out_root → uploader' = uploader → base' = base →
      _choose_out_dir out_root' uploader' base' = _choose_out_dir out_root uploader base.
Proof.
  intros Hlong. split; [|split].
  - unfold _choose_out_dir. apply Nat.ltb_lt in Hlong. rewrite Hlong. reflexivity.
  - rewrite length_app. change (take 8 (MD5.hexdigest ?m)) with (slice_to 8 (MD5.hexdigest m)).
    fold (_hash8 (out_root ++ uploader ++ base)). rewrite hash8_length. reflexivity.
  - intros ? ? ? -> -> ->. reflexivity.
Qed.

Lemma long_path_fallback_witness :
  (230 < length (path_join (path_join long_root (_safe_for_filename (lit "up") 40))
                           (_safe_for_filename (lit "clip") 80)))%nat
  ∧ _choose_out_dir long_root (lit "up") (lit "clip")
    = path_join (path_join long_root (_safe_for_filename (lit "up") 40))
                (lit "vid_"
                 ++ take 8 (MD5.hexdigest (utf8_encode (long_root ++ lit "up" ++ lit "clip"))))
  ∧ length (lit "vid_"
            ++ take 8 (MD5.hexdigest (utf8_encode (long_root ++ lit "up" ++ lit "clip"))))
    = 12%nat
  ∧ ∀ out_root' uploader' base',
      out_root' = long_root → uploader' = lit "up" → base' = lit "clip" →
      _choose_out_dir out_root' uploader' base'
      = _choose_out_dir long_root (lit "up") (lit "clip").
Proof.
  split; [apply Nat.ltb_lt; vm_compute; reflexivity|].
  apply (long_path_fallback long_root (lit "up") (lit "clip")).
  apply Nat.ltb_lt. vm_compute. reflexivity.
Defined.

Example long_path_example :
  _choose_out_dir long_root (lit "up") (lit "clip")
  = long_root ++ lit "/up/vid_13e97354".
Proof. vm_compute. reflexivity. Qed.

(** ** The incremental selection of manifest records *)

(** One parsed record in the loop of [_read_new_records]. *)
Lemma read_lines_cons (env : Env) (since_ts : Z) (line : pystr) (rest : list pystr)
    (records : list JValue) (rec : JValue) :
  truthy (strip line) = true → json_loads env (strip line) = Some rec →
  read_lines env since_ts (line :: rest) records
  = match rec with
    | JDict kv =>
        match py_int env (from_option id (JInt 0) (assoc_get (lit "created_at") kv)) with
        | inl e => inl e
        | inr n =>
            if since_ts <=? n then read_lines env since_ts rest (records ++ [rec])
            else read_lines env since_ts rest records
        end
    | _ => inl AttributeError
    end.
Proof. intros Ht Hl. cbn [read_lines]. rewrite Ht, Hl. by destruct rec. Qed.

Lemma read_lines_select (env : Env) (since_ts : Z) (lines : list pystr)
    (records : list JValue) :
  Forall (λ r, is_Some (created_at env r)) (manifest_records env lines) →
  read_lines env since_ts lines records
  = inr (records ++ select_new env lines since_ts).
Proof.
  revert records. induction lines as [|line lines IH]; intros records Hwf.
  - simpl. by rewrite app_nil_r.
  - unfold select_new, manifest_records in *. cbn [omap list_omap] in *. cbv zeta in *.
    destruct (truthy (strip line)) eqn:Ht;
      [|cbn [read_lines]; rewrite Ht; by apply IH].
    destruct (json_loads env (strip line)) as [rec|] eqn:Hl;
      [|cbn [read_lines]; rewrite Ht, Hl; by apply IH].
    rewrite (read_lines_cons env since_ts line lines records rec Ht Hl).
    apply Forall_cons in Hwf as [[n Hn] Hwf].
    cbn [List.filter]. unfold is_new at 1. rewrite Hn. unfold created_at in Hn.
    destruct rec as [| | | | | |kv]; try discriminate.
    destruct (py_int env _) as [e|m]; [discriminate|]. injection Hn as ->.
    destruct (since_ts <=? n); rewrite IH by done; [|done].
    by rewrite <- app_assoc.
Qed.

Lemma read_lines_raises (env : Env) (since_ts : Z) (lines : list pystr)
    (records : list JValue) :
  Exists (λ r, created_at env r = None) (manifest_records env lines) →
  ∃ e, read_lines env since_ts lines records = inl e.
Proof.
  revert records. induction lines as [|line lines IH]; intros records Hbad.
  - inversion Hbad.
  - unfold manifest_records in *. cbn [omap list_omap] in *. cbv zeta in *.
    destruct (truthy (strip line)) eqn:Ht;
      [|cbn [read_lines]; rewrite Ht; by apply IH].
    destruct (json_loads env (strip line)) as [rec|] eqn:Hl;
      [|cbn [read_lines]; rewrite Ht, Hl; by apply IH].
    rewrite (read_lines_cons env since_ts line lines records rec Ht Hl).
    destruct rec as [| | | | | |kv]; try (by eexists).
    destruct (py_int env _) as [e|m] eqn:Hint; [by eexists|].
    apply Exists_cons in Hbad as [Hbad|Hbad].
    { unfold created_at in Hbad. rewrite Hint in Hbad. discriminate. }
    destruct (since_ts <=? m); by apply IH.
Qed.

(** C9, as the code has it: on a manifest whose parseable lines are all
    well-formed records (objects whose [created_at], 0 when absent, reads as
    an integer), [_read_new_records] returns exactly the records whose
    [created_at] is at least the start timestamp, in file order, blank and
    unparseable lines being skipped; a parseable line that is not a
    well-formed record is not skipped: the read raises; a missing manifest
    gives no record; and when the selection is empty [main] prints its notice
    and returns, processing no video. *)
Theorem new_records_selected (env : Env) (lines : list pystr) (since_ts : Z) :
  (Forall (λ r, is_Some (created_at env r)) (manifest_records env lines) →
   _read_new_records env (Some lines) since_ts = inr (select_new env lines since_ts))
  ∧ (Exists (λ r, created_at env r = None) (manifest_records env lines) →
     ∃ e, _read_new_records env (Some lines) since_ts = inl e)
  ∧ (∀ r, r ∈ select_new env lines since_ts
          ↔ r ∈ manifest_records env lines
            ∧ ∃ n, created_at env r = Some n ∧ since_ts ≤ n)
  ∧ (∀ kv, assoc_get (lit "created_at") kv = None → created_at env (JDict kv) = Some 0)
  ∧ (∀ kv n, assoc_get (lit "created_at") kv = Some (JInt n) →
             created_at env (JDict kv) = Some n)
  ∧ _read_new_records env None since_ts = inr []
  ∧ ∀ w w1,
      run (emit EvAcquire;; video_loader_main env) w = (w1, inr tt) →
      manifest w1 = Some lines →
      _read_new_records env (Some lines) since_ts = inr [] →
      run (main env since_ts) w
      = (mkWorld (files w1) (dirs w1) (manifest w1)
                 (trace w1 ++ [EvPrint MsgNoNewRecords]), inr tt).
Proof.
  split; [intros Hwf; unfold _read_new_records; by rewrite read_lines_select|].
  split; [intros Hbad; by apply read_lines_raises|].
  split; [|split; [|split; [|split; [reflexivity|]]]].
  - intros r. unfold select_new. rewrite !list_elem_of_In, filter_In.
    unfold is_new. split.
    + intros [Hin Hn]. split; [done|].
      destruct (created_at env r) as [n|]; [|discriminate]. exists n. split; [done|lia].
    + intros [Hin (n & Hn & Hle)]. split; [done|]. rewrite Hn. lia.
  - intros kv Hkv. unfold created_at. by rewrite Hkv.
  - intros kv n Hkv. unfold created_at. by rewrite Hkv.
  - intros w w1 Hacq Hman Hempty.
    unfold main. munfold. unfold mkdir. simpl in Hacq |- *.
    destruct (video_loader_main env _) as [w' [e|[]]]; [discriminate|].
    injection Hacq as ->. rewrite Hman, Hempty. simpl. by rewrite Hman.
Qed.

(** A manifest with a line that is JSON but no record: the claim has the
    line skipped and the new record returned, the code raises. *)
Lemma non_record_line_aborts_read :
  json_loads env_manifest (strip (lit "[]")) = Some (JList [])
  ∧ manifest_records env_manifest [lit "new"; lit "[]"] = [record_at 100; JList []]
  ∧ select_new env_manifest [lit "new"; lit "[]"] 0 = [record_at 100]
  ∧ _read_new_records env_manifest (Some [lit "new"; lit "[]"]) 0 = inl AttributeError
  ∧ _read_new_records env_manifest (Some [lit "new"; lit "[]"]) 0
    ≠ inr (select_new env_manifest [lit "new"; lit "[]"] 0).
Proof.
  split; [reflexivity|]. split; [vm_compute; reflexivity|].
  split; [vm_compute; reflexivity|]. split; [vm_compute; reflexivity|].
  vm_compute. discriminate.
Qed.

Example selection_example :
  select_new env_manifest sample_manifest 100 = [record_at 100]
  ∧ _read_new_records env_manifest (Some sample_manifest) 100 = inr [record_at 100].
Proof. split; vm_compute; reflexivity. Qed.

(** A record without [created_at] counts as created at 0, and one whose
    [created_at] is [null] makes the read raise. *)
Example created_at_edge_cases :
  created_at env_manifest (JDict [(lit "video_path", JStr (lit "v.mp4"))]) = Some 0
  ∧ created_at env_manifest (JDict [(lit "created_at", JNull)]) = None
  ∧ created_at env_manifest (JDict [(lit "created_at", JBool true)]) = Some 1.
Proof. repeat split; reflexivity. Qed.

Example main_exits_early :
  run (main env_manifest 100) world_stale_manifest
  = (mkWorld ∅ ∅ (Some [lit "old"; lit "{broken"])
             [EvAcquire; EvPrint MsgNoNewRecords], inr tt).
Proof. vm_compute. reflexivity. Qed.

(** ** Decimal formatting *)

Lemma digits_value_snoc (ds : pystr) (c : char) :
  digits_value (ds ++ [c]) = 10 * digits_value ds + (Z.of_N c - 48).
Proof. unfold digits_value. by rewrite fold_left_app. Qed.

Lemma digit_char_spec (d : Z) :
  0 ≤ d < 10 → is_digit (digit_char d) = true ∧ Z.of_N (digit_char d) - 48 = d.
Proof.
  intros Hd. unfold is_digit, digit_char. split.
  - apply andb_true_iff. split; apply N.leb_le; lia.
  - lia.
Qed.

Lemma single_digit_spec (n : Z) (acc : pystr) :
  0 ≤ n → n < 10 →
  ∃ ds, digit_char (n mod 10) :: acc = ds ++ acc
        ∧ forallb is_digit ds = true
        ∧ digits_value ds = n
        ∧ (1 ≤ length ds)%nat
        ∧ ∀ k : nat, n < 10 ^ Z.of_nat (S k) → (length ds ≤ S k)%nat.
Proof.
  intros H0 H10. destruct (digit_char_spec n) as [Hd Hv]; [lia|].
  exists [digit_char n]. rewrite Z.mod_small by lia.
  split; [reflexivity|]. split; [simpl; by rewrite Hd|].
  split; [unfold digits_value; simpl; lia|].
  split; [simpl; lia|]. intros k _. simpl. lia.
Qed.

Lemma digits_fuel_spec (fuel : nat) (n : Z) (acc : pystr) :
  0 ≤ n < 10 ^ Z.of_nat (S fuel) →
  ∃ ds, digits_fuel fuel n acc = ds ++ acc
        ∧ forallb is_digit ds = true
        ∧ digits_value ds = n
        ∧ (1 ≤ length ds)%nat
        ∧ ∀ k : nat, n < 10 ^ Z.of_nat (S k) → (length ds ≤ S k)%nat.
Proof.
  revert n acc. induction fuel as [|fuel IH]; intros n acc Hn.
  - assert (n < 10) by (change (10 ^ Z.of_nat 1) with 10 in Hn; lia).
    simpl. apply single_digit_spec; lia.
  - simpl. destruct (n <? 10) eqn:E.
    + apply Z.ltb_lt in E. apply single_digit_spec; lia.
    + apply Z.ltb_ge in E.
      assert (Hq : 0 ≤ n / 10 < 10 ^ Z.of_nat (S fuel)).
      { split; [apply Z.div_pos; lia|].
        apply Z.div_lt_upper_bound; [lia|].
        replace (Z.of_nat (S (S fuel))) with (Z.succ (Z.of_nat (S fuel))) in Hn by lia.
        rewrite Z.pow_succ_r in Hn by lia. lia. }
      destruct (IH (n / 10) (digit_char (n mod 10) :: acc) Hq)
        as (ds & Heq & Hdig & Hval & Hlen & Hk).
      destruct (digit_char_spec (n mod 10)) as [Hd Hv];
        [apply Z.mod_pos_bound; lia|].
      exists (ds ++ [digit_char (n mod 10)]). split; [|split; [|split; [|split]]].
      * rewrite Heq, <- app_assoc. reflexivity.
      * rewrite forallb_app, Hdig. simpl. by rewrite Hd.
      * rewrite digits_value_snoc, Hval, Hv. pose proof (Z.div_mod n 10). lia.
      * rewrite length_app. simpl. lia.
      * intros [|k] Hlt; [change (10 ^ Z.of_nat 1) with 10 in Hlt; lia|].
        rewrite length_app. simpl.
        assert (n / 10 < 10 ^ Z.of_nat (S k)).
        { apply Z.div_lt_upper_bound; [lia|].
          replace (Z.of_nat (S (S k))) with (Z.succ (Z.of_nat (S k))) in Hlt by lia.
          rewrite Z.pow_succ_r in Hlt by lia. lia. }
        specialize (Hk k). lia.
Qed.

Lemma str_of_nonneg_spec (n : Z) :
  0 ≤ n →
  forallb is_digit (str_of_nonneg n) = true
  ∧ digits_value (str_of_nonneg n) = n
  ∧ (1 ≤ length (str_of_nonneg n))%nat
  ∧ ∀ k : nat, n < 10 ^ Z.of_nat (S k) → (length (str_of_nonneg n) ≤ S k)%nat.
Proof.
  intros Hn. unfold str_of_nonneg.
  assert (Hb : 0 ≤ n < 10 ^ Z.of_nat (S (Z.to_nat (Z.log2 n)))).
  { split; [done|]. pose proof (Z.log2_nonneg n) as Hl.
    rewrite Nat2Z.inj_succ, Z2Nat.id by done.
    destruct (Z.eq_dec n 0) as [->|Hne]; [done|].
    destruct (Z.log2_spec n) as [_ Hlt]; [lia|].
    eapply Z.lt_le_trans; [exact Hlt|].
    apply Z.pow_le_mono_l. lia. }
  destruct (digits_fuel_spec _ n [] Hb) as (ds & Heq & H1 & H2 & H3 & H4).
  rewrite Heq, app_nil_r. done.
Qed.

Lemma digits_value_zeros (k : nat) (s : pystr) :
  digits_value (repeat 48%N k ++ s) = digits_value s.
Proof.
  unfold digits_value. rewrite fold_left_app.
  replace (fold_left (λ a c, 10 * a + (Z.of_N c - 48)) (repeat 48%N k) 0) with 0; [done|].
  induction k as [|k IH]; simpl; [done|exact IH].
Qed.

Lemma forallb_digit_zeros (k : nat) : forallb is_digit (repeat 48%N k) = true.
Proof. induction k as [|k IH]; simpl; [done|exact IH]. Qed.

(** A non-negative number is printed as digits that read the number, padded
    to the width and never cut; below [10 ^ w] the width is exact. *)
Lemma fmt_0d_spec (w : nat) (n : Z) :
  0 ≤ n →
  padded_field w n (fmt_0d w n)
  ∧ (∀ k : nat, n < 10 ^ Z.of_nat (S k) → (S k ≤ w)%nat → decimal_field w n (fmt_0d w n)).
Proof.
  intros Hn. destruct (str_of_nonneg_spec n Hn) as (Hdig & Hval & Hlen & Hk).
  unfold fmt_0d. replace (n <? 0) with false by (symmetry; apply Z.ltb_ge; lia).
  rewrite Z.abs_eq by done. simpl.
  assert (Hd : forallb is_digit (repeat 48%N (w - 0 - length (str_of_nonneg n))
                                 ++ str_of_nonneg n) = true).
  { rewrite forallb_app, forallb_digit_zeros. exact Hdig. }
  assert (Hv : digits_value (repeat 48%N (w - 0 - length (str_of_nonneg n))
                             ++ str_of_nonneg n) = n).
  { by rewrite digits_value_zeros. }
  split.
  - split; [|done]. rewrite length_app, repeat_length. unfold pystr, char in *. lia.
  - intros k Hlt Hkw. split; [|done].
    rewrite length_app, repeat_length. specialize (Hk k Hlt).
    unfold pystr, char in *. lia.
Qed.

Lemma fmt_0d_min_width (w : nat) (n : Z) : (w ≤ length (fmt_0d w n))%nat.
Proof.
  unfold fmt_0d. rewrite !length_app, repeat_length.
  unfold pystr, char in *. lia.
Qed.

(** ** Timestamps in file names *)

Lemma to_int_nonneg (t : float) (n : Z) :
  fle f0 t = true → to_int t = Some n → 0 ≤ n.
Proof.
  destruct t as [s|s| |s m e]; simpl; try discriminate.
  - intros _ [= <-]. done.
  - unfold fle, f0, SFleb. simpl. destruct s; [discriminate|].
    intros _ [= <-]. destruct e as [|p|p].
    + lia.
    + apply Z.shiftl_nonneg. lia.
    + apply Z.shiftr_nonneg. lia.
Qed.

Lemma sec_to_fname_ts_inv (t : float) (ts : pystr) :
  _sec_to_fname_ts t = Some ts →
  ∃ n ms, to_int t = Some n ∧ ms_of t = Some ms
          ∧ ts = fmt_0d 2 (n / 3600) ++ lit "-" ++ fmt_0d 2 (n / 60 mod 60)
                 ++ lit "-" ++ fmt_0d 2 (n mod 60) ++ lit "-" ++ fmt_0d 3 ms.
Proof.
  unfold _sec_to_fname_ts, ms_of. destruct (to_int t) as [n|]; [|discriminate].
  simpl. destruct (py_round _) as [ms|]; [|discriminate]. simpl.
  intros [= <-]. by exists n, ms.
Qed.

(** The time points of the driver are clamped by [max(0.0, _)]: none is
    negative, none is a NaN. *)
Lemma py_max_f0_nonneg (x : float) : fle f0 (py_max f0 x) = true.
Proof.
  unfold py_max, fgt, fle, SFleb, SFltb.
  destruct (SFcompare f0 x) as [[| |]|] eqn:E; try reflexivity.
  rewrite E. reflexivity.
Qed.

Lemma time_points_nonneg (duration : float) (e : SubtitleEntry) :
  fle f0 (start_time_of duration e) = true
  ∧ fle f0 (mid_time_of duration e) = true
  ∧ fle f0 (end_time_of duration e) = true.
Proof. repeat split; apply py_max_f0_nonneg. Qed.

(** C7, as the code has it: for every finite timestamp [t >= 0] the name
    is computed and the frame is called [H-MM-SS-mmm_role.jpg], where [MM] and
    [SS] are exactly two decimal digits reading the minutes and seconds of
    [int(t)], [H] reads the hours on at least two digits (exactly two below
    100 hours), and the last field reads the milliseconds, the fraction times
    1000 rounded to an integer between 0 and 1000, on at least three digits
    (exactly three below 1000). *)
Theorem frame_name_fields (t : float) (frame_type : pystr) :
  valid_binary prec emax t = true → is_finite t = true → fle f0 t = true →
  ∃ ts n ms,
    _sec_to_fname_ts t = Some ts
    ∧ to_int t = Some n ∧ ms_of t = Some ms ∧ 0 ≤ n ∧ 0 ≤ ms ≤ 1000
    ∧ frame_fname ts frame_type
      = fmt_0d 2 (n / 3600) ++ lit "-" ++ fmt_0d 2 (n / 60 mod 60) ++ lit "-"
        ++ fmt_0d 2 (n mod 60) ++ lit "-" ++ fmt_0d 3 ms
        ++ lit "_" ++ frame_type ++ lit ".jpg"
    ∧ padded_field 2 (n / 3600) (fmt_0d 2 (n / 3600))
    ∧ (n < 360000 → decimal_field 2 (n / 3600) (fmt_0d 2 (n / 3600)))
    ∧ decimal_field 2 (n / 60 mod 60) (fmt_0d 2 (n / 60 mod 60))
    ∧ decimal_field 2 (n mod 60) (fmt_0d 2 (n mod 60))
    ∧ padded_field 3 ms (fmt_0d 3 ms)
    ∧ (ms < 1000 → decimal_field 3 ms (fmt_0d 3 ms)).
Proof.
  intros Hv Hfin Hpos.
  destruct (ms_of_bounds t Hv Hfin Hpos) as (n & ms & Hn & Hms & Hms0).
  pose proof (to_int_nonneg t n Hpos Hn) as Hn0.
  eexists _, n, ms. split.
  { unfold _sec_to_fname_ts. rewrite Hn. cbv [mbind option_bind].
    rewrite Hms. reflexivity. }
  split; [done|].
  split; [unfold ms_of; rewrite Hn; exact Hms|].
  split; [done|]. split; [done|].
  split; [unfold frame_fname; by rewrite <- !app_assoc|].
  assert (Hh : 0 ≤ n / 3600) by (apply Z.div_pos; lia).
  assert (Hm : 0 ≤ n / 60 mod 60 < 60) by (apply Z.mod_pos_bound; lia).
  assert (Hs : 0 ≤ n mod 60 < 60) by (apply Z.mod_pos_bound; lia).
  split; [apply fmt_0d_spec; lia|].
  split.
  { intros Hlt. apply (proj2 (fmt_0d_spec 2 (n / 3600) Hh) 1%nat); [|lia].
    change (10 ^ Z.of_nat 2) with 100. apply Z.div_lt_upper_bound; lia. }
  split.
  { apply (proj2 (fmt_0d_spec 2 _ (proj1 Hm)) 1%nat); [|lia].
    change (10 ^ Z.of_nat 2) with 100. lia. }
  split.
  { apply (proj2 (fmt_0d_spec 2 _ (proj1 Hs)) 1%nat); [|lia].
    change (10 ^ Z.of_nat 2) with 100. lia. }
  split; [apply fmt_0d_spec; lia|].
  intros H1. apply (proj2 (fmt_0d_spec 3 ms (proj1 Hms0)) 2%nat); [|lia].
  change (10 ^ Z.of_nat 3) with 1000. lia.
Qed.

Lemma frame_name_fields_witness :
  valid_binary prec emax (dec 83456 1000) = true
  ∧ is_finite (dec 83456 1000) = true
  ∧ fle f0 (dec 83456 1000) = true
  ∧ ∃ ts n ms,
      _sec_to_fname_ts (dec 83456 1000) = Some ts
      ∧ to_int (dec 83456 1000) = Some n ∧ ms_of (dec 83456 1000) = Some ms
      ∧ 0 ≤ n ∧ 0 ≤ ms ≤ 1000
      ∧ frame_fname ts (lit "mid")
        = fmt_0d 2 (n / 3600) ++ lit "-" ++ fmt_0d 2 (n / 60 mod 60) ++ lit "-"
          ++ fmt_0d 2 (n mod 60) ++ lit "-" ++ fmt_0d 3 ms
          ++ lit "_" ++ lit "mid" ++ lit ".jpg"
      ∧ padded_field 2 (n / 3600) (fmt_0d 2 (n / 3600))
      ∧ (n < 360000 → decimal_field 2 (n / 3600) (fmt_0d 2 (n / 3600)))
      ∧ decimal_field 2 (n / 60 mod 60) (fmt_0d 2 (n / 60 mod 60))
      ∧ decimal_field 2 (n mod 60) (fmt_0d 2 (n mod 60))
      ∧ padded_field 3 ms (fmt_0d 3 ms)
      ∧ (ms < 1000 → decimal_field 3 ms (fmt_0d 3 ms)).
Proof.
  split; [vm_compute; reflexivity|].
  split; [vm_compute; reflexivity|].
  split; [vm_compute; reflexivity|].
  apply (frame_name_fields (dec 83456 1000) (lit "mid")); vm_compute; reflexivity.
Defined.

Example frame_name_example :
  option_map (λ ts, frame_fname ts (lit "mid")) (_sec_to_fname_ts (dec 83456 1000))
  = Some (lit "00-01-23-456_mid.jpg").
Proof. vm_compute. reflexivity. Qed.

(** A timestamp of one hundred hours: the hours take three characters, so the
    name is not of the shape two-two-two-three. *)
Lemma hours_field_grows :
  fle f0 (of_int 360000) = true
  ∧ _sec_to_fname_ts (of_int 360000) = Some (lit "100-00-00-000")
  ∧ ¬ ∃ hh mm ss mmm : pystr,
        length hh = 2%nat ∧ length mm = 2%nat ∧ length ss = 2%nat
        ∧ length mmm = 3%nat
        ∧ lit "100-00-00-000" = hh ++ lit "-" ++ mm ++ lit "-" ++ ss ++ lit "-" ++ mmm.
Proof.
  split; [vm_compute; reflexivity|].
  split; [vm_compute; reflexivity|].
  intros (hh & mm & ss & mmm & H1 & H2 & H3 & H4 & Heq).
  apply (f_equal length) in Heq. rewrite !length_app, H1, H2, H3, H4 in Heq.
  vm_compute in Heq. discriminate.
Qed.

(** Rounding the fraction may give 1000: the last field then has four
    digits. *)
Example milliseconds_round_up_to_1000 :
  _sec_to_fname_ts (dec 109996 10000) = Some (lit "00-00-10-1000")
  ∧ ms_of (dec 109996 10000) = Some 1000
  ∧ ms_of (fdiv (fadd (dec 105 10) (dec 11499 1000)) f2) = Some 1000.
Proof. repeat split; vm_compute; reflexivity. Qed.

(** ** Comparison of floats *)

Lemma SFcompare_swap (x y : float) :
  SFcompare y x = option_map CompOpp (SFcompare x y).
Proof.
  destruct x as [sx|sx| |sx mx ex], y as [sy|sy| |sy my ey]; simpl;
    try reflexivity; try (destruct sx; reflexivity); try (destruct sy; reflexivity);
    try (destruct sx, sy; reflexivity).
  assert (Hm : Pos.compare_cont Eq my mx = CompOpp (Pos.compare_cont Eq mx my)).
  { by rewrite (Pos.compare_cont_antisym mx my Eq). }
  destruct sx, sy; simpl; try reflexivity;
    rewrite (Z.compare_antisym ex ey); destruct (ex ?= ey); simpl; try reflexivity;
    rewrite Hm; by rewrite ?CompOpp_involutive.
Qed.

Lemma fle_false_fgt (x y : float) :
  is_nan x = false → is_nan y = false → fle x y = false → fgt x y = true.
Proof.
  unfold fle, fgt, SFleb, SFltb. rewrite (SFcompare_swap x y).
  intros Hx Hy. destruct (SFcompare x y) as [[| |]|] eqn:E; simpl; try done.
  destruct x, y; simpl in *; try discriminate;
    repeat match goal with s : bool |- _ => destruct s end; discriminate.
Qed.

Lemma fle_true_not_fgt (x y : float) : fle x y = true → fgt x y = false.
Proof.
  unfold fle, fgt, SFleb, SFltb. rewrite (SFcompare_swap x y).
  destruct (SFcompare x y) as [[| |]|]; simpl; done.
Qed.

(** ** Normalisation of cues *)

(** C5, as the code has it: a cue whose raw end is at most its raw start is
    emitted with end [start + 0.5], any other cue is emitted as it is; the
    emitted entry has [end > start] exactly when the raw end was beyond the
    raw start or adding 0.5 to the start gives a greater number; this is the
    case whenever the raw end is not a NaN and the raw start is a double with
    [0 <= start < 2 ^ 52]. *)
Theorem cue_normalised (start_s end_s : float) (t : pystr) :
  start (normalize_cue start_s end_s t) = start_s
  ∧ text (normalize_cue start_s end_s t) = t
  ∧ (fle end_s start_s = true →
     end_ (normalize_cue start_s end_s t) = fadd start_s f0_5)
  ∧ (fle end_s start_s = false → end_ (normalize_cue start_s end_s t) = end_s)
  ∧ (fgt (end_ (normalize_cue start_s end_s t)) (start (normalize_cue start_s end_s t))
     = true
     ↔ fgt end_s start_s = true
       ∨ (fle end_s start_s = true ∧ fgt (fadd start_s f0_5) start_s = true))
  ∧ (valid_binary prec emax start_s = true →
     fle f0 start_s = true → flt start_s two_pow_52 = true →
     is_nan end_s = false →
     fgt (end_ (normalize_cue start_s end_s t)) (start (normalize_cue start_s end_s t))
     = true)
  ∧ ∀ cues entry,
      entry ∈ parse_cues cues →
      ∃ s e x, (s, e, x) ∈ cues ∧ entry = normalize_cue s e x.
Proof.
  unfold normalize_cue. simpl.
  split; [done|]. split; [done|].
  split; [by intros ->|]. split; [by intros ->|]. split; [|split].
  - destruct (fle end_s start_s) eqn:E.
    + pose proof (fle_true_not_fgt _ _ E) as Hn. rewrite Hn. split.
      * intros H. right. done.
      * intros [H|[_ H]]; [discriminate|done].
    + split; [by left|]. intros [H|[H _]]; [done|discriminate].
  - intros Hv Hpos Hlt He. destruct (fle end_s start_s) eqn:E.
    + by apply fadd_half_gt.
    + apply fle_false_fgt; [done| |done].
      destruct start_s; try done.
  - intros cues entry Hin. unfold parse_cues in Hin.
    apply list_elem_of_In, in_map_iff in Hin as ([[s e] x] & Heq & Hin).
    exists s, e, x. split; [by apply list_elem_of_In|done].
Qed.

Lemma cue_normalised_witness :
  fle (of_int 3) (of_int 3) = true
  ∧ valid_binary prec emax (of_int 3) = true
  ∧ fle f0 (of_int 3) = true ∧ flt (of_int 3) two_pow_52 = true
  ∧ is_nan (of_int 3) = false
  ∧ end_ (normalize_cue (of_int 3) (of_int 3) (lit "Hi")) = fadd (of_int 3) f0_5
  ∧ fgt (end_ (normalize_cue (of_int 3) (of_int 3) (lit "Hi")))
        (start (normalize_cue (of_int 3) (of_int 3) (lit "Hi"))) = true.
Proof.
  split; [vm_compute; reflexivity|].
  split; [vm_compute; reflexivity|].
  split; [vm_compute; reflexivity|].
  split; [vm_compute; reflexivity|].
  split; [vm_compute; reflexivity|].
  pose proof (cue_normalised (of_int 3) (of_int 3) (lit "Hi"))
    as (_ & _ & H1 & _ & _ & H2 & _).
  split; [apply H1|apply H2]; vm_compute; reflexivity.
Defined.

(** A start time that is not a number (the SRT parser hands [float] the text
    before the arrow, and [float] accepts the three letters n, a, n): the
    test [end <= start] is false, the cue is emitted as it is, and the
    emitted entry does not have [end > start]. *)
Lemma nan_start_is_not_ordered :
  parse_cues [(S754_nan, of_int 2, lit "Hi")]
  = [mkEntry S754_nan (of_int 2) (lit "Hi")]
  ∧ fle (of_int 2) S754_nan = false
  ∧ ¬ (∀ entry, entry ∈ parse_cues [(S754_nan, of_int 2, lit "Hi")] →
                fgt (end_ entry) (start entry) = true).
Proof.
  split; [reflexivity|]. split; [reflexivity|].
  intros H. specialize (H (mkEntry S754_nan (of_int 2) (lit "Hi"))).
  assert (Hin : mkEntry S754_nan (of_int 2) (lit "Hi")
                ∈ parse_cues [(S754_nan, of_int 2, lit "Hi")]).
  { apply list_elem_of_singleton. reflexivity. }
  specialize (H Hin). vm_compute in H. discriminate.
Qed.

(** A start so large that adding 0.5 is absorbed by the rounding. *)
Example large_start_is_absorbed :
  fadd (of_int 36000000000000000) f0_5 = of_int 36000000000000000
  ∧ fgt (end_ (normalize_cue (of_int 36000000000000000) (of_int 36000000000000000) []))
        (start (normalize_cue (of_int 36000000000000000) (of_int 36000000000000000) []))
    = false.
Proof. split; vm_compute; reflexivity. Qed.

(** ** The frame loop of the driver *)

Lemma count_events_app (p : Event -> bool) (a b : list Event) :
  count_events p (a ++ b) = count_events p a + count_events p b.
Proof. unfold count_events. rewrite List.filter_app, length_app. lia. Qed.

Lemma count_events_nonneg (p : Event -> bool) (evs : list Event) :
  0 ≤ count_events p evs.
Proof. unfold count_events. lia. Qed.

Lemma count_events_passive (evs : list Event) :
  forallb is_passive evs = true →
  count_events is_extract evs = 0 ∧ count_events is_extract_ok evs = 0
  ∧ count_events is_unlink evs = 0 ∧ (∀ p, EvUnlink p ∉ evs).
Proof.
  induction evs as [|ev evs IH]; simpl.
  - intros _. split; [done|]. split; [done|]. split; [done|].
    intros q H. inversion H.
  - intros [Hq Hr]%andb_true_iff. destruct (IH Hr) as (H1 & H2 & H3 & H4).
    unfold count_events in *. simpl.
    destruct ev as [| ? ? ? ok| | | | | |]; try discriminate Hq; simpl;
      (split; [done|]); (split; [done|]); (split; [done|]);
      intros q [Hp|Hp]%elem_of_cons; try discriminate Hp; by apply (H4 q).
Qed.

Lemma quiet_passive (evs : list Event) :
  forallb is_quiet evs = true → forallb is_passive evs = true.
Proof.
  induction evs as [|ev evs IH]; simpl; [done|].
  intros [Hq Hr]%andb_true_iff. rewrite IH by done.
  unfold is_quiet, is_passive in *. destruct (is_extract ev), (is_unlink ev), (is_hash ev); done.
Qed.

Lemma hash_events_passive (w : World) (p : pystr) :
  forallb is_passive (hash_events w p) = true.
Proof. unfold hash_events. by destruct (phash_at w p). Qed.

(** [extract_frame] writes to its output path and nowhere else. *)
Lemma extract_frame_files (env : Env) (video : pystr) (t : float) (out : pystr)
    (w : World) (p : pystr) :
  p ≠ out → files (fst (run (extract_frame env video t out) w)) !! p = files w !! p.
Proof.
  intros Hp. unfold extract_frame, apply_run. munfold. simpl.
  destruct (raised (ffmpeg_seek env (files w) video (py_max t f0) out)); simpl.
  - destruct (raised (ffmpeg_window env _ video (py_max t f0) out)); simpl;
      repeat (match goal with
              | |- context [written ?r] => destruct (written r)
              end; simpl); rewrite ?lookup_insert_ne by done; reflexivity.
  - destruct (written _); simpl; rewrite ?lookup_insert_ne by done; reflexivity.
Qed.

Lemma extract_frame_effects (env : Env) (video : pystr) (t : float) (out : pystr)
    (w : World) :
  ∃ w1 ok evs,
    run (extract_frame env video t out) w = (w1, inr ok)
    ∧ trace w1 = trace w ++ evs ∧ dirs w1 = dirs w ∧ manifest w1 = manifest w
    ∧ (∀ p, p ≠ out → files w1 !! p = files w !! p)
    ∧ count_events is_extract evs = 1
    ∧ count_events is_extract_ok evs = (if ok then 1 else 0)
    ∧ count_events is_unlink evs = 0
    ∧ (∀ p, EvUnlink p ∉ evs)
    ∧ (ok = true → exists_nonempty (files w1) out = true)
    ∧ (ok = true → EvExtract video t out true ∈ evs).
Proof.
  destruct (extract_frame_spec env video t out w)
    as (fs1 & ok & evs & Hrun & Hq & Hok & _).
  pose proof (extract_frame_files env video t out w) as Hfr. rewrite Hrun in Hfr.
  destruct (count_events_passive evs (quiet_passive evs Hq)) as (H1 & H2 & H3 & H4).
  eexists _, ok, (evs ++ [EvExtract video t out ok]).
  split; [exact Hrun|]. cbn [trace dirs manifest files fst] in *.
  split; [done|]. split; [done|]. split; [done|]. split; [exact Hfr|].
  rewrite !count_events_app, H1, H2, H3.
  split; [reflexivity|]. split; [by destruct ok|]. split; [reflexivity|].
  split; [|split; [exact Hok|]].
  - intros p [Hp|Hp]%elem_of_app; [by apply (H4 p)|].
    apply list_elem_of_singleton in Hp. discriminate.
  - intros ->. apply elem_of_app. right. by apply list_elem_of_singleton.
Qed.

Lemma extract_with_retry_effects (env : Env) (video : pystr) (t : float)
    (out : pystr) (w : World) :
  ∃ w1 ok evs,
    run (extract_with_retry env video t out) w = (w1, inr ok)
    ∧ trace w1 = trace w ++ evs ∧ dirs w1 = dirs w ∧ manifest w1 = manifest w
    ∧ (∀ p, p ≠ out → files w1 !! p = files w !! p)
    ∧ 1 ≤ count_events is_extract evs ≤ 2
    ∧ count_events is_extract_ok evs = (if ok then 1 else 0)
    ∧ count_events is_unlink evs = 0
    ∧ (∀ p, EvUnlink p ∉ evs)
    ∧ (ok = true → exists_nonempty (files w1) out = true)
    ∧ (ok = true → ∃ t', EvExtract video t' out true ∈ evs).
Proof.
  destruct (extract_frame_effects env video t out w)
    as (w1 & ok1 & evs1 & Hrun1 & Ht1 & Hd1 & Hm1 & Hf1 & Hc1 & Ho1 & Hu1 & Hn1 & Hok1 & Hin1).
  unfold extract_with_retry. rewrite run_bind, Hrun1.
  destruct (negb ok1 && fgt t f0) eqn:Hretry.
  - apply andb_true_iff in Hretry as [Hneg _]. apply negb_true_iff in Hneg. subst ok1.
    destruct (extract_frame_effects env video (py_max f0 (fsub t f0_2)) out w1)
      as (w2 & ok2 & evs2 & Hrun2 & Ht2 & Hd2 & Hm2 & Hf2 & Hc2 & Ho2 & Hu2 & Hn2 & Hok2 & Hin2).
    eexists w2, ok2, (evs1 ++ evs2). split; [exact Hrun2|].
    rewrite !count_events_app, Hc1, Hc2, Ho1, Ho2, Hu1, Hu2.
    split; [by rewrite Ht2, Ht1, app_assoc|]. split; [congruence|]. split; [congruence|].
    split; [intros p Hp; by rewrite Hf2, Hf1|].
    split; [lia|]. split; [reflexivity|]. split; [reflexivity|].
    split; [|split; [exact Hok2|]].
    + intros p [Hp|Hp]%elem_of_app; [by apply (Hn1 p)|by apply (Hn2 p)].
    + intros Hk. eexists. apply elem_of_app. right. by apply Hin2.
  - eexists w1, ok1, evs1. split; [reflexivity|].
    rewrite Hc1, Ho1, Hu1. repeat (split; [done || lia|]).
    intros Hk. eexists. by apply Hin1.
Qed.

(** The outcome of [is_similar_to_previous] in all cases. *)
Lemma run_is_similar (p : pystr) (prev : gset pystr) (thr : Z) (w : World) :
  ∃ b,
    run (is_similar_to_previous p prev thr) w = (after_similarity_test w p prev, inr b)
    ∧ (b = true → ∃ h q, phash_at w p = Some h ∧ q ∈ prev ∧ hamming_distance h q ≤ thr)
    ∧ (b = false → ∀ h, phash_at w p = Some h → truthy h = true →
                   ∀ q, q ∈ prev → thr < hamming_distance h q).
Proof.
  destruct (truthy_opt (phash_at w p)) eqn:Htr.
  - destruct (phash_at w p) as [h|] eqn:Hh; [|discriminate]. simpl in Htr.
    rewrite (run_is_similar_hashed p prev thr w h Hh Htr).
    eexists. split; [reflexivity|]. split.
    + intros (q & Hq & Hd)%existsb_elements_iff. exists h, q.
      split; [done|]. split; [done|]. lia.
    + intros Hb h' [= <-] _ q Hq.
      destruct (Z.leb_spec (hamming_distance h q) thr) as [Hle|Hlt]; [|lia].
      exfalso. apply not_true_iff_false in Hb. apply Hb.
      apply existsb_elements_iff. exists q. split; [done|]. lia.
  - rewrite (run_is_similar_unhashed p prev thr w Htr).
    eexists. split; [reflexivity|]. split; [discriminate|].
    intros _ h Hh Ht. rewrite Hh in Htr. simpl in Htr. congruence.
Qed.

Lemma trace_after_similarity_test (w : World) (p : pystr) (prev : gset pystr) :
  ∃ evs, trace (after_similarity_test w p prev) = trace w ++ evs
         ∧ forallb is_passive evs = true
         ∧ dirs (after_similarity_test w p prev) = dirs w
         ∧ manifest (after_similarity_test w p prev) = manifest w.
Proof.
  unfold after_similarity_test. case_bool_decide.
  - exists []. by rewrite app_nil_r.
  - exists (hash_events w p). rewrite trace_after_hash.
    split; [done|]. split; [apply hash_events_passive|done].
Qed.

Lemma hamming_distance_sym (a b : pystr) : hamming_distance a b = hamming_distance b a.
Proof.
  revert b. induction a as [|c a IH]; intros [|d b]; simpl; try reflexivity.
  rewrite IH. repeat case_bool_decide; congruence.
Qed.

Lemma well_separated_insert (thr : Z) (h : pystr) (hs : gset pystr) :
  well_separated thr hs → (∀ q, q ∈ hs → thr < hamming_distance h q) →
  well_separated thr ({[h]} ∪ hs).
Proof.
  intros Hws Hnew a b Ha Hb Hab.
  apply elem_of_union in Ha as [Ha%elem_of_singleton|Ha];
    apply elem_of_union in Hb as [Hb%elem_of_singleton|Hb]; subst.
  - done.
  - rewrite <- hamming_char_distance. by apply Hnew.
  - rewrite <- hamming_char_distance, hamming_distance_sym. by apply Hnew.
  - by apply Hws.
Qed.

(** What [classify_frame] does to an extracted frame: it is deleted and
    counted as skipped, or kept and counted as saved. *)
Lemma classify_frame_effects (out fname : pystr) (thr : Z) (acc : Acc) (w : World) :
  ∃ w2 acc' evs,
    run (classify_frame out fname thr acc) w = (w2, inr acc')
    ∧ trace w2 = trace w ++ evs ∧ dirs w2 = dirs w ∧ manifest w2 = manifest w
    ∧ (∀ p, p ≠ out → files w2 !! p = files w !! p)
    ∧ count_events is_extract evs = 0
    ∧ count_events is_extract_ok evs = 0
    ∧ (∀ p, EvUnlink p ∈ evs → p = out)
    ∧ (well_separated thr (saved_hashes acc) → well_separated thr (saved_hashes acc'))
    ∧ ((skipped_count acc' = skipped_count acc + 1
        ∧ saved_count acc' = saved_count acc
        ∧ saved_hashes acc' = saved_hashes acc
        ∧ count_events is_unlink evs = 1
        ∧ files w2 !! out = None
        ∧ ∃ h q, phash_at w out = Some h ∧ q ∈ saved_hashes acc
                 ∧ hamming_distance h q ≤ thr)
       ∨ (skipped_count acc' = skipped_count acc
          ∧ saved_count acc' = saved_count acc + 1
          ∧ count_events is_unlink evs = 0
          ∧ files w2 = files w
          ∧ saved_hashes acc' = match phash_at w out with
                                | Some (c :: cs) => {[c :: cs]} ∪ saved_hashes acc
                                | _ => saved_hashes acc
                                end)).
Proof.
  destruct (run_is_similar out (saved_hashes acc) thr w) as (b & Hsim & Htrue & Hfalse).
  destruct (trace_after_similarity_test w out (saved_hashes acc))
    as (evs0 & Ht0 & Hp0 & Hd0 & Hm0).
  destruct (phash_after_similarity_test w out (saved_hashes acc)) as [Hph Hfs].
  destruct (count_events_passive evs0 Hp0) as (H1 & H2 & H3 & H4).
  set (wa := after_similarity_test w out (saved_hashes acc)) in *.
  destruct b.
  - destruct (Htrue eq_refl) as (h & q & Hh & Hq & Hd).
    eexists _, _, (evs0 ++ [EvUnlink out; EvPrint (MsgSkipSimilar fname)]).
    split.
    { unfold classify_frame. rewrite run_bind, Hsim. cbv beta iota.
      unfold unlink. munfold. simpl. rewrite Ht0, <- !app_assoc. reflexivity. }
    cbn [trace dirs manifest files saved_hashes saved_count skipped_count].
    rewrite !count_events_app, H1, H2, H3.
    split; [reflexivity|]. split; [done|]. split; [done|].
    split; [intros p Hp; rewrite lookup_delete_ne by done; by rewrite Hfs|].
    split; [reflexivity|]. split; [reflexivity|].
    split.
    { intros p [Hp|Hp]%elem_of_app; [by destruct (H4 p)|].
      apply elem_of_cons in Hp as [[= ->]|Hp]; [done|].
      apply list_elem_of_singleton in Hp. discriminate. }
    split; [done|]. left.
    split; [reflexivity|]. split; [reflexivity|]. split; [reflexivity|].
    split; [reflexivity|]. split; [by rewrite lookup_delete_eq|].
    by exists h, q.
  - pose proof (run_classify_not_similar out fname thr acc w Hsim) as Hcl.
    cbv zeta in Hcl. fold wa in Hcl.
    assert (Htr : trace (after_hash wa out) = trace w ++ (evs0 ++ hash_events wa out))
      by (by rewrite trace_after_hash, Ht0, app_assoc).
    destruct (count_events_passive _ (hash_events_passive wa out)) as (G1 & G2 & G3 & G4).
    assert (Hsep : well_separated thr (saved_hashes acc) →
                   well_separated thr (match phash_at w out with
                                       | Some (c :: cs) => {[c :: cs]} ∪ saved_hashes acc
                                       | _ => saved_hashes acc
                                       end)).
    { intros Hws. destruct (phash_at w out) as [[|c cs]|] eqn:Hh; try done.
      apply well_separated_insert; [done|]. intros q Hq.
      by apply (Hfalse eq_refl (c :: cs)). }
    destruct (phash_at w out) as [[|c cs]|] eqn:Hh.
    all: eexists _, _, ((evs0 ++ hash_events wa out) ++ [_]);
      (split; [exact Hcl|]);
      cbn [trace dirs manifest files saved_hashes saved_count skipped_count];
      rewrite !count_events_app, H1, H2, H3, G1, G2, G3, files_after_hash, Hfs;
      (split; [rewrite Htr, <- app_assoc; reflexivity|]);
      (split; [exact Hd0|]); (split; [exact Hm0|]);
      (split; [done|]); (split; [reflexivity|]); (split; [reflexivity|]);
      (split; [intros p [[Hp|Hp]%elem_of_app|Hp]%elem_of_app;
               [by destruct (H4 p)|by destruct (G4 p)|
                apply list_elem_of_singleton in Hp; discriminate]|]);
      (split; [exact Hsep|]); right; done.
Qed.

Lemma loop_state_start (out_dir : pystr) (thr : Z) (w0 : World) (acc0 : Acc) :
  loop_state out_dir thr w0 acc0 0 w0 acc0.
Proof.
  exists []. rewrite app_nil_r. unfold count_events. simpl.
  repeat (split; [done || lia|]). split; [|done].
  intros p Hp. inversion Hp.
Qed.

Lemma loop_state_weaken (out_dir : pystr) (thr : Z) (w0 : World) (acc0 : Acc)
    (b b' : Z) (w : World) (acc : Acc) :
  b ≤ b' → loop_state out_dir thr w0 acc0 b w acc → loop_state out_dir thr w0 acc0 b' w acc.
Proof.
  intros Hb (evs & H1 & H2 & H3 & H4 & H5 & H6 & H7 & H8).
  exists evs. repeat (split; [done || lia|]). done.
Qed.

(** One time point: at most two calls of [extract_frame]; a frame is counted
    exactly when the final call succeeded, deleted exactly when it is counted
    as skipped, and recorded only if it is far from all recorded ones. *)
Lemma process_time_point_step (env : Env) (video_path out_dir : pystr) (thr : Z)
    (w0 : World) (acc0 : Acc) (bound : Z) (acc : Acc) (tp : float * pystr)
    (w w2 : World) (acc' : Acc) :
  loop_state out_dir thr w0 acc0 bound w acc →
  run (process_time_point env video_path out_dir thr acc tp) w = (w2, inr acc') →
  loop_state out_dir thr w0 acc0 (bound + 2) w2 acc'.
Proof.
  destruct tp as [t frame_type].
  intros (evs & Htr & Hdi & Hma & Hfi & Hsk & Hsa & Hex & Hun & Hws) Hrun.
  unfold process_time_point in Hrun. rewrite run_bind in Hrun.
  unfold fname_ts_or_raise in Hrun.
  destruct (_sec_to_fname_ts t) as [ts_name|]; [|discriminate].
  rewrite run_ret, run_bind in Hrun.
  set (fname := frame_fname ts_name frame_type) in *.
  set (out_img := path_join out_dir fname) in *.
  destruct (extract_with_retry_effects env video_path t out_img w)
    as (w1 & ok & evs1 & Hr & Ht1 & Hd1 & Hm1 & Hf1 & Hc1 & Ho1 & Hu1 & Hn1 & _ & Hin1).
  rewrite Hr in Hrun. destruct ok.
  - destruct (classify_frame_effects out_img fname thr acc w1)
      as (w2' & acc2 & evs2 & Hcl & Ht2 & Hd2 & Hm2 & Hf2 & Hc2 & Ho2 & Hu2 & Hws2 & Hcase).
    rewrite Hcl in Hrun. injection Hrun as <- <-.
    exists (evs ++ evs1 ++ evs2).
    rewrite !count_events_app, Hc2, Ho2, Ho1, Hu1.
    split; [by rewrite Ht2, Ht1, Htr, <- !app_assoc|].
    split; [congruence|]. split; [congruence|].
    split.
    { intros p Hp. rewrite Hf2, Hf1 by apply Hp. by apply Hfi. }
    assert (Hown : unlinks_own_frames (evs ++ evs1 ++ evs2)).
    { intros p [Hp|[Hp|Hp]%elem_of_app]%elem_of_app.
      - destruct (Hun p Hp) as (v & t' & Hin). exists v, t'.
        apply elem_of_app. by left.
      - by destruct (Hn1 p).
      - apply Hu2 in Hp. subst p. destruct (Hin1 eq_refl) as (t' & Hin).
        exists video_path, t'. apply elem_of_app. right. apply elem_of_app. by left. }
    destruct Hcase as [(Hs & Hv & Hh & Hk & _)|(Hs & Hv & Hk & _)];
      rewrite Hk; (split; [lia|]); (split; [lia|]); (split; [lia|]);
      (split; [exact Hown|]); intros H; apply Hws2, Hws, H.
  - rewrite run_ret in Hrun. injection Hrun as <- <-.
    exists (evs ++ evs1). rewrite !count_events_app, Ho1, Hu1.
    split; [by rewrite Ht1, Htr, <- !app_assoc|].
    split; [congruence|]. split; [congruence|].
    split.
    { intros p Hp. rewrite Hf1 by apply Hp. by apply Hfi. }
    split; [lia|]. split; [lia|]. split; [lia|]. split; [|done].
    intros p [Hp|Hp]%elem_of_app.
    + destruct (Hun p Hp) as (v & t' & Hin). exists v, t'. apply elem_of_app. by left.
    + by destruct (Hn1 p).
Qed.

Lemma foldM_inv_n {A B} (f : B -> A -> M B) (I : Z -> World -> B -> Prop) (k : Z)
    (l : list A) :
  (∀ n b x w w' b', I n w b → run (f b x) w = (w', inr b') → I (n + k) w' b') →
  ∀ n b w w' b',
    I n w b → run (foldM f l b) w = (w', inr b') →
    I (n + k * Z.of_nat (length l)) w' b'.
Proof.
  intros Hf. induction l as [|x l IH]; intros n b w w' b' Hinv Hrun.
  - cbn [foldM] in Hrun. rewrite run_ret in Hrun. injection Hrun as <- <-.
    replace (n + k * Z.of_nat (length (@nil A))) with n by (simpl length; lia).
    exact Hinv.
  - rewrite run_foldM_cons in Hrun.
    destruct (run (f b x) w) as [w1 [e|b1]] eqn:Hstep; [discriminate|].
    replace (n + k * Z.of_nat (length (x :: l)))
      with ((n + k) + k * Z.of_nat (length l)) by (simpl length; lia).
    eapply IH; [|exact Hrun]. eapply Hf; [exact Hinv|exact Hstep].
Qed.

Lemma process_entry_step (env : Env) (video_path out_dir : pystr) (duration : float)
    (thr : Z) (w0 : World) (acc0 : Acc) (bound : Z) (acc : Acc) (e : SubtitleEntry)
    (w w2 : World) (acc' : Acc) :
  loop_state out_dir thr w0 acc0 bound w acc →
  run (process_entry env video_path out_dir duration thr acc e) w = (w2, inr acc') →
  loop_state out_dir thr w0 acc0 (bound + 6) w2 acc'.
Proof.
  intros Hinv Hrun. unfold process_entry in Hrun.
  destruct (flt (start_time_of duration e) f10).
  - rewrite run_ret in Hrun. injection Hrun as <- <-.
    eapply loop_state_weaken; [|exact Hinv]. lia.
  - pose proof (foldM_inv_n (process_time_point env video_path out_dir thr)
                  (loop_state out_dir thr w0 acc0) 2 _
                  (λ n b x w w' b', process_time_point_step env video_path out_dir thr
                                      w0 acc0 n b x w w' b')
                  bound acc w w2 acc' Hinv Hrun) as H.
    simpl in H. exact H.
Qed.

Lemma run_tprint (m : Msg) (w : World) :
  run (tprint m) w
  = (mkWorld (files w) (dirs w) (manifest w) (trace w ++ [EvPrint m]), inr tt).
Proof. reflexivity. Qed.

Lemma run_mkdir (p : pystr) (w : World) :
  run (mkdir p) w
  = (mkWorld (files w) ({[p]} ∪ dirs w) (manifest w) (trace w ++ [EvMkdir p]), inr tt).
Proof. reflexivity. Qed.

Lemma run_parse_subtitles (env : Env) (path : pystr) (w : World) :
  run (parse_subtitles env path) w
  = (w, if bool_decide (sf_suffix (subtitle_file env path) = lit ".vtt")
           || bool_decide (sf_suffix (subtitle_file env path) = lit ".srt")
              && negb (sf_two_arrows (subtitle_file env path))
        then inr (parse_cues (sf_cues (subtitle_file env path)))
        else inl ValueError).
Proof.
  unfold parse_subtitles.
  repeat case_bool_decide; destruct (sf_two_arrows _); reflexivity.
Qed.

(** The effects of a run of [process_one_video] that returns. *)
Lemma process_one_video_effects (env : Env) (video : Video)
    (subtitle_path out_root : pystr) (max_subs thr : Z) (w w' : World) (acc : Acc) :
  run (process_one_video env video subtitle_path out_root max_subs thr) w = (w', inr acc) →
  ∃ evs,
    trace w' = trace w ++ evs
    ∧ manifest w' = manifest w
    ∧ dirs w' = (if bool_decide (sf_cues (subtitle_file env subtitle_path) = [])
                 then dirs w
                 else {[_choose_out_dir out_root (v_parent_name video) (v_stem video)]}
                      ∪ dirs w)
    ∧ (∀ p, (∀ fname, p ≠ path_join (_choose_out_dir out_root (v_parent_name video)
                                        (v_stem video)) fname) →
            files w' !! p = files w !! p)
    ∧ skipped_count acc = count_events is_unlink evs
    ∧ saved_count acc + skipped_count acc = count_events is_extract_ok evs
    ∧ count_events is_extract evs
      ≤ 6 * Z.of_nat (length (sf_cues (subtitle_file env subtitle_path)))
    ∧ (0 < max_subs → count_events is_extract evs ≤ 6 * max_subs)
    ∧ unlinks_own_frames evs
    ∧ well_separated thr (saved_hashes acc).
Proof.
  intros Hrun. unfold process_one_video in Hrun.
  rewrite run_bind, run_parse_subtitles in Hrun.
  assert (Hempty : well_separated thr ∅) by (intros a b Ha; set_solver).
  destruct (_ || _); [|discriminate].
  set (cues := sf_cues (subtitle_file env subtitle_path)) in *.
  assert (Hlen : length (parse_cues cues) = length cues) by apply length_map.
  destruct (parse_cues cues) as [|e0 entries] eqn:Hentries.
  { rewrite run_bind, run_tprint, run_ret in Hrun. injection Hrun as <- <-. simpl.
    exists [EvPrint (MsgNoEntries subtitle_path)].
    assert (Hc : cues = []) by (by destruct cues).
    rewrite Hc. unfold count_events. simpl.
    repeat (split; [done || auto || lia|]). split; [|done].
    intros p Hp. apply list_elem_of_singleton in Hp. discriminate. }
  set (entries' := e0 :: entries) in *.
  set (out_dir := _choose_out_dir out_root (v_parent_name video) (v_stem video)) in *.
  cbv zeta in Hrun.
  set (total := if max_subs <=? 0 then length entries'
                else Nat.min (length entries') (Z.to_nat max_subs)) in *.
  assert (Htot : (length (take total entries') ≤ length cues)%nat
                 ∧ (0 < max_subs → Z.of_nat (length (take total entries')) ≤ max_subs)).
  { rewrite length_take, <- Hlen. split; [lia|]. intros Hpos. subst total.
    destruct (Z.leb_spec max_subs 0); lia. }
  destruct Htot as [Htot1 Htot2].
  rewrite run_bind in Hrun.
  assert (Hpre : ∀ b : bool, ∃ pre, forallb is_passive pre = true ∧
            run (if b then tprint (MsgDurationUnknown (v_path video)) else mret tt) w
            = (mkWorld (files w) (dirs w) (manifest w) (trace w ++ pre), inr tt)).
  { intros [|].
    - exists [EvPrint (MsgDurationUnknown (v_path video))].
      split; [reflexivity|]. apply run_tprint.
    - exists []. split; [reflexivity|]. rewrite app_nil_r. by destruct w. }
  destruct (Hpre (fle (probe_duration env (v_path video)) f0)) as (pre & Hpass & Hpre').
  rewrite Hpre' in Hrun. clear Hpre Hpre'.
  rewrite run_bind, run_mkdir, run_bind, run_tprint, run_bind in Hrun.
  cbn [files dirs manifest trace] in Hrun.
  match type of Hrun with
  | context [run (foldM _ _ _) ?w0] => set (w1 := w0) in *
  end.
  destruct (run (foldM _ _ _) w1) as [w2 [e|acc2]] eqn:Hfold; [discriminate|].
  rewrite run_bind, run_tprint, run_ret in Hrun. injection Hrun as <- <-.
  pose proof (foldM_inv_n (process_entry env (v_path video) out_dir
                             (probe_duration env (v_path video)) thr)
                (loop_state out_dir thr w1 (mkAcc ∅ 0 0)) 6 _
                (λ n b x w w' b', process_entry_step env (v_path video) out_dir
                                    (probe_duration env (v_path video)) thr
                                    w1 (mkAcc ∅ 0 0) n b x w w' b')
                0 _ _ _ _ (loop_state_start out_dir thr w1 (mkAcc ∅ 0 0)) Hfold)
    as (evs & Htr & Hdi & Hma & Hfi & Hsk & Hsa & Hex & Hun & Hws).
  cbn [saved_hashes saved_count skipped_count] in *.
  destruct (count_events_passive pre Hpass) as (P1 & P2 & P3 & P4).
  set (hdr := [EvMkdir out_dir; EvPrint (MsgHeader (v_stem video) total (length entries'))]).
  set (ftr := [EvPrint (MsgSummary (saved_count acc2) (skipped_count acc2))]).
  exists (pre ++ hdr ++ evs ++ ftr).
  cbn [trace dirs manifest files].
  rewrite !count_events_app, P1, P2, P3.
  change (count_events is_unlink hdr) with 0.
  change (count_events is_extract hdr) with 0.
  change (count_events is_extract_ok hdr) with 0.
  change (count_events is_unlink ftr) with 0.
  change (count_events is_extract ftr) with 0.
  change (count_events is_extract_ok ftr) with 0.
  split.
  { rewrite Htr. subst w1. cbn [trace]. rewrite <- !app_assoc. reflexivity. }
  split; [rewrite Hma; reflexivity|].
  split.
  { rewrite Hdi. case_bool_decide as Hc; [|reflexivity].
    rewrite Hc in Hentries. discriminate. }
  split; [intros p Hp; rewrite Hfi by exact Hp; reflexivity|].
  split; [lia|]. split; [lia|]. split; [lia|]. split; [intros Hpos; specialize (Htot2 Hpos); lia|].
  split; [|by apply Hws].
  intros p [Hp|[Hp|[Hp|Hp]%elem_of_app]%elem_of_app]%elem_of_app.
  - by destruct (P4 p).
  - apply elem_of_cons in Hp as [Hp|Hp]; [discriminate|].
    apply list_elem_of_singleton in Hp. discriminate.
  - destruct (Hun p Hp) as (v & t' & Hin). exists v, t'.
    apply elem_of_app. right. apply elem_of_app. right. apply elem_of_app. by left.
  - apply list_elem_of_singleton in Hp. discriminate.
Qed.

(** X1: the fingerprints that a run of [process_one_video] has recorded for
    the frames it kept are pairwise farther apart than the similarity
    threshold, in character-wise Hamming distance (the number of positions
    at which two fingerprints differ). *)
Theorem saved_fingerprints_far_apart (env : Env) (video : Video)
    (subtitle_path out_root : pystr) (max_subs thr : Z) (w w' : World) (acc : Acc) :
  run (process_one_video env video subtitle_path out_root max_subs thr) w = (w', inr acc) →
  ∀ a b, a ∈ saved_hashes acc → b ∈ saved_hashes acc → a ≠ b →
         thr < char_distance a b.
Proof.
  intros Hrun.
  destruct (process_one_video_effects _ _ _ _ _ _ _ _ _ Hrun)
    as (evs & _ & _ & _ & _ & _ & _ & _ & _ & _ & Hws).
  exact Hws.
Qed.

Lemma saved_fingerprints_far_apart_witness :
  run (process_one_video env_two_scenes demo_video (lit "v.srt") (lit "out") 0 5)
      empty_world = (demo_world, inr demo_acc)
  ∧ ∀ a b, a ∈ saved_hashes demo_acc → b ∈ saved_hashes demo_acc → a ≠ b →
           5 < char_distance a b.
Proof.
  split; [vm_compute; reflexivity|].
  apply (saved_fingerprints_far_apart env_two_scenes demo_video (lit "v.srt") (lit "out")
           0 5 empty_world demo_world demo_acc).
  vm_compute; reflexivity.
Defined.

(** X2: when [process_one_video] returns, the skipped counter is the number
    of frames it deleted, and saved plus skipped is the number of calls of
    [extract_frame] that reported success: every extracted frame is counted
    exactly once, and exactly the skipped ones are deleted. *)
Theorem counters_match_events (env : Env) (video : Video)
    (subtitle_path out_root : pystr) (max_subs thr : Z) (w w' : World) (acc : Acc) :
  run (process_one_video env video subtitle_path out_root max_subs thr) w = (w', inr acc) →
  skipped_count acc = count_events is_unlink (new_events w w')
  ∧ saved_count acc + skipped_count acc = count_events is_extract_ok (new_events w w').
Proof.
  intros Hrun.
  destruct (process_one_video_effects _ _ _ _ _ _ _ _ _ Hrun)
    as (evs & Htr & _ & _ & _ & Hsk & Hsa & _).
  rewrite (new_events_alt w w' evs Htr). by split.
Qed.

Lemma counters_match_events_witness :
  run (process_one_video env_two_scenes demo_video (lit "v.srt") (lit "out") 0 5)
      empty_world = (demo_world, inr demo_acc)
  ∧ skipped_count demo_acc = count_events is_unlink (new_events empty_world demo_world)
  ∧ saved_count demo_acc + skipped_count demo_acc
    = count_events is_extract_ok (new_events empty_world demo_world).
Proof.
  split; [vm_compute; reflexivity|].
  apply (counters_match_events env_two_scenes demo_video (lit "v.srt") (lit "out")
           0 5 empty_world demo_world demo_acc).
  vm_compute; reflexivity.
Defined.

(** X3: a run of [process_one_video] that returns has called [extract_frame]
    at most six times per cue of the subtitle file (three time points, one
    retry each), and at most [6 * max_subs] times when [max_subs] is
    positive. *)
Theorem extraction_calls_bounded (env : Env) (video : Video)
    (subtitle_path out_root : pystr) (max_subs thr : Z) (w w' : World) (acc : Acc) :
  run (process_one_video env video subtitle_path out_root max_subs thr) w = (w', inr acc) →
  count_events is_extract (new_events w w')
  ≤ 6 * Z.of_nat (length (sf_cues (subtitle_file env subtitle_path)))
  ∧ (0 < max_subs → count_events is_extract (new_events w w') ≤ 6 * max_subs).
Proof.
  intros Hrun.
  destruct (process_one_video_effects _ _ _ _ _ _ _ _ _ Hrun)
    as (evs & Htr & _ & _ & _ & _ & _ & Hex & Hmax & _).
  rewrite (new_events_alt w w' evs Htr). by split.
Qed.

Lemma extraction_calls_bounded_witness :
  run (process_one_video env_two_scenes demo_video (lit "v.srt") (lit "out") 1 5)
      empty_world
  = (fst (run (process_one_video env_two_scenes demo_video (lit "v.srt") (lit "out") 1 5)
              empty_world), inr (mkAcc {[fp_dark]} 1 2))
  ∧ count_events is_extract
      (new_events empty_world
         (fst (run (process_one_video env_two_scenes demo_video (lit "v.srt") (lit "out")
                      1 5) empty_world)))
    ≤ 6 * Z.of_nat (length (sf_cues (subtitle_file env_two_scenes (lit "v.srt"))))
  ∧ (0 < 1 →
     count_events is_extract
       (new_events empty_world
          (fst (run (process_one_video env_two_scenes demo_video (lit "v.srt") (lit "out")
                       1 5) empty_world)))
     ≤ 6 * 1).
Proof.
  split; [vm_compute; reflexivity|].
  apply (extraction_calls_bounded env_two_scenes demo_video (lit "v.srt") (lit "out")
           1 5 empty_world _ (mkAcc {[fp_dark]} 1 2)).
  vm_compute; reflexivity.
Defined.



(** The demonstration run keeps the first frame of each scene and deletes the
    four others. *)
Example demo_run_frames :
  map fst (map_to_list (files demo_world))
  ≡ₚ [lit "out/uploader/clip/00-00-12-000_start.jpg";
      lit "out/uploader/clip/00-00-30-000_start.jpg"]
  ∧ count_events is_unlink (trace demo_world) = 4.
Proof. split; vm_compute; reflexivity. Qed.

(** ** The loop of the orchestrator *)

Lemma run_lift {A} (r : Exn + A) (w : World) : run (lift r) w = (w, r).
Proof. reflexivity. Qed.

(** [main_body] on a record whose two paths are non-empty strings naming
    existing files. *)
Lemma run_main_body (env : Env) (out_root : pystr) (kv : list (pystr * JValue))
    (v s : pystr) (w : World) :
  assoc_get (lit "video_path") kv = Some (JStr v) →
  assoc_get (lit "subtitle_path") kv = Some (JStr s) →
  truthy v = true → truthy s = true →
  path_exists w v = true → path_exists w s = true →
  run (main_body env out_root (JDict kv)) w
  = match run (process_one_video env (video_of_path env v) s out_root 0 5) w with
    | (w1, inr _) =>
        let frames_dir := _choose_out_dir out_root (v_parent_name (video_of_path env v))
                            (v_stem (video_of_path env v)) in
        (mkWorld (files w1) (dirs w1) (manifest w1)
           (trace w1 ++ if path_exists w1 frames_dir
                        then [EvArchive frames_dir v;
                              EvPrint (MsgDone (v_stem (video_of_path env v)))]
                        else [EvPrint (MsgNoFramesDir frames_dir)]),
         inr tt)
    | (w1, inl e) => (w1, inl e)
    end.
Proof.
  intros Hv Hs Htv Hts Hev Hes. unfold main_body.
  rewrite run_bind, run_lift. unfold rec_get at 1. rewrite Hv. cbn [from_option id].
  rewrite run_bind, run_lift. unfold rec_get at 1. rewrite Hs. cbn [from_option id].
  cbn [truthy_json]. rewrite Htv, Hts. cbn [negb orb].
  rewrite run_bind, run_lift. cbn [as_path].
  rewrite run_bind, run_lift.
  change (run (?c ≫= ?f) w) with (run (f w) w) at 1.
  cbv beta. rewrite Hev, Hes. cbn [negb orb].
  rewrite run_bind.
  destruct (run (process_one_video _ _ _ _ _ _) w) as [w1 [e|acc]]; [reflexivity|].
  cbv zeta.
  change (run (get_world ≫= ?f) w1) with (run (f w1) w1).
  cbv beta. destruct (path_exists w1 _); [|reflexivity].
  munfold. simpl. by rewrite <- app_assoc.
Qed.

(** X5: a subtitle file whose suffix is neither [.vtt] nor [.srt], or an
    [.srt] file with a time line that holds the arrow twice, makes
    [process_one_video] raise [ValueError] before it has printed, probed or
    created anything; in the loop of [pipeline.main], which does not catch
    it, the records after such a record are not processed. *)
Theorem unsupported_subtitle_aborts_batch (env : Env) (out_root : pystr)
    (kv : list (pystr * JValue)) (v s : pystr) (w : World) :
  assoc_get (lit "video_path") kv = Some (JStr v) →
  assoc_get (lit "subtitle_path") kv = Some (JStr s) →
  truthy v = true → truthy s = true →
  path_exists w v = true → path_exists w s = true →
  sf_suffix (subtitle_file env s) ≠ lit ".vtt" →
  sf_suffix (subtitle_file env s) ≠ lit ".srt"
  ∨ sf_two_arrows (subtitle_file env s) = true →
  (∀ video max_subs thr,
     run (process_one_video env video s out_root max_subs thr) w = (w, inl ValueError))
  ∧ ∀ rest,
      run (foldM (fun (_ : unit) rec => main_body env out_root rec) (JDict kv :: rest) tt) w
      = (w, inl ValueError).
Proof.
  intros Hv Hs Htv Hts Hev Hes Hvtt Hsrt.
  assert (Hp : ∀ video max_subs thr,
    run (process_one_video env video s out_root max_subs thr) w = (w, inl ValueError)).
  { intros video max_subs thr. unfold process_one_video.
    rewrite run_bind, run_parse_subtitles.
    rewrite (bool_decide_eq_false_2 _ Hvtt).
    destruct Hsrt as [Hsrt|Htwo].
    - rewrite (bool_decide_eq_false_2 _ Hsrt). reflexivity.
    - rewrite Htwo, andb_false_r. reflexivity. }
  split; [exact Hp|]. intros rest.
  rewrite run_foldM_cons, (run_main_body env out_root kv v s w) by done.
  by rewrite Hp.
Qed.

Lemma unsupported_subtitle_aborts_batch_witness :
  assoc_get (lit "video_path") demo_fields = Some (JStr (lit "v.mp4"))
  ∧ assoc_get (lit "subtitle_path") demo_fields = Some (JStr (lit "v.srt"))
  ∧ (∀ video max_subs thr,
       run (process_one_video env_ass video (lit "v.srt") (lit "frames_output")
              max_subs thr) world_with_video
       = (world_with_video, inl ValueError))
  ∧ ∀ rest,
      run (foldM (fun (_ : unit) rec => main_body env_ass (lit "frames_output") rec)
                 (JDict demo_fields :: rest) tt) world_with_video
      = (world_with_video, inl ValueError).
Proof.
  split; [reflexivity|]. split; [reflexivity|].
  apply (unsupported_subtitle_aborts_batch env_ass (lit "frames_output") demo_fields
           (lit "v.mp4") (lit "v.srt") world_with_video);
    [reflexivity|reflexivity|reflexivity|reflexivity|vm_compute; reflexivity
    |vm_compute; reflexivity|vm_compute; discriminate|left; vm_compute; discriminate].
Defined.

(** X6: a subtitle file without cues, that its parser reads without
    raising, makes [process_one_video] print one notice and return: no directory is created and the transcoder is not
    called.  The loop of [pipeline.main] then archives the frames directory
    of the video if and only if it existed before, left by an earlier run. *)
Theorem record_without_cues (env : Env) (out_root : pystr)
    (kv : list (pystr * JValue)) (v s : pystr) (w : World) :
  assoc_get (lit "video_path") kv = Some (JStr v) →
  assoc_get (lit "subtitle_path") kv = Some (JStr s) →
  truthy v = true → truthy s = true →
  path_exists w v = true → path_exists w s = true →
  sf_suffix (subtitle_file env s) = lit ".vtt"
  ∨ sf_suffix (subtitle_file env s) = lit ".srt"
    ∧ sf_two_arrows (subtitle_file env s) = false →
  sf_cues (subtitle_file env s) = [] →
  let frames_dir := _choose_out_dir out_root (v_parent_name (video_of_path env v))
                      (v_stem (video_of_path env v)) in
  (∀ video max_subs thr,
     run (process_one_video env video s out_root max_subs thr) w
     = (mkWorld (files w) (dirs w) (manifest w) (trace w ++ [EvPrint (MsgNoEntries s)]),
        inr (mkAcc ∅ 0 0)))
  ∧ run (main_body env out_root (JDict kv)) w
    = (mkWorld (files w) (dirs w) (manifest w)
         (trace w ++ EvPrint (MsgNoEntries s)
                  :: if path_exists w frames_dir
                     then [EvArchive frames_dir v;
                           EvPrint (MsgDone (v_stem (video_of_path env v)))]
                     else [EvPrint (MsgNoFramesDir frames_dir)]),
       inr tt).
Proof.
  intros Hv Hs Htv Hts Hev Hes Hsuf Hcues frames_dir.
  assert (Hp : ∀ video max_subs thr,
    run (process_one_video env video s out_root max_subs thr) w
    = (mkWorld (files w) (dirs w) (manifest w) (trace w ++ [EvPrint (MsgNoEntries s)]),
       inr (mkAcc ∅ 0 0))).
  { intros video max_subs thr. unfold process_one_video.
    rewrite run_bind, run_parse_subtitles, Hcues.
    destruct Hsuf as [-> | [-> ->]]; reflexivity. }
  split; [exact Hp|].
  rewrite (run_main_body env out_root kv v s w) by done.
  rewrite Hp. cbv zeta. fold frames_dir. unfold path_exists. cbn [files dirs trace manifest].
  rewrite <- app_assoc. reflexivity.
Qed.

Lemma record_without_cues_witness :
  assoc_get (lit "video_path") demo_fields = Some (JStr (lit "v.mp4"))
  ∧ assoc_get (lit "subtitle_path") demo_fields = Some (JStr (lit "v.srt"))
  ∧ path_exists world_with_old_frames (lit "frames_output/uploader/clip") = true
  ∧ let frames_dir :=
        _choose_out_dir (lit "frames_output")
          (v_parent_name (video_of_path env_hashable (lit "v.mp4")))
          (v_stem (video_of_path env_hashable (lit "v.mp4"))) in
    (∀ video max_subs thr,
       run (process_one_video env_hashable video (lit "v.srt") (lit "frames_output")
              max_subs thr) world_with_old_frames
       = (mkWorld (files world_with_old_frames) (dirs world_with_old_frames)
            (manifest world_with_old_frames)
            (trace world_with_old_frames ++ [EvPrint (MsgNoEntries (lit "v.srt"))]),
          inr (mkAcc ∅ 0 0)))
    ∧ run (main_body env_hashable (lit "frames_output") (JDict demo_fields))
          world_with_old_frames
      = (mkWorld (files world_with_old_frames) (dirs world_with_old_frames)
           (manifest world_with_old_frames)
           (trace world_with_old_frames
            ++ EvPrint (MsgNoEntries (lit "v.srt"))
               :: if path_exists world_with_old_frames frames_dir
                  then [EvArchive frames_dir (lit "v.mp4");
                        EvPrint (MsgDone (v_stem (video_of_path env_hashable (lit "v.mp4"))))]
                  else [EvPrint (MsgNoFramesDir frames_dir)]),
         inr tt).
Proof.
  split; [reflexivity|]. split; [reflexivity|]. split; [vm_compute; reflexivity|].
  apply (record_without_cues env_hashable (lit "frames_output") demo_fields
           (lit "v.mp4") (lit "v.srt") world_with_old_frames);
    [reflexivity|reflexivity|reflexivity|reflexivity|vm_compute; reflexivity
    |vm_compute; reflexivity|right; split; reflexivity|reflexivity].
Defined.

(** X7: when the subtitle file has at least one cue and [process_one_video]
    returns, the loop of [pipeline.main] finds the frames directory and
    archives it, whether or not a frame was kept: the directory was created
    before the frame loop, under the name that the orchestrator computes. *)
Theorem record_with_cues_is_archived (env : Env) (out_root : pystr)
    (kv : list (pystr * JValue)) (v s : pystr) (w w1 : World) (acc : Acc) :
  assoc_get (lit "video_path") kv = Some (JStr v) →
  assoc_get (lit "subtitle_path") kv = Some (JStr s) →
  truthy v = true → truthy s = true →
  path_exists w v = true → path_exists w s = true →
  sf_cues (subtitle_file env s) ≠ [] →
  run (process_one_video env (video_of_path env v) s out_root 0 5) w = (w1, inr acc) →
  let frames_dir := _choose_out_dir out_root (v_parent_name (video_of_path env v))
                      (v_stem (video_of_path env v)) in
  frames_dir ∈ dirs w1
  ∧ run (main_body env out_root (JDict kv)) w
    = (mkWorld (files w1) (dirs w1) (manifest w1)
         (trace w1 ++ [EvArchive frames_dir v;
                       EvPrint (MsgDone (v_stem (video_of_path env v)))]),
       inr tt).
Proof.
  intros Hv Hs Htv Hts Hev Hes Hcues Hrun frames_dir.
  destruct (process_one_video_effects _ _ _ _ _ _ _ _ _ Hrun)
    as (evs & _ & _ & Hdi & _).
  rewrite (bool_decide_eq_false_2 _ Hcues) in Hdi. fold frames_dir in Hdi.
  assert (Hin : frames_dir ∈ dirs w1).
  { rewrite Hdi. apply elem_of_union. left. by apply elem_of_singleton. }
  split; [exact Hin|].
  rewrite (run_main_body env out_root kv v s w) by done.
  rewrite Hrun. cbv zeta. fold frames_dir.
  assert (Hex : path_exists w1 frames_dir = true).
  { unfold path_exists. rewrite (bool_decide_eq_true_2 (frames_dir ∈ dirs w1)) by done.
    apply orb_true_r. }
  by rewrite Hex.
Qed.

Lemma record_with_cues_is_archived_witness :
  assoc_get (lit "video_path") demo_fields = Some (JStr (lit "v.mp4"))
  ∧ assoc_get (lit "subtitle_path") demo_fields = Some (JStr (lit "v.srt"))
  ∧ run (process_one_video env_two_scenes (video_of_path env_two_scenes (lit "v.mp4"))
           (lit "v.srt") (lit "frames_output") 0 5) world_with_video
    = (demo_world_archived, inr demo_acc)
  ∧ let frames_dir :=
        _choose_out_dir (lit "frames_output")
          (v_parent_name (video_of_path env_two_scenes (lit "v.mp4")))
          (v_stem (video_of_path env_two_scenes (lit "v.mp4"))) in
    frames_dir ∈ dirs demo_world_archived
    ∧ run (main_body env_two_scenes (lit "frames_output") (JDict demo_fields))
          world_with_video
      = (mkWorld (files demo_world_archived) (dirs demo_world_archived)
           (manifest demo_world_archived)
           (trace demo_world_archived
            ++ [EvArchive frames_dir (lit "v.mp4");
                EvPrint (MsgDone (v_stem (video_of_path env_two_scenes (lit "v.mp4"))))]),
         inr tt).
Proof.
  split; [reflexivity|]. split; [reflexivity|]. split; [vm_compute; reflexivity|].
  apply (record_with_cues_is_archived env_two_scenes (lit "frames_output") demo_fields
           (lit "v.mp4") (lit "v.srt") world_with_video demo_world_archived demo_acc);
    [reflexivity|reflexivity|reflexivity|reflexivity|vm_compute; reflexivity
    |vm_compute; reflexivity|discriminate|vm_compute; reflexivity].
Defined.

(** ** Distances between fingerprints *)

Lemma hamming_distance_bounds (a b : pystr) :
  0 ≤ hamming_distance a b ≤ Z.of_nat (Nat.min (length a) (length b)).
Proof.
  revert b. induction a as [|c a IH]; intros [|d b]; simpl hamming_distance;
    simpl length; try lia.
  specialize (IH b). case_bool_decide; lia.
Qed.

Lemma hamming_distance_zero (a b : pystr) :
  length a = length b → hamming_distance a b = 0 → a = b.
Proof.
  revert b. induction a as [|c a IH]; intros [|d b] Hl Hd; try done.
  simpl in *. pose proof (hamming_distance_bounds a b).
  case_bool_decide; [|lia]. subst d. f_equal. apply IH; lia.
Qed.

Lemma hamming_distance_refl (a : pystr) : hamming_distance a a = 0.
Proof. induction a as [|c a IH]; simpl; [done|]. by rewrite bool_decide_eq_true_2, IH. Qed.

(** X8: the distance of [is_similar_to_previous] is the number of positions
    at which the two strings differ; it is symmetric, lies between zero and
    the length of the shorter fingerprint, is zero between a string and any
    extension of it (the comparison stops at the shorter one), and between
    fingerprints of equal length it is zero only when they are equal. *)
Theorem hamming_distance_properties (a b : pystr) :
  hamming_distance a b = char_distance a b
  ∧ hamming_distance a b = hamming_distance b a
  ∧ 0 ≤ hamming_distance a b ≤ Z.of_nat (Nat.min (length a) (length b))
  ∧ (∀ ext, hamming_distance a (a ++ ext) = 0)
  ∧ (length a = length b → (hamming_distance a b = 0 ↔ a = b)).
Proof.
  split; [apply hamming_char_distance|].
  split; [apply hamming_distance_sym|]. split; [apply hamming_distance_bounds|].
  split.
  - intros ext. induction a as [|c a IH]; simpl; [done|].
    by rewrite bool_decide_eq_true_2, IH.
  - intros Hl. split; [by apply hamming_distance_zero|].
    intros ->. apply hamming_distance_refl.
Qed.

(** X9: the extremes of the similarity threshold.  With a negative threshold
    no frame is ever found similar; with a threshold of at least the length
    of the candidate's fingerprint every hashed frame is found similar as
    soon as one fingerprint is recorded; with threshold zero and recorded
    fingerprints of the candidate's length, a frame is similar exactly when
    its fingerprint is recorded. *)
Theorem threshold_extremes (image_path : pystr) (prev : gset pystr) (thr : Z)
    (w : World) (h : pystr) :
  phash_at w image_path = Some h → truthy h = true →
  (thr < 0 → snd (run (is_similar_to_previous image_path prev thr) w) = inr false)
  ∧ (Z.of_nat (length h) ≤ thr → prev ≠ ∅ →
     snd (run (is_similar_to_previous image_path prev thr) w) = inr true)
  ∧ (thr = 0 → (∀ q, q ∈ prev → length q = length h) →
     (snd (run (is_similar_to_previous image_path prev thr) w) = inr true ↔ h ∈ prev)).
Proof.
  intros Hh Ht. rewrite (run_is_similar_hashed image_path prev thr w h Hh Ht).
  cbn [snd]. split; [|split].
  - intros Hneg. f_equal. apply not_true_iff_false.
    intros (q & _ & Hq)%existsb_elements_iff.
    pose proof (hamming_distance_bounds h q). lia.
  - intros Hbig Hne. f_equal. apply existsb_elements_iff.
    apply set_choose_L in Hne as [q Hq]. exists q. split; [done|].
    pose proof (hamming_distance_bounds h q). lia.
  - intros -> Hlen. split.
    + intros [= (q & Hq & Hd)%existsb_elements_iff].
      assert (h = q) as ->; [|done].
      apply hamming_distance_zero; [symmetry; by apply Hlen|].
      pose proof (hamming_distance_bounds h q). lia.
    + intros Hin. f_equal. apply existsb_elements_iff. exists h.
      split; [done|]. rewrite hamming_distance_refl. reflexivity.
Qed.

Lemma threshold_extremes_witness :
  phash_at world_with_frame (lit "f.jpg") = Some (lit "00ff")
  ∧ truthy (lit "00ff") = true
  ∧ (4 < 0 →
     snd (run (is_similar_to_previous (lit "f.jpg") {[lit "ff00"]} 4) world_with_frame)
     = inr false)
  ∧ (Z.of_nat (length (lit "00ff")) ≤ 4 → ({[lit "ff00"]} : gset pystr) ≠ ∅ →
     snd (run (is_similar_to_previous (lit "f.jpg") {[lit "ff00"]} 4) world_with_frame)
     = inr true)
  ∧ (4 = 0 → (∀ q, q ∈ ({[lit "ff00"]} : gset pystr) → length q = length (lit "00ff")) →
     (snd (run (is_similar_to_previous (lit "f.jpg") {[lit "ff00"]} 4) world_with_frame)
      = inr true ↔ lit "00ff" ∈ ({[lit "ff00"]} : gset pystr))).
Proof.
  split; [vm_compute; reflexivity|]. split; [reflexivity|].
  apply (threshold_extremes (lit "f.jpg") {[lit "ff00"]} 4 world_with_frame (lit "00ff"));
    [vm_compute; reflexivity|reflexivity].
Defined.

(** ** Sanitised names as path segments *)

Lemma safe_for_filename_cleaned (name : pystr) (max_len : nat) :
  _safe_for_filename name max_len = take max_len (cleaned_name name).
Proof. reflexivity. Qed.

Lemma cleaned_name_legal (name : pystr) :
  Forall (λ c, is_illegal c = false) (cleaned_name name).
Proof.
  unfold cleaned_name, strip. do 2 apply rstrip_by_Forall. apply lstrip_by_Forall.
  apply sub_ws_runs_legal, sub_illegal_legal.
Qed.

Lemma cleaned_name_last (name : pystr) (c : char) :
  last (cleaned_name name) = Some c → c ≠ space ∧ c ≠ period.
Proof.
  unfold cleaned_name. intros H.
  destruct (rstrip_by_spec is_space_or_period
              (strip (sub_ws_runs false (sub_illegal name)))) as (suf & _ & _ & Hl).
  specialize (Hl c H). unfold is_space_or_period in Hl.
  apply orb_false_iff in Hl as [H1 H2].
  apply N.eqb_neq in H1, H2. done.
Qed.

Lemma take_short {A} (k : nat) (l : list A) :
  (length (take k l) < k)%nat → take k l = l.
Proof. rewrite length_take. intros H. apply take_ge. lia. Qed.

Lemma legal_described (s : pystr) :
  Forall (λ c, is_illegal c = false) s → Forall (λ c, c ∉ described_illegal) s.
Proof.
  intros H. eapply Forall_impl; [exact H|]. intros c Hc.
  rewrite <- illegal_class_described.
  unfold is_illegal in Hc. by apply bool_decide_eq_false in Hc.
Qed.

Lemma safe_for_filename_plain (name : pystr) (max_len : nat) :
  (3 ≤ max_len)%nat → plain_segment (_safe_for_filename name max_len).
Proof.
  intros Hk. split; [apply legal_described, safe_for_filename_legal|].
  rewrite safe_for_filename_cleaned.
  split; intros Heq.
  - assert (Hc : take max_len (cleaned_name name) = cleaned_name name).
    { apply take_short. rewrite Heq. simpl. lia. }
    rewrite Hc in Heq.
    destruct (cleaned_name_last name period) as [_ H]; [by rewrite Heq|done].
  - assert (Hc : take max_len (cleaned_name name) = cleaned_name name).
    { apply take_short. rewrite Heq. simpl. lia. }
    rewrite Hc in Heq.
    destruct (cleaned_name_last name period) as [_ H]; [by rewrite Heq|done].
Qed.

Lemma hex_digit_lower (d : Z) : 0 ≤ d < 16 → is_hex_lower (MD5.hex_digit d) = true.
Proof.
  intros Hd. unfold MD5.hex_digit, is_hex_lower.
  destruct (Z.ltb_spec d 10).
  - apply orb_true_iff. left. apply andb_true_iff. split; apply N.leb_le; lia.
  - apply orb_true_iff. right. apply andb_true_iff. split; apply N.leb_le; lia.
Qed.

Lemma le_bytes_range (k : nat) (n : Z) : Forall (λ b, 0 ≤ b < 256) (MD5.le_bytes k n).
Proof.
  revert n. induction k as [|k IH]; intros n; simpl; constructor; [|apply IH].
  apply Z.mod_pos_bound. lia.
Qed.

Lemma hexdigest_lower (msg : list Z) : forallb is_hex_lower (MD5.hexdigest msg) = true.
Proof.
  unfold MD5.hexdigest.
  assert (Hr : Forall (λ b, 0 ≤ b < 256) (MD5.digest msg)).
  { unfold MD5.digest.
    destruct (MD5.blocks _ MD5.init (MD5.pad msg)) as [[[a b] c] d].
    repeat (apply Forall_app; split); apply le_bytes_range. }
  induction Hr as [|b l Hb Hl IH]; [reflexivity|].
  cbn [flat_map MD5.hex_byte app forallb]. rewrite IH.
  rewrite !hex_digit_lower; [reflexivity| |].
  - apply Z.mod_pos_bound. lia.
  - split; [apply Z.div_pos; lia|apply Z.div_lt_upper_bound; lia].
Qed.

Lemma hex_lower_legal (c : char) : is_hex_lower c = true → is_illegal c = false.
Proof.
  unfold is_hex_lower, is_illegal. intros H.
  apply bool_decide_eq_false_2. intros Hin.
  unfold _ILLEGAL_WIN_CHARS in Hin. cbn in Hin.
  repeat (apply elem_of_cons in Hin as [->|Hin]; [discriminate H|]).
  inversion Hin.
Qed.

Lemma forallb_take {A} (p : A -> bool) (k : nat) (l : list A) :
  forallb p l = true → forallb p (take k l) = true.
Proof.
  revert k. induction l as [|a l IH]; intros [|k]; simpl; try done.
  intros [Ha Hl]%andb_true_iff. rewrite Ha. by apply IH.
Qed.

Lemma hash8_lower (s : pystr) : forallb is_hex_lower (_hash8 s) = true.
Proof. unfold _hash8, slice_to. apply forallb_take, hexdigest_lower. Qed.

Lemma vid_hash8_plain (s : pystr) : plain_segment (lit "vid_" ++ _hash8 s).
Proof.
  split; [|split].
  - apply legal_described, Forall_app. split; [by repeat constructor|].
    pose proof (hash8_lower s) as Hx. rewrite forallb_forall in Hx.
    apply Forall_forall. intros c Hc%list_elem_of_In.
    apply hex_lower_legal, Hx, Hc.
  - intros Heq. apply (f_equal length) in Heq.
    rewrite length_app, hash8_length in Heq. discriminate.
  - intros Heq. apply (f_equal length) in Heq.
    rewrite length_app, hash8_length in Heq. discriminate.
Qed.

(** X10: [_hash8] yields eight characters among 0-9 and a-f, so the fallback
    directory name [vid_] followed by them is a plain segment of twelve
    characters. *)
Theorem hash8_is_hex (s : pystr) :
  length (_hash8 s) = 8%nat
  ∧ forallb is_hex_lower (_hash8 s) = true
  ∧ length (lit "vid_" ++ _hash8 s) = 12%nat
  ∧ plain_segment (lit "vid_" ++ _hash8 s).
Proof.
  split; [apply hash8_length|]. split; [apply hash8_lower|].
  split; [by rewrite length_app, hash8_length|]. apply vid_hash8_plain.
Qed.

(** X11: with a bound of at least three characters the result of
    [_safe_for_filename] is a plain segment: it holds none of the nine
    characters, so no separator (code point 47), and is neither [.] nor
    [..]; hence the directory chosen by [_choose_out_dir] is
    the output root followed by two plain segments (an empty segment adds no
    level). *)
Theorem out_dir_segments_plain (name : pystr) (max_len : nat) :
  (3 ≤ max_len)%nat →
  plain_segment (_safe_for_filename name max_len)
  ∧ (47%N ∉ _safe_for_filename name max_len)
  ∧ ∀ out_root uploader base,
      ∃ seg1 seg2,
        _choose_out_dir out_root uploader base = path_join (path_join out_root seg1) seg2
        ∧ plain_segment seg1 ∧ plain_segment seg2.
Proof.
  intros Hk. split; [by apply safe_for_filename_plain|]. split.
  - intros Hin. pose proof (safe_for_filename_legal name max_len) as Hl.
    rewrite Forall_forall in Hl. specialize (Hl _ Hin). discriminate Hl.
  - intros out_root uploader base. unfold _choose_out_dir.
    destruct (230 <? _)%nat.
    + eexists _, _. split; [reflexivity|].
      split; [apply safe_for_filename_plain; lia|].
      apply vid_hash8_plain.
    + eexists _, _. split; [reflexivity|].
      split; apply safe_for_filename_plain; lia.
Qed.

Lemma out_dir_segments_plain_witness :
  (3 ≤ 40)%nat
  ∧ plain_segment (_safe_for_filename (lit "../..") 40)
  ∧ (47%N ∉ _safe_for_filename (lit "../..") 40)
  ∧ ∀ out_root uploader base,
      ∃ seg1 seg2,
        _choose_out_dir out_root uploader base = path_join (path_join out_root seg1) seg2
        ∧ plain_segment seg1 ∧ plain_segment seg2.
Proof.
  split; [lia|]. apply (out_dir_segments_plain (lit "../..") 40). lia.
Defined.

(** A name made of periods and separators only. *)
Example safe_dots :
  _safe_for_filename (lit "../..") 40 = lit ".._"
  ∧ _safe_for_filename (lit "..") 40 = []
  ∧ _safe_for_filename (lit "..a") 2 = lit "..".
Proof. repeat split; vm_compute; reflexivity. Qed.

(** ** Sanitising twice *)

Lemma ws_normal_mono (s : pystr) : ws_normal true s = true → ws_normal false s = true.
Proof.
  destruct s as [|c s]; simpl; [done|]. destruct (is_space c); [|done].
  rewrite andb_false_r. discriminate.
Qed.

Lemma sub_ws_runs_normal (b : bool) (s : pystr) : ws_normal b (sub_ws_runs b s) = true.
Proof.
  revert b. induction s as [|c s IH]; intros b; simpl; [done|].
  destruct (is_space c) eqn:E.
  - destruct b; [apply IH|]. simpl. apply IH.
  - simpl. rewrite E. apply IH.
Qed.

Lemma ws_normal_fix (b : bool) (s : pystr) :
  ws_normal b s = true → sub_ws_runs b s = s.
Proof.
  revert b. induction s as [|c s IH]; intros b; simpl; [done|].
  destruct (is_space c) eqn:E.
  - intros [[Hc Hb]%andb_true_iff Hs]%andb_true_iff.
    apply negb_true_iff in Hb. subst b. apply N.eqb_eq in Hc. subst c.
    f_equal. by apply IH.
  - intros Hs. f_equal. by apply IH.
Qed.

Lemma ws_normal_app_l (b : bool) (x y : pystr) :
  ws_normal b (x ++ y) = true → ws_normal b x = true.
Proof.
  revert b. induction x as [|c x IH]; intros b; simpl; [done|].
  destruct (is_space c); [|apply IH].
  intros [Hc Hs]%andb_true_iff. rewrite Hc. by apply IH.
Qed.

Lemma ws_normal_app_r (b : bool) (x y : pystr) :
  ws_normal b (x ++ y) = true → ws_normal false y = true.
Proof.
  revert b. induction x as [|c x IH]; intros b; simpl.
  - destruct b; [apply ws_normal_mono|done].
  - destruct (is_space c); [|apply IH].
    intros [_ Hs]%andb_true_iff. by apply (IH true).
Qed.

Lemma ws_normal_spaces (b : bool) (s : pystr) :
  ws_normal b s = true → Forall (λ c, is_space c = true → c = space) s.
Proof.
  revert b. induction s as [|c s IH]; intros b; simpl; [constructor|].
  destruct (is_space c) eqn:E.
  - intros [[Hc _]%andb_true_iff Hs]%andb_true_iff. apply N.eqb_eq in Hc.
    constructor; [done|by apply (IH true)].
  - intros Hs. constructor; [congruence|by apply (IH false)].
Qed.

Lemma lstrip_by_id (p : char -> bool) (s : pystr) :
  (∀ c, head s = Some c → p c = false) → lstrip_by p s = s.
Proof. destruct s as [|c s]; simpl; [done|]. intros H. by rewrite (H c). Qed.

Lemma rstrip_by_id (p : char -> bool) (s : pystr) :
  (∀ c, last s = Some c → p c = false) → rstrip_by p s = s.
Proof.
  intros H. unfold rstrip_by. rewrite lstrip_by_id; [apply rev_involutive|].
  intros c Hc. apply H. by rewrite <- (rev_involutive s), last_rev_head.
Qed.

Lemma lstrip_by_weaker (p q : char -> bool) (s : pystr) :
  Forall (λ c, p c = true → q c = true) s →
  lstrip_by q (lstrip_by p s) = lstrip_by q s.
Proof.
  induction 1 as [|c s Hc Hs IH]; simpl; [done|].
  destruct (p c) eqn:E; [|reflexivity]. by rewrite (Hc eq_refl).
Qed.

Lemma rstrip_by_weaker (p q : char -> bool) (s : pystr) :
  Forall (λ c, p c = true → q c = true) s →
  rstrip_by q (rstrip_by p s) = rstrip_by q s.
Proof.
  intros H. unfold rstrip_by. rewrite rev_involutive, lstrip_by_weaker; [done|].
  apply Forall_forall. intros c Hc. rewrite Forall_forall in H. apply H.
  apply list_elem_of_In. apply list_elem_of_In in Hc. by apply in_rev.
Qed.

Lemma sub_illegal_id (s : pystr) :
  Forall (λ c, is_illegal c = false) s → sub_illegal s = s.
Proof. induction 1 as [|c s Hc Hs IH]; simpl; [done|]. by rewrite Hc, IH. Qed.

Lemma cleaned_name_normal (name : pystr) : ws_normal false (cleaned_name name) = true.
Proof.
  unfold cleaned_name, strip.
  pose proof (sub_ws_runs_normal false (sub_illegal name)) as H.
  set (s := sub_ws_runs false (sub_illegal name)) in *.
  destruct (lstrip_by_spec is_space s) as (pre & Heq & _).
  rewrite Heq in H. apply ws_normal_app_r in H.
  destruct (rstrip_by_spec is_space (lstrip_by is_space s)) as (suf & Heq' & _).
  rewrite Heq' in H. apply ws_normal_app_l in H.
  destruct (rstrip_by_spec is_space_or_period (rstrip_by is_space (lstrip_by is_space s)))
    as (suf' & Heq'' & _).
  rewrite Heq'' in H. by apply ws_normal_app_l in H.
Qed.

Lemma cleaned_name_head (name : pystr) (c : char) :
  head (cleaned_name name) = Some c → is_space c = false.
Proof.
  unfold cleaned_name. intros H.
  destruct (strip_spec (sub_ws_runs false (sub_illegal name)))
    as (pre & suf & _ & _ & _ & Hhd & _).
  destruct (rstrip_by_spec is_space_or_period
              (strip (sub_ws_runs false (sub_illegal name)))) as (suf' & Heq & _).
  apply Hhd. rewrite Heq.
  destruct (rstrip_by is_space_or_period _); [done|exact H].
Qed.

(** A prefix of a cleaned name is changed by the sanitiser only at its end. *)
Lemma safe_of_prefix (name : pystr) (k n : nat) :
  _safe_for_filename (take k (cleaned_name name)) n
  = take n (rstrip_by is_space_or_period (take k (cleaned_name name))).
Proof.
  rewrite safe_for_filename_cleaned. f_equal.
  set (c := cleaned_name name).
  assert (Hpre : c = take k c ++ drop k c) by (by rewrite take_drop).
  assert (Hleg : Forall (λ ch, is_illegal ch = false) (take k c))
    by apply Forall_take, cleaned_name_legal.
  assert (Hnorm : ws_normal false (take k c) = true).
  { pose proof (cleaned_name_normal name) as H. fold c in H. rewrite Hpre in H.
    by apply ws_normal_app_l in H. }
  assert (Hhead : ∀ ch, head (take k c) = Some ch → is_space ch = false).
  { intros ch Hch. apply (cleaned_name_head name). fold c.
    destruct k; [done|]. destruct c; [done|exact Hch]. }
  unfold cleaned_name at 1.
  rewrite (sub_illegal_id _ Hleg), (ws_normal_fix _ _ Hnorm).
  unfold strip. rewrite (lstrip_by_id _ _ Hhead).
  apply rstrip_by_weaker.
  eapply Forall_impl; [apply (ws_normal_spaces _ _ Hnorm)|].
  intros ch Hch Hsp. rewrite (Hch Hsp). reflexivity.
Qed.

Lemma sub_ws_runs_length (b : bool) (s : pystr) :
  (length (sub_ws_runs b s) ≤ length s)%nat.
Proof.
  revert b. induction s as [|c s IH]; intros b; simpl; [done|].
  pose proof (IH true) as Ht. pose proof (IH false) as Hf.
  destruct (is_space c), b; simpl; unfold pystr, char in *; lia.
Qed.

Lemma rstrip_by_length (p : char -> bool) (s : pystr) :
  (length (rstrip_by p s) ≤ length s)%nat.
Proof.
  destruct (rstrip_by_spec p s) as (suf & Heq & _).
  rewrite Heq at 2. rewrite length_app. lia.
Qed.

Lemma cleaned_name_length (name : pystr) : (length (cleaned_name name) ≤ length name)%nat.
Proof.
  unfold cleaned_name, strip.
  pose proof (rstrip_by_length is_space_or_period
                (rstrip_by is_space (lstrip_by is_space (sub_ws_runs false (sub_illegal name))))).
  pose proof (rstrip_by_length is_space
                (lstrip_by is_space (sub_ws_runs false (sub_illegal name)))).
  pose proof (lstrip_by_length is_space (sub_ws_runs false (sub_illegal name))).
  pose proof (sub_ws_runs_length false (sub_illegal name)).
  pose proof (sub_illegal_length name).
  unfold pystr, char in *. lia.
Qed.

(** X12: applying [_safe_for_filename] to its own result only removes the
    spaces (32) and periods (46) that the cut to [max_len] left at the end;
    the result of the second application is a fixed point, and the first
    result is one already when the name has at most [max_len] characters, or
    when the first result is shorter than [max_len]. *)
Theorem sanitising_twice (name : pystr) (max_len : nat) :
  let s1 := _safe_for_filename name max_len in
  let s2 := _safe_for_filename s1 max_len in
  (∃ suf, s1 = s2 ++ suf
          ∧ Forall (λ c, c = 32%N ∨ c = 46%N) suf
          ∧ ∀ c, last s2 = Some c → c ≠ 32%N ∧ c ≠ 46%N)
  ∧ _safe_for_filename s2 max_len = s2
  ∧ ((length name ≤ max_len)%nat → s2 = s1)
  ∧ ((length s1 < max_len)%nat → s2 = s1).
Proof.
  intros s1 s2.
  assert (Hs1 : s1 = take max_len (cleaned_name name)) by reflexivity.
  assert (Hs2 : s2 = _safe_for_filename s1 max_len) by reflexivity.
  clearbody s2 s1.
  assert (Hl1 : (length s1 ≤ max_len)%nat) by (rewrite Hs1, length_take; lia).
  assert (H2 : s2 = rstrip_by is_space_or_period s1).
  { rewrite Hs2, Hs1, safe_of_prefix, <- Hs1.
    apply take_ge. etransitivity; [apply rstrip_by_length|exact Hl1]. }
  assert (Hl2 : (length s2 ≤ max_len)%nat).
  { rewrite H2. etransitivity; [apply rstrip_by_length|exact Hl1]. }
  destruct (rstrip_by_spec is_space_or_period s1) as (suf & Heq & Hsuf & Hlast).
  rewrite <- H2 in Heq, Hlast.
  assert (Hfit : (length (cleaned_name name) ≤ max_len)%nat → s2 = s1).
  { intros Hfit. rewrite H2. apply rstrip_by_id. intros c Hc.
    rewrite Hs1, take_ge in Hc by done.
    destruct (cleaned_name_last name c Hc) as [Hs Hp].
    unfold is_space_or_period. apply orb_false_iff.
    split; by apply N.eqb_neq. }
  split; [|split; [|split]].
  - exists suf. split; [exact Heq|]. split.
    + eapply Forall_impl; [exact Hsuf|]. intros c Hc. unfold is_space_or_period in Hc.
      apply orb_true_iff in Hc as [Hc|Hc]; apply N.eqb_eq in Hc; auto.
    + intros c Hc. specialize (Hlast c Hc). unfold is_space_or_period in Hlast.
      apply orb_false_iff in Hlast as [H3 H4]. apply N.eqb_neq in H3, H4. done.
  - (* s2 is a prefix of the cleaned name that ends in no space or period *)
    assert (Hp : s2 = take (length s2) (cleaned_name name)).
    { apply (f_equal (take (length s2))) in Heq.
      rewrite take_app_length in Heq. rewrite <- Heq at 1.
      rewrite Hs1, take_take. f_equal. lia. }
    rewrite Hp at 1. rewrite safe_of_prefix, <- Hp.
    rewrite (rstrip_by_id _ _ Hlast). by apply take_ge.
  - intros Hname. apply Hfit. pose proof (cleaned_name_length name).
    unfold pystr, char in *. lia.
  - intros Hshort. apply Hfit. rewrite Hs1, length_take in Hshort. lia.
Qed.

(** A name cut in front of a space: the second application removes it. *)
Example sanitising_twice_example :
  _safe_for_filename (lit "ab cd") 3 = lit "ab "
  ∧ _safe_for_filename (lit "ab ") 3 = lit "ab"
  ∧ _safe_for_filename (lit "ab") 3 = lit "ab".
Proof. repeat split; vm_compute; reflexivity. Qed.

(** ** The length of output paths *)

Lemma path_join_length (p seg : pystr) :
  (length (path_join p seg) ≤ length p + 1 + length seg)%nat.
Proof.
  unfold path_join. destruct seg as [|c seg]; [lia|].
  case_bool_decide; [simpl; lia|].
  destruct (ends_with_sep p); rewrite !length_app; simpl; lia.
Qed.

Lemma choose_out_dir_length (out_root uploader base : pystr) :
  (length (_choose_out_dir out_root uploader base) ≤ Nat.max 230 (length out_root + 54))%nat.
Proof.
  unfold _choose_out_dir.
  destruct (230 <? _)%nat eqn:E.
  - pose proof (path_join_length (path_join out_root (_safe_for_filename uploader 40))
                  (lit "vid_" ++ _hash8 (out_root ++ uploader ++ base))) as H1.
    pose proof (path_join_length out_root (_safe_for_filename uploader 40)) as H2.
    pose proof (safe_for_filename_length uploader 40) as H3.
    assert (H4 : length (lit "vid_" ++ _hash8 (out_root ++ uploader ++ base)) = 12%nat)
      by (by rewrite length_app, hash8_length).
    unfold pystr, char in *. lia.
  - apply Nat.ltb_ge in E. unfold pystr, char in *. lia.
Qed.

(** X13: the path chosen by [_choose_out_dir] is never longer than the
    larger of 230 and the length of the output root plus 54 (separator,
    uploader of at most 40, separator, twelve characters); under a root of at
    most 176 characters it stays within 230, while a longer root can defeat
    the fallback. *)
Theorem out_dir_length_bound (out_root uploader base : pystr) :
  (length (_choose_out_dir out_root uploader base)
   ≤ Nat.max 230 (length out_root + 54))%nat
  ∧ ((length out_root ≤ 176)%nat →
     (length (_choose_out_dir out_root uploader base) ≤ 230)%nat)
  ∧ (230 < length (_choose_out_dir long_root uploader base))%nat.
Proof.
  pose proof (choose_out_dir_length out_root uploader base) as H.
  split; [exact H|]. split; [intros Hr; unfold pystr, char in *; lia|].
  assert (Hj : ∀ p seg : pystr, (length p ≤ length (path_join p seg))%nat).
  { intros p seg. unfold path_join. destruct seg as [|c seg]; [lia|].
    case_bool_decide as Hp.
    - subst p. simpl. lia.
    - destruct (ends_with_sep p); rewrite !length_app; simpl; lia. }
  assert (Hlong : length long_root = 231%nat) by (unfold long_root; apply repeat_length).
  unfold _choose_out_dir. destruct (230 <? _)%nat eqn:E.
  - pose proof (Hj (path_join long_root (_safe_for_filename uploader 40))
                   (lit "vid_" ++ _hash8 (long_root ++ uploader ++ base))).
    pose proof (Hj long_root (_safe_for_filename uploader 40)).
    unfold pystr, char in *. lia.
  - pose proof (Hj (path_join long_root (_safe_for_filename uploader 40))
                   (_safe_for_filename base 80)).
    pose proof (Hj long_root (_safe_for_filename uploader 40)).
    unfold pystr, char in *. lia.
Qed.

Lemma fmt_0d_length_le (w k : nat) (n : Z) :
  0 ≤ n → n < 10 ^ Z.of_nat (S k) → (length (fmt_0d w n) ≤ Nat.max w (S k))%nat.
Proof.
  intros Hn Hk. destruct (str_of_nonneg_spec n Hn) as (_ & _ & _ & Hlen).
  specialize (Hlen k Hk). unfold fmt_0d.
  replace (n <? 0) with false by (symmetry; apply Z.ltb_ge; lia).
  rewrite Z.abs_eq by done. rewrite !length_app, repeat_length. simpl.
  unfold pystr, char in *. lia.
Qed.

(** X14: for a video shorter than 100 hours and an output root of at most
    176 characters, the path of every frame (directory, separator, timestamp,
    role of at most five characters, extension) has at most 254
    characters. *)
Theorem frame_path_length_bound (out_root uploader base frame_type : pystr)
    (t : float) (n : Z) :
  valid_binary prec emax t = true → is_finite t = true → fle f0 t = true →
  to_int t = Some n → n < 360000 →
  (length out_root ≤ 176)%nat → (length frame_type ≤ 5)%nat →
  ∃ ts,
    _sec_to_fname_ts t = Some ts
    ∧ (length (frame_fname ts frame_type) ≤ 23)%nat
    ∧ (length (path_join (_choose_out_dir out_root uploader base)
                 (frame_fname ts frame_type)) ≤ 254)%nat.
Proof.
  intros Hv Hfin Hpos Hn Hlt Hroot Hft.
  destruct (ms_of_bounds t Hv Hfin Hpos) as (n' & ms & Hn' & Hms & Hms0).
  rewrite Hn in Hn'. injection Hn' as <-.
  pose proof (to_int_nonneg t n Hpos Hn) as Hn0.
  eexists. split.
  { unfold _sec_to_fname_ts. rewrite Hn. cbv [mbind option_bind].
    rewrite Hms. reflexivity. }
  assert (Hh : 0 ≤ n / 3600 < 100).
  { split; [apply Z.div_pos; lia|apply Z.div_lt_upper_bound; lia]. }
  assert (Hm : 0 ≤ n / 60 mod 60 < 60) by (apply Z.mod_pos_bound; lia).
  assert (Hs : 0 ≤ n mod 60 < 60) by (apply Z.mod_pos_bound; lia).
  pose proof (fmt_0d_length_le 2 1 (n / 3600) ltac:(lia) ltac:(simpl; lia)) as L1.
  pose proof (fmt_0d_length_le 2 1 (n / 60 mod 60) ltac:(lia) ltac:(simpl; lia)) as L2.
  pose proof (fmt_0d_length_le 2 1 (n mod 60) ltac:(lia) ltac:(simpl; lia)) as L3.
  pose proof (fmt_0d_length_le 3 3 ms ltac:(lia) ltac:(simpl; lia)) as L4.
  assert (Hf : (length (frame_fname
                  (fmt_0d 2 (n / 3600) ++ lit "-" ++ fmt_0d 2 (n / 60 mod 60) ++ lit "-"
                   ++ fmt_0d 2 (n mod 60) ++ lit "-" ++ fmt_0d 3 ms) frame_type) ≤ 23)%nat).
  { unfold frame_fname. rewrite !length_app. simpl length.
    unfold pystr, char in *. lia. }
  split; [exact Hf|].
  pose proof (path_join_length (_choose_out_dir out_root uploader base)
                (frame_fname
                   (fmt_0d 2 (n / 3600) ++ lit "-" ++ fmt_0d 2 (n / 60 mod 60) ++ lit "-"
                    ++ fmt_0d 2 (n mod 60) ++ lit "-" ++ fmt_0d 3 ms) frame_type)) as Hj.
  pose proof (choose_out_dir_length out_root uploader base) as Hd.
  unfold pystr, char in *. lia.
Qed.

Lemma frame_path_length_bound_witness :
  valid_binary prec emax t12 = true ∧ is_finite t12 = true ∧ fle f0 t12 = true
  ∧ to_int t12 = Some 12 ∧ 12 < 360000
  ∧ (length (lit "out") ≤ 176)%nat ∧ (length (lit "start") ≤ 5)%nat
  ∧ ∃ ts,
      _sec_to_fname_ts t12 = Some ts
      ∧ (length (frame_fname ts (lit "start")) ≤ 23)%nat
      ∧ (length (path_join (_choose_out_dir (lit "out") (lit "uploader") (lit "clip"))
                   (frame_fname ts (lit "start"))) ≤ 254)%nat.
Proof.
  split; [reflexivity|]. split; [reflexivity|]. split; [reflexivity|].
  split; [reflexivity|]. split; [lia|]. split; [simpl; lia|]. split; [simpl; lia|].
  apply (frame_path_length_bound (lit "out") (lit "uploader") (lit "clip") (lit "start")
           t12 12); [reflexivity|reflexivity|reflexivity|reflexivity|lia|simpl; lia|simpl; lia].
Defined.

(** ** The manifest as [video_cut.py] reads it *)

Lemma load_lines_records (env : Env) (lines : list pystr) (records : list JValue) :
  load_lines env lines records = records ++ manifest_records env lines.
Proof.
  revert records. induction lines as [|line lines IH]; intros records.
  - simpl. by rewrite app_nil_r.
  - unfold manifest_records in *. simpl.
    destruct (truthy (strip line)); simpl; [|apply IH].
    destruct (json_loads env (strip line)) as [rec|]; simpl; [|apply IH].
    rewrite IH. by rewrite <- app_assoc.
Qed.

Lemma read_lines_sublist (env : Env) (since_ts : Z) (lines : list pystr)
    (records recs : list JValue) :
  read_lines env since_ts lines records = inr recs →
  ∃ new, recs = records ++ new ∧ sublist new (manifest_records env lines)
         ∧ Forall (λ rec, ∃ kv, rec = JDict kv) new.
Proof.
  revert records. induction lines as [|line lines IH]; intros records H.
  - simpl in H. injection H as <-. exists []. rewrite app_nil_r.
    split; [done|]. split; [constructor|constructor].
  - unfold manifest_records in *. simpl in *.
    destruct (truthy (strip line)); simpl in *; [|by apply IH].
    destruct (json_loads env (strip line)) as [rec|]; simpl in *; [|by apply IH].
    destruct (rec_get rec (lit "created_at") (JInt 0)) as [e|v] eqn:Hget; [discriminate|].
    destruct (py_int env v) as [e|n]; [discriminate|].
    destruct (since_ts <=? n).
    + destruct (IH _ H) as (new & -> & Hsub & Hall).
      exists (rec :: new). rewrite <- app_assoc. split; [done|].
      split; [by constructor|]. constructor; [|done].
      destruct rec; try discriminate Hget. by eexists.
    + destruct (IH _ H) as (new & -> & Hsub & Hall).
      exists new. split; [done|]. split; [by constructor|done].
Qed.

(** X15: [load_manifest] keeps every line that parses, whatever it parses
    to, in file order, and a missing manifest gives no record and a warning;
    what [_read_new_records] of the orchestrator returns for the same lines
    is a sub-list of it made of objects only. *)
Theorem load_manifest_records (env : Env) (lines : list pystr) :
  load_manifest env (Some lines) = (false, manifest_records env lines)
  ∧ load_manifest env None = (true, [])
  ∧ ∀ since_ts recs,
      _read_new_records env (Some lines) since_ts = inr recs →
      sublist recs (snd (load_manifest env (Some lines)))
      ∧ Forall (λ rec, ∃ kv, rec = JDict kv) recs.
Proof.
  assert (H : load_manifest env (Some lines) = (false, manifest_records env lines)).
  { unfold load_manifest. by rewrite load_lines_records. }
  split; [exact H|]. split; [reflexivity|].
  intros since_ts recs Hr. rewrite H. cbn [snd].
  destruct (read_lines_sublist env since_ts lines [] recs Hr) as (new & -> & Hsub & Hall).
  by split.
Qed.

Example path_name_examples :
  path_name (lit "a/b/") = lit "b" ∧ path_name (lit "a/b/.") = lit "b"
  ∧ path_name (lit "a//b.mp4") = lit "b.mp4" ∧ path_name (lit "/") = []
  ∧ path_name [] = [] ∧ path_name (lit ".") = [] ∧ path_name (lit "a/..") = lit ".."
  ∧ split_on 58%N (lit "a::b:") = [lit "a"; []; lit "b"; []]
  ∧ split_on 58%N [] = [[]]
  ∧ is_infix [] (lit "abc") = true ∧ is_infix (lit "bc") (lit "abc") = true
  ∧ is_infix (lit "ac") (lit "abc") = false.
Proof. repeat split; vm_compute; reflexivity. Qed.

(** ** The task list of [video_cut.main] *)

Lemma build_tasks_cons (w : World) (only_video : pystr) (rec : JValue)
    (rest : list JValue) (tasks : list (pystr * pystr)) :
  build_tasks w only_video (rec :: rest) tasks
  = if task_record_ok rec
    then build_tasks w only_video rest (tasks ++ option_list (task_of w only_video rec))
    else inl (match rec with JDict _ => TypeError | _ => AttributeError end).
Proof.
  cbn [build_tasks]. destruct rec as [| | | | | |kv]; try reflexivity.
  cbn [rec_get task_record_ok task_of].
  destruct (assoc_get (lit "video_path") kv) as [v|],
           (assoc_get (lit "subtitle_path") kv) as [s|]; cbn [from_option id].
  - destruct v as [| | | |v| |], s as [| | | |s| |];
      try (cbn [as_path];
           match goal with
           | |- context [negb (truthy_json ?x) || negb (truthy_json ?y)] =>
               destruct (negb (truthy_json x) || negb (truthy_json y))
           end;
           cbn [orb option_list]; rewrite ?app_nil_r; reflexivity).
    cbn [truthy_json as_path].
    destruct (truthy v), (truthy s), (truthy only_video),
      (is_infix only_video (path_name v)), (path_exists w v), (path_exists w s);
      cbn [negb orb andb option_list]; rewrite ?app_nil_r; reflexivity.
  - destruct v; cbn [truthy_json as_path negb orb andb option_list];
      rewrite ?orb_true_r, ?app_nil_r; reflexivity.
  - cbn [truthy_json negb orb option_list]. by rewrite app_nil_r.
  - cbn [truthy_json negb orb option_list]. by rewrite app_nil_r.
Qed.

Lemma build_tasks_characterised (w : World) (only_video : pystr)
    (records : list JValue) (tasks : list (pystr * pystr)) :
  build_tasks w only_video records tasks
  = match List.find (λ r, negb (task_record_ok r)) records with
    | None => inr (tasks ++ omap (task_of w only_video) records)
    | Some (JDict _) => inl TypeError
    | Some _ => inl AttributeError
    end.
Proof.
  revert tasks. induction records as [|rec records IH]; intros tasks.
  - simpl. by rewrite app_nil_r.
  - rewrite build_tasks_cons. cbn [List.find].
    destruct (task_record_ok rec) eqn:Hok; cbn [negb].
    + rewrite IH. destruct (List.find _ records); [reflexivity|].
      change (omap (task_of w only_video) (rec :: records))
        with (match task_of w only_video rec with
              | Some y => y :: omap (task_of w only_video) records
              | None => omap (task_of w only_video) records
              end).
      destruct (task_of w only_video rec); unfold option_list; cbn [from_option];
        [by rewrite <- app_assoc|by rewrite app_nil_r].
    + by destruct rec.
Qed.

(** X16: the task list of [video_cut.main].  When every record is an object
    whose two paths, if present and truthy, are strings, the tasks are, in
    manifest order, the pairs of non-empty paths that both exist and whose
    video name contains the [--only-video] fragment, if one is given;
    otherwise the first other record makes [main] raise, [AttributeError] for
    a record that is not an object and [TypeError] for a path that is not a
    string, and no task is built. *)
Theorem task_list_characterised (w : World) (only_video : pystr)
    (records : list JValue) :
  build_tasks w only_video records []
  = match List.find (λ r, negb (task_record_ok r)) records with
    | None => inr (omap (task_of w only_video) records)
    | Some (JDict _) => inl TypeError
    | Some _ => inl AttributeError
    end.
Proof. apply build_tasks_characterised. Qed.

(** X17: [load_manifest] accepts a line that parses to something else than
    an object, or to an object with a truthy path that is not a string; the
    loop of [main] over the loaded records then raises, so that such a line
    anywhere in the manifest keeps [main] from extracting any frame. *)
Theorem malformed_record_stops_main (env : Env) (w : World) (only_video : pystr)
    (lines : list pystr) (line : pystr) (rec : JValue) :
  line ∈ lines → truthy (strip line) = true →
  json_loads env (strip line) = Some rec → task_record_ok rec = false →
  rec ∈ snd (load_manifest env (Some lines))
  ∧ ∃ e, build_tasks w only_video (snd (load_manifest env (Some lines))) [] = inl e
         ∧ (e = AttributeError ∨ e = TypeError).
Proof.
  intros Hin Htr Hload Hbad.
  assert (Hrec : rec ∈ manifest_records env lines).
  { unfold manifest_records. apply list_elem_of_omap. exists line.
    split; [done|]. cbv zeta. by rewrite Htr. }
  unfold load_manifest. rewrite load_lines_records. cbn [snd app].
  split; [exact Hrec|].
  rewrite build_tasks_characterised.
  destruct (List.find _ (manifest_records env lines)) as [r|] eqn:Hfind.
  - destruct r; eauto.
  - exfalso. apply list_elem_of_In in Hrec.
    pose proof (find_none _ _ Hfind rec Hrec) as H. cbv beta in H.
    rewrite Hbad in H. discriminate.
Qed.

Lemma malformed_record_stops_main_witness :
  lit "[]" ∈ [lit "new"; lit "[]"] ∧ truthy (strip (lit "[]")) = true
  ∧ json_loads env_manifest (strip (lit "[]")) = Some (JList [])
  ∧ task_record_ok (JList []) = false
  ∧ JList [] ∈ snd (load_manifest env_manifest (Some [lit "new"; lit "[]"]))
  ∧ ∃ e, build_tasks empty_world [] (snd (load_manifest env_manifest
                                            (Some [lit "new"; lit "[]"]))) [] = inl e
         ∧ (e = AttributeError ∨ e = TypeError).
Proof.
  assert (Hin : lit "[]" ∈ [lit "new"; lit "[]"]).
  { apply list_elem_of_further, list_elem_of_here. }
  split; [exact Hin|]. split; [reflexivity|]. split; [reflexivity|]. split; [reflexivity|].
  apply (malformed_record_stops_main env_manifest empty_world [] [lit "new"; lit "[]"]
           (lit "[]") (JList []) Hin); reflexivity.
Defined.

(** ** The worker pool *)

(** X18: the default number of workers lies between 2 and 4 whatever the
    number of processors, it is the number of processors when that is 2, 3
    or 4, and the pool of [main] always has at least one worker, the number
    asked for when that is positive. *)
Theorem pool_size_bounds (cpu workers : Z) :
  2 ≤ _default_workers cpu ≤ 4
  ∧ (2 ≤ cpu ≤ 4 → _default_workers cpu = cpu)
  ∧ pool_size (_default_workers cpu) = _default_workers cpu
  ∧ 1 ≤ pool_size workers
  ∧ (1 ≤ workers → pool_size workers = workers).
Proof. unfold _default_workers, pool_size. lia. Qed.

(** ** The duration of a video *)

Lemma scan_streams_find (fos : pystr -> option float) (streams : list JValue) :
  Forall (λ st, ∃ kv, st = JDict kv) streams →
  scan_streams fos streams
  = match List.find is_timed_video streams with
    | Some st => py_float fos (stream_duration st)
    | None => inr f0
    end.
Proof.
  induction 1 as [|st streams [kv ->] Hs IH]; [reflexivity|].
  cbn [scan_streams List.find rec_get is_timed_video stream_duration].
  destruct (py_eq_str _ (lit "video")); cbn [andb]; [|exact IH].
  destruct (truthy_json _); [reflexivity|exact IH].
Qed.

(** X19: [get_video_duration] never raises and gives 0.0 when the probe
    fails.  A truthy [duration] of the format decides alone: its conversion
    to a float, or 0.0 when the conversion raises, the streams not being
    consulted.  Without it, and with a list of stream objects, the first
    video stream with a truthy [duration] decides in the same way, and
    without such a stream the result is 0.0. *)
Theorem duration_precedence (fos : pystr -> option float)
    (kv fkv : list (pystr * JValue)) :
  get_video_duration fos None = f0
  ∧ (∀ dur,
       assoc_get (lit "format") kv = Some (JDict fkv) →
       assoc_get (lit "duration") fkv = Some dur → truthy_json dur = true →
       get_video_duration fos (Some (JDict kv)) = float_or_zero fos dur)
  ∧ (∀ streams,
       assoc_get (lit "format") kv = Some (JDict fkv) ∨ assoc_get (lit "format") kv = None →
       truthy_json (from_option id JNull (assoc_get (lit "duration") fkv)) = false →
       (assoc_get (lit "format") kv = None → fkv = []) →
       assoc_get (lit "streams") kv = Some (JList streams) →
       Forall (λ st, ∃ skv, st = JDict skv) streams →
       get_video_duration fos (Some (JDict kv))
       = match List.find is_timed_video streams with
         | Some st => float_or_zero fos (stream_duration st)
         | None => f0
         end).
Proof.
  split; [reflexivity|]. split.
  - intros dur Hf Hd Ht. unfold get_video_duration, duration_of_probe, float_or_zero.
    cbn [rec_get]. rewrite Hf. cbn [from_option id rec_get]. rewrite Hd.
    cbn [from_option id]. by rewrite Ht.
  - intros streams Hf Hd Hnone Hs Hall.
    unfold get_video_duration, duration_of_probe, float_or_zero. cbn [rec_get].
    assert (Hfmt : from_option id (JDict []) (assoc_get (lit "format") kv) = JDict fkv).
    { destruct Hf as [-> | Hn]; [reflexivity|]. rewrite Hn, (Hnone Hn). reflexivity. }
    rewrite Hfmt. cbn [rec_get]. rewrite Hd, Hs. cbn [from_option id py_iter].
    rewrite (scan_streams_find fos streams Hall).
    by destruct (List.find is_timed_video streams).
Qed.

(** An unreadable duration in the format hides the good one of the video
    stream; without the former, the audio stream is passed over. *)
Example duration_examples :
  get_video_duration sample_float_of_str (Some probe_bad_format) = f0
  ∧ get_video_duration sample_float_of_str (Some probe_streams_only) = dec 25 2
  ∧ get_video_duration sample_float_of_str (Some (JList [])) = f0
  ∧ get_video_duration sample_float_of_str
      (Some (JDict [(lit "format", JDict [(lit "duration", JInt (2 ^ 1024))])])) = f0.
Proof. repeat split; vm_compute; reflexivity. Qed.
